(** * my-jeonse: the jeonse-ratio calculator of [app.py]

    A shallow embedding of the four pure helpers of [app.py]
    ([build_naver_search_url], [calc_jeonse_ratio], [get_risk_level],
    [make_donut_chart]) over a model of the Python values they handle:
    unbounded integers, IEEE 754 binary64 floats (the bit-level
    specification [spec_float] of the standard library), strings as
    sequences of Unicode code points, and exceptions as an error result. *)

From Stdlib Require Import ZArith NArith PArith List Bool Lia.
From Stdlib Require Import String Ascii DecimalString.
From Stdlib Require Import SpecFloat.
Import ListNotations.

Open Scope Z_scope.

(** ** Python results: a value or a raised exception *)

Inductive exn : Type :=
  | OverflowError
  | ZeroDivisionError
  | UnicodeEncodeError
  | ValueError.

Inductive result (A : Type) : Type :=
  | Ok (a : A)
  | Raise (e : exn).

Arguments Ok {A} a.
Arguments Raise {A} e.

Definition bind {A B : Type} (r : result A) (k : A -> result B) : result B :=
  match r with
  | Ok a => k a
  | Raise e => Raise e
  end.

Notation "x <- r ;; k" := (bind r (fun x => k))
  (at level 61, r at next level, right associativity).

(** ** Python floats: IEEE 754 binary64 *)

Module PyFloat.

Definition prec : Z := 53.
Definition emax : Z := 1024.

Definition float := spec_float.

Definition pos_zero : float := S754_zero false.
Definition neg_zero : float := S754_zero true.
Definition pos_inf : float := S754_infinity false.
Definition neg_inf : float := S754_infinity true.
Definition nan : float := S754_nan.

(** The binary64 value nearest to the rational [n / d] (ties to even),
    with sign [s]: what the float parser yields for a decimal literal and
    what true division of two integers yields. *)
Definition nearest (s : bool) (n d : positive) : float :=
  let '(mz, ez, lz) := SFdiv_core_binary prec emax (Zpos n) 0 (Zpos d) 0 in
  binary_round_aux prec emax s mz ez lz.

(** [float(z)] for an integer [z], before the overflow check. *)
Definition of_Z (z : Z) : float := binary_normalize prec emax z 0 false.

(** The overflow check of a conversion from [int] or of a division of two
    [int]s: an infinite result raises [OverflowError]. *)
Definition checked (f : float) : result float :=
  match f with
  | S754_infinity _ => Raise OverflowError
  | _ => Ok f
  end.

(** A decimal literal [n / d] in the source text, such as [0.7 = 7/10]. *)
Definition lit (n d : positive) : float := nearest false n d.

Definition add : float -> float -> float := SFadd prec emax.
Definition sub : float -> float -> float := SFsub prec emax.
Definition mul : float -> float -> float := SFmul prec emax.
Definition div : float -> float -> float := SFdiv prec emax.

Definition is_zero (f : float) : bool :=
  match f with S754_zero _ => true | _ => false end.

Definition is_finite (f : float) : bool :=
  match f with S754_zero _ | S754_finite _ _ _ => true | _ => false end.

(** [Z.div_eucl]-based rounding of [a / b] ([0 <= a], [0 < b]) to the
    nearest integer, ties to the even one. *)
Definition div_half_even (a b : Z) : Z :=
  let q := a / b in
  let r := a mod b in
  match 2 * r ?= b with
  | Lt => q
  | Gt => q + 1
  | Eq => if Z.even q then q else q + 1
  end.

(** [|x| * 10] rounded half-even to an integer, for finite non-zero
    [x = m * 2^e]: the digits of [x] to one decimal place. *)
Definition tenths (m : positive) (e : Z) : Z :=
  match e with
  | Z0 => Zpos m * 10
  | Zpos k => Zpos m * 10 * 2 ^ Zpos k
  | Zneg k => div_half_even (Zpos m * 10) (2 ^ Zpos k)
  end.

(** [round(x, 1)] on a float: nans, infinities and zeros round to
    themselves; a finite [x] is rendered correctly rounded to one decimal
    place and read back as the nearest float. *)
Definition round1 (x : float) : float :=
  match x with
  | S754_finite s m e =>
      match tenths m e with
      | Zpos n => nearest s n 10
      | _ => S754_zero s
      end
  | _ => x
  end.

End PyFloat.

(** ** Python strings: sequences of Unicode code points *)

Module PyStr.

Definition str := list N.

Open Scope N_scope.

(** Decoding of the UTF-8 bytes of a literal of this file into code
    points, so that literals read as they do in [app.py]. *)
Definition cont (b : N) : N := N.land b 63.

Fixpoint decode (fuel : nat) (bs : list N) : str :=
  match fuel with
  | O => []
  | S fuel' =>
      match bs with
      | [] => []
      | b0 :: t0 =>
          if b0 <? 128 then b0 :: decode fuel' t0
          else if b0 <? 224 then
            match t0 with
            | b1 :: t1 => (N.land b0 31 * 64 + cont b1) :: decode fuel' t1
            | _ => [b0]
            end
          else if b0 <? 240 then
            match t0 with
            | b1 :: b2 :: t2 =>
                (N.land b0 15 * 4096 + cont b1 * 64 + cont b2) :: decode fuel' t2
            | _ => [b0]
            end
          else
            match t0 with
            | b1 :: b2 :: b3 :: t3 =>
                (N.land b0 7 * 262144 + cont b1 * 4096 + cont b2 * 64 + cont b3)
                  :: decode fuel' t3
            | _ => [b0]
            end
      end
  end.

Definition bytes_of (s : string) : list N :=
  map N_of_ascii (list_ascii_of_string s).

Definition u (s : string) : str :=
  let bs := bytes_of s in decode (List.length bs) bs.

(** [str.isspace] on one character, the set [str.strip()] removes. *)
Definition isspace (c : N) : bool :=
  (9 <=? c) && (c <=? 13) || (28 <=? c) && (c <=? 32)
  || (c =? 133) || (c =? 160) || (c =? 5760)
  || (8192 <=? c) && (c <=? 8202)
  || (c =? 8232) || (c =? 8233) || (c =? 8239) || (c =? 8287) || (c =? 12288).

Fixpoint lstrip (s : str) : str :=
  match s with
  | c :: t => if isspace c then lstrip t else s
  | [] => []
  end.

Definition rstrip (s : str) : str := rev (lstrip (rev s)).

Definition strip (s : str) : str := rstrip (lstrip s).

(** A Unicode scalar value: a code point that is not a surrogate. *)
Definition is_surrogate (c : N) : bool := (55296 <=? c) && (c <=? 57343).

Definition is_scalar (c : N) : bool := (c <=? 1114111) && negb (is_surrogate c).

(** [str.encode("utf-8", "strict")]: surrogates cannot be encoded. *)
Definition utf8_encode_cp (c : N) : result (list N) :=
  if c <? 128 then Ok [c]
  else if c <? 2048 then Ok [192 + c / 64; 128 + c mod 64]
  else if is_surrogate c then Raise UnicodeEncodeError
  else if c <? 65536 then
    Ok [224 + c / 4096; 128 + (c / 64) mod 64; 128 + c mod 64]
  else
    Ok [240 + c / 262144; 128 + (c / 4096) mod 64; 128 + (c / 64) mod 64;
        128 + c mod 64].

Fixpoint utf8_encode (s : str) : result (list N) :=
  match s with
  | [] => Ok []
  | c :: t =>
      bs <- utf8_encode_cp c ;;
      rest <- utf8_encode t ;;
      Ok (bs ++ rest)
  end.

(** [urllib.parse.quote] with its default [safe="/"]: letters, digits and
    [_.-~/] are kept, every other byte becomes [%XX] in upper-case hex. *)
Definition always_safe (b : N) : bool :=
  (48 <=? b) && (b <=? 57) || (65 <=? b) && (b <=? 90)
  || (97 <=? b) && (b <=? 122)
  || (b =? 95) || (b =? 46) || (b =? 45) || (b =? 126) || (b =? 47).

Definition hex_digit (d : N) : N := if d <? 10 then 48 + d else 55 + d.

Definition quote_byte (b : N) : str :=
  if always_safe b then [b] else [37; hex_digit (b / 16); hex_digit (b mod 16)].

Definition quote (s : str) : result str :=
  bs <- utf8_encode s ;;
  Ok (flat_map quote_byte bs).

(** Decimal digits of a non-negative integer, as [str(n)] prints them. *)
Definition decimal (n : N) : str :=
  bytes_of (NilZero.string_of_uint (N.to_uint n)).

(** [==] on two strings. *)
Fixpoint str_eqb (a b : str) : bool :=
  match a, b with
  | [], [] => true
  | x :: a', y :: b' => (x =? y) && str_eqb a' b'
  | _, _ => false
  end.

(** [d.get(key, default)] on a dict literal with string keys, given as
    its items in source order. *)
Fixpoint dict_get (d : list (str * str)) (key default : str) : str :=
  match d with
  | [] => default
  | (k, v) :: rest => if str_eqb k key then v else dict_get rest key default
  end.

Close Scope N_scope.

End PyStr.

(** ** Python numbers: [int] and [float] *)

Module PyNum.

Import PyFloat PyStr.

Inductive num : Type :=
  | PInt (z : Z)
  | PFloat (f : float).

(** [float(x)]: an integer too large for a binary64 raises. *)
Definition to_float (x : num) : result float :=
  match x with
  | PFloat f => Ok f
  | PInt z => checked (of_Z z)
  end.

(** Comparison of an integer with a float is exact in Python: no
    conversion error, no rounding. *)
Definition compare_Z_float (z : Z) (f : float) : option comparison :=
  match f with
  | S754_nan => None
  | S754_infinity s => Some (if s then Gt else Lt)
  | S754_zero _ => Some (z ?= 0)
  | S754_finite s m e =>
      let v := cond_Zopp s (Zpos m) in
      Some match e with
           | Zneg k => z * 2 ^ Zpos k ?= v
           | _ => z ?= v * 2 ^ e
           end
  end.

Definition compare (x y : num) : option comparison :=
  match x, y with
  | PInt a, PInt b => Some (a ?= b)
  | PFloat a, PFloat b => SFcompare a b
  | PInt a, PFloat b => compare_Z_float a b
  | PFloat a, PInt b => option_map CompOpp (compare_Z_float b a)
  end.

Definition lt (x y : num) : bool :=
  match compare x y with Some Lt => true | _ => false end.

Definition le (x y : num) : bool :=
  match compare x y with Some (Lt | Eq) => true | _ => false end.

Definition eq (x y : num) : bool :=
  match compare x y with Some Eq => true | _ => false end.

Definition gt (x y : num) : bool := lt y x.
Definition ge (x y : num) : bool := le y x.

(** [a / b] on two integers: the correctly rounded quotient. *)
Definition truediv_int (a b : Z) : result float :=
  match b, a with
  | Z0, _ => Raise ZeroDivisionError
  | _, Z0 => Ok (S754_zero (b <? 0))
  | _, _ =>
      checked (nearest (xorb (a <? 0) (b <? 0))
                       (Z.to_pos (Z.abs a)) (Z.to_pos (Z.abs b)))
  end.

Definition truediv (x y : num) : result num :=
  match x, y with
  | PInt a, PInt b => f <- truediv_int a b ;; Ok (PFloat f)
  | _, _ =>
      a <- to_float x ;;
      b <- to_float y ;;
      if is_zero b then Raise ZeroDivisionError else Ok (PFloat (div a b))
  end.

Definition mul (x y : num) : result num :=
  match x, y with
  | PInt a, PInt b => Ok (PInt (a * b))
  | _, _ => a <- to_float x ;; b <- to_float y ;; Ok (PFloat (PyFloat.mul a b))
  end.

Definition sub (x y : num) : result num :=
  match x, y with
  | PInt a, PInt b => Ok (PInt (a - b))
  | _, _ => a <- to_float x ;; b <- to_float y ;; Ok (PFloat (PyFloat.sub a b))
  end.

Definition add (x y : num) : result num :=
  match x, y with
  | PInt a, PInt b => Ok (PInt (a + b))
  | _, _ => a <- to_float x ;; b <- to_float y ;; Ok (PFloat (PyFloat.add a b))
  end.

(** [round(x, 1)]: an [int] is returned unchanged, a [float] is rounded. *)
Definition round1 (x : num) : num :=
  match x with
  | PInt z => PInt z
  | PFloat f => PFloat (PyFloat.round1 f)
  end.

(** The format specification [.1f]: the number is first made a float. *)
Definition format_float1 (f : float) : str :=
  match f with
  | S754_nan => u "nan"
  | S754_infinity s => if s then u "-inf" else u "inf"
  | S754_zero s => if s then u "-0.0" else u "0.0"
  | S754_finite s m e =>
      let n := Z.to_N (tenths m e) in
      (if s then u "-" else []) ++ decimal (n / 10) ++ u "." ++ decimal (n mod 10)
  end.

Definition format1 (x : num) : result str :=
  f <- to_float x ;; Ok (format_float1 f).

End PyNum.

(** ** Python string conversions of numbers *)

Module PyFormat.

Import PyFloat PyStr PyNum.

(** [v < 10^t] for the rational [v = num / den]. *)
Definition below_pow10 (num den t : Z) : bool :=
  if 0 <=? t then num <? den * 10 ^ t else num * 10 ^ (- t) <? den.

(** The decimal exponent [t] of [v > 0]: [10^(t-1) <= v < 10^t], searched
    upwards from [t]. *)
Fixpoint decimal_exponent (fuel : nat) (num den t : Z) : Z :=
  match fuel with
  | O => t
  | S fuel' =>
      if below_pow10 num den t then t
      else decimal_exponent fuel' num den (t + 1)
  end.

(** A lower estimate of the decimal exponent of [v = num / den], from
    the binary one: [v >= 2^b] gives [10^t > 2^b]. *)
Definition estimate (num den : Z) : Z :=
  (Z.log2 num - Z.log2 den - 1) * 30103 / 100000 - 2.

(** The float nearest to [c * 10^p], for [c > 0]. *)
Definition read_back (c p : Z) : float :=
  if 0 <=? p then nearest false (Z.to_pos (c * 10 ^ p)) 1
  else nearest false (Z.to_pos c) (Z.to_pos (10 ^ (- p))).

Definition same_float (a b : float) : bool :=
  match a, b with
  | S754_finite s m e, S754_finite s' m' e' =>
      Bool.eqb s s' && Pos.eqb m m' && Z.eqb e e'
  | S754_zero s, S754_zero s' => Bool.eqb s s'
  | S754_infinity s, S754_infinity s' => Bool.eqb s s'
  | S754_nan, S754_nan => true
  | _, _ => false
  end.

(** The decimal of [k] digits nearest to [v = num / den] that reads back
    as [x], when there is one: the candidates are the two [k]-digit
    decimals around [v]. *)
Definition shortest_at (x : float) (num den t k : Z) : option Z :=
  let p := t - k in
  let '(n, d) := if 0 <=? p then (num, den * 10 ^ p) else (num * 10 ^ (- p), den) in
  let lo := n / d in
  let hi := lo + 1 in
  let lo_ok := same_float (read_back lo p) x in
  let hi_ok := same_float (read_back hi p) x in
  match lo_ok, hi_ok with
  | true, true =>
      match 2 * (n mod d) ?= d with
      | Lt => Some lo
      | Gt => Some hi
      | Eq => Some (if Z.even lo then lo else hi)
      end
  | true, false => Some lo
  | false, true => Some hi
  | false, false => None
  end.

(** The shortest decimal that reads back as [x], searched from one digit
    up to seventeen; the result is the digits as an integer and the power
    of ten they are scaled by. *)
Fixpoint shortest (x : float) (num den t : Z) (k : Z) (fuel : nat) : Z * Z :=
  match fuel with
  | O => (num / den, 0)
  | S fuel' =>
      match shortest_at x num den t k with
      | Some c => (c, t - k)
      | None => shortest x num den t (k + 1) fuel'
      end
  end.

(** Trailing zeros of the digits go into the power of ten. *)
Fixpoint strip_zeros (fuel : nat) (c p : Z) : Z * Z :=
  match fuel with
  | O => (c, p)
  | S fuel' =>
      if (c mod 10 =? 0) && negb (c =? 0) then strip_zeros fuel' (c / 10) (p + 1)
      else (c, p)
  end.

Fixpoint zeros (n : nat) : str :=
  match n with
  | O => []
  | S n' => 48%N :: zeros n'
  end.

(** The digits [ds] with the decimal point after [decpt] of them, as
    [repr] lays them out: plain for [-4 < decpt <= 16], with an exponent
    otherwise. *)
Definition layout (ds : str) (decpt : Z) : str :=
  let len := Z.of_nat (List.length ds) in
  if (decpt <=? -4) || (16 <? decpt) then
    let e := decpt - 1 in
    let es := decimal (Z.to_N (Z.abs e)) in
    firstn 1 ds
    ++ (if 1 <? len then u "." ++ skipn 1 ds else [])
    ++ u "e" ++ (if e <? 0 then u "-" else u "+")
    ++ (if Z.abs e <? 10 then u "0" else []) ++ es
  else if decpt <=? 0 then
    u "0." ++ zeros (Z.to_nat (- decpt)) ++ ds
  else if len <=? decpt then
    ds ++ zeros (Z.to_nat (decpt - len)) ++ u ".0"
  else
    firstn (Z.to_nat decpt) ds ++ u "." ++ skipn (Z.to_nat decpt) ds.

(** [repr(x)] and [str(x)] of a float: the shortest decimal that reads
    back as [x]. *)
Definition repr_float (x : float) : str :=
  match x with
  | S754_nan => u "nan"
  | S754_infinity s => if s then u "-inf" else u "inf"
  | S754_zero s => if s then u "-0.0" else u "0.0"
  | S754_finite s m e =>
      let '(num, den) :=
        match e with
        | Zneg k => (Zpos m, 2 ^ Zpos k)
        | _ => (Zpos m * 2 ^ e, 1)
        end in
      let t := decimal_exponent 8 num den (estimate num den) in
      let '(c0, p0) := shortest (S754_finite false m e) num den t 1 17 in
      let '(c, p) := strip_zeros 400 c0 p0 in
      let ds := decimal (Z.to_N c) in
      (if s then u "-" else [])
      ++ layout ds (Z.of_nat (List.length ds) + p)
  end.

(** The digits of [n] in groups of three, separated by commas. *)
Fixpoint group3 (fuel : nat) (n : N) : str :=
  match fuel with
  | O => decimal n
  | S fuel' =>
      if (n <? 1000)%N then decimal n
      else
        let r := (n mod 1000)%N in
        group3 fuel' (n / 1000)%N ++ u ","
        ++ (if (r <? 10)%N then u "00" else if (r <? 100)%N then u "0" else [])
        ++ decimal r
  end.

(** The format specification [,] on an [int]. *)
Definition format_thousands (z : Z) : str :=
  (if z <? 0 then u "-" else [])
  ++ group3 (S (Z.to_nat (Z.log2 (Z.abs z)))) (Z.to_N (Z.abs z)).

(** [str(x)], as an f-string field without a format specification
    prints a number. *)
Definition str_int (z : Z) : str :=
  (if z <? 0 then u "-" else []) ++ decimal (Z.to_N (Z.abs z)).

Definition str_num (x : num) : str :=
  match x with
  | PInt z => str_int z
  | PFloat f => repr_float f
  end.

End PyFormat.

(** ** The chart description built through plotly

    [go.Figure], [go.Pie] and [fig.update_layout] build the declarative
    description: the records below hold the properties [app.py] sets, with
    the values it sets them to.  plotly checks every property it is given;
    with the arguments of [app.py] the one check that can fail is that of
    the colour of the annotation's font, made by [ColorValidator], which
    raises [ValueError] on a string that is not a colour.  (The colours of
    the slices are a data array, which is taken as it is.) *)

Module Plotly.

Import PyFloat PyStr PyNum.

Open Scope N_scope.

(** Every space is removed, as [str.replace] does. *)
Definition remove_spaces (v : str) : str :=
  filter (fun c => negb (c =? 32)) v.

(** [str.lower], character by character.  Besides the ASCII capitals, two
    code points have a lower case with an ASCII letter in it: U+0130 gives
    [i] and U+0307, and the Kelvin sign U+212A gives [k].  Every other
    cased character has a lower case outside ASCII that is neither a digit
    nor a line feed, as the character is itself, and the patterns and names
    below treat the two alike; it is left in place. *)
Definition lower_cp (c : N) : str :=
  if (65 <=? c) && (c <=? 90) then [c + 32]
  else if c =? 304 then [105; 775]
  else if c =? 8490 then [107]
  else [c].

Definition lower (v : str) : str := flat_map lower_cp v.

(** The first code points of the blocks of ten decimal digits of Unicode
    14 (category Nd); the mathematical digits U+1D7CE to U+1D7FF are five
    blocks in a row. *)
Definition decimal_blocks : list N :=
  [
    48; 1632; 1776; 1984; 2406; 2534; 2662; 2790; 2918; 3046; 3174; 3302;
    3430; 3558; 3664; 3792; 3872; 4160; 4240; 6112; 6160; 6470; 6608; 6784;
    6800; 6992; 7088; 7232; 7248; 42528; 43216; 43264; 43472; 43504; 43600;
    44016; 65296; 66720; 68912; 69734; 69872; 69942; 70096; 70384; 70736;
    70864; 71248; 71360; 71472; 71904; 72016; 72784; 73040; 73120; 92768;
    92864; 93008; 123200; 123632; 125264; 130032 ].

(** The class of decimal digits of a pattern on [str]. *)
Definition is_decimal (c : N) : bool :=
  existsb (fun b => (b <=? c) && (c <? b + 10)) decimal_blocks
  || (120782 <=? c) && (c <=? 120831).

Definition is_hex (c : N) : bool :=
  (48 <=? c) && (c <=? 57) || (65 <=? c) && (c <=? 70)
  || (97 <=? c) && (c <=? 102).

(** A whole match of [re_hex]: a hash sign and six or three hexadecimal
    digits. *)
Definition re_hex (s : str) : bool :=
  match s with
  | 35 :: t =>
      forallb is_hex t && ((List.length t =? 6)%nat || (List.length t =? 3)%nat)
  | _ => false
  end.

(** The longest run of digits and points at the start of [s] is dropped. *)
Fixpoint skip_number (s : str) : str :=
  match s with
  | c :: t => if is_decimal c || (c =? 46) then skip_number t else s
  | [] => []
  end.

(** One component at the start of [s], a non-empty run of digits and
    points and then an optional percent sign: what follows it. *)
Definition component (s : str) : option str :=
  match s with
  | c :: t =>
      if is_decimal c || (c =? 46) then
        Some match skip_number t with
             | 37 :: r => r
             | r => r
             end
      else None
  | [] => None
  end.

(** A comma and one component at the start of [s]. *)
Definition comma_component (s : str) : option str :=
  match s with
  | 44 :: t => component t
  | _ => None
  end.

(** A whole match of [re_rgb_etc]: one of [rgb], [hsl], [hsv], an optional
    [a], and between parentheses three or four components separated by
    commas. *)
Definition re_rgb_etc (s : str) : bool :=
  match s with
  | a :: b :: c :: t =>
      if str_eqb [a; b; c] (u "rgb") || str_eqb [a; b; c] (u "hsl")
         || str_eqb [a; b; c] (u "hsv")
      then
        match (match t with 97 :: t' => t' | _ => t end) with
        | 40 :: t0 =>
            match component t0 with
            | Some t1 =>
                match comma_component t1 with
                | Some t2 =>
                    match comma_component t2 with
                    | Some t3 =>
                        str_eqb t3 (u ")")
                        || match comma_component t3 with
                           | Some t4 => str_eqb t4 (u ")")
                           | None => false
                           end
                    | None => false
                    end
                | None => false
                end
            | None => false
            end
        | _ => false
        end
      else false
  | _ => false
  end.

(** A whole match of [re_ddk]: [var(--], any characters but line feeds,
    and a closing parenthesis. *)
Definition re_ddk (s : str) : bool :=
  match s with
  | 118 :: 97 :: 114 :: 40 :: 45 :: 45 :: t =>
      match rev t with
      | 41 :: m => forallb (fun c => negb (c =? 10)) m
      | _ => false
      end
  | _ => false
  end.

Close Scope N_scope.

Definition named_colors : list str :=
  [ u "aliceblue"; u "antiquewhite"; u "aqua"; u "aquamarine"; u "azure";
    u "beige"; u "bisque"; u "black"; u "blanchedalmond"; u "blue";
    u "blueviolet"; u "brown"; u "burlywood"; u "cadetblue"; u "chartreuse";
    u "chocolate"; u "coral"; u "cornflowerblue"; u "cornsilk"; u "crimson";
    u "cyan"; u "darkblue"; u "darkcyan"; u "darkgoldenrod"; u "darkgray";
    u "darkgrey"; u "darkgreen"; u "darkkhaki"; u "darkmagenta";
    u "darkolivegreen"; u "darkorange"; u "darkorchid"; u "darkred";
    u "darksalmon"; u "darkseagreen"; u "darkslateblue"; u "darkslategray";
    u "darkslategrey"; u "darkturquoise"; u "darkviolet"; u "deeppink";
    u "deepskyblue"; u "dimgray"; u "dimgrey"; u "dodgerblue"; u "firebrick";
    u "floralwhite"; u "forestgreen"; u "fuchsia"; u "gainsboro";
    u "ghostwhite"; u "gold"; u "goldenrod"; u "gray"; u "grey"; u "green";
    u "greenyellow"; u "honeydew"; u "hotpink"; u "indianred"; u "indigo";
    u "ivory"; u "khaki"; u "lavender"; u "lavenderblush"; u "lawngreen";
    u "lemonchiffon"; u "lightblue"; u "lightcoral"; u "lightcyan";
    u "lightgoldenrodyellow"; u "lightgray"; u "lightgrey"; u "lightgreen";
    u "lightpink"; u "lightsalmon"; u "lightseagreen"; u "lightskyblue";
    u "lightslategray"; u "lightslategrey"; u "lightsteelblue";
    u "lightyellow"; u "lime"; u "limegreen"; u "linen"; u "magenta";
    u "maroon"; u "mediumaquamarine"; u "mediumblue"; u "mediumorchid";
    u "mediumpurple"; u "mediumseagreen"; u "mediumslateblue";
    u "mediumspringgreen"; u "mediumturquoise"; u "mediumvioletred";
    u "midnightblue"; u "mintcream"; u "mistyrose"; u "moccasin";
    u "navajowhite"; u "navy"; u "oldlace"; u "olive"; u "olivedrab";
    u "orange"; u "orangered"; u "orchid"; u "palegoldenrod"; u "palegreen";
    u "paleturquoise"; u "palevioletred"; u "papayawhip"; u "peachpuff";
    u "peru"; u "pink"; u "plum"; u "powderblue"; u "purple"; u "red";
    u "rosybrown"; u "royalblue"; u "rebeccapurple"; u "saddlebrown";
    u "salmon"; u "sandybrown"; u "seagreen"; u "seashell"; u "sienna";
    u "silver"; u "skyblue"; u "slateblue"; u "slategray"; u "slategrey";
    u "snow"; u "springgreen"; u "steelblue"; u "tan"; u "teal"; u "thistle";
    u "tomato"; u "turquoise"; u "violet"; u "wheat"; u "white";
    u "whitesmoke"; u "yellow"; u "yellowgreen" ].

(** [ColorValidator.perform_validate_coerce] on a string: the string
    itself when it is a colour, [None] when it is not. *)
Definition perform_validate_coerce (v : str) : option str :=
  let v_normalized := lower (remove_spaces v) in
  if re_hex v_normalized then Some v
  else if re_rgb_etc v_normalized then Some v
  else if re_ddk v_normalized then Some v
  else if existsb (str_eqb v_normalized) named_colors then Some v
  else None.

(** [ColorValidator.validate_coerce] on a string, for a property that
    takes one colour: what is not a colour raises [ValueError]. *)
Definition validate_coerce (v : str) : result str :=
  match perform_validate_coerce v with
  | Some v => Ok v
  | None => Raise ValueError
  end.

(** A string plotly takes as a colour. *)
Definition is_color (v : str) : bool :=
  match perform_validate_coerce v with
  | Some _ => true
  | None => false
  end.

Record Pie : Type := {
  values : list num;
  hole : float;
  marker_colors : list str;
  textinfo : str
}.

Record Font : Type := {
  font_size : Z;
  font_color : str
}.

Record Annotation : Type := {
  text : str;
  ann_x : float;
  ann_y : float;
  font : Font;
  showarrow : bool
}.

Record Margin : Type := {
  margin_l : Z;
  margin_r : Z;
  margin_t : Z;
  margin_b : Z
}.

Record Figure : Type := {
  data : list Pie;
  showlegend : bool;
  margin : Margin;
  annotations : list Annotation
}.

End Plotly.

(** ** The page built through streamlit

    The calls [main] makes to streamlit are recorded in order with their
    arguments; what the widgets return (the text typed, the numbers
    entered, whether a button was pressed) is given to [main] as its
    argument.  A run yields the calls made and then either returns or
    stops at an exception. *)

Module Streamlit.

Import PyStr Plotly.

Inductive call : Type :=
  | set_page_config (page_title page_icon layout : str)
  | title (body : str)
  | caption (body : str)
  | markdown (body : str) (unsafe_allow_html : bool)
  | text_input (label : str)
  | button (label : str)
  | number_input (label : str) (min_value step : Z)
  | success (body : str)
  | warning (body : str)
  | columns (spec : Z)
  | metric (column : Z) (label value : str)
  | plotly_chart (fig : Figure) (use_container_width : bool).

Record widgets : Type := {
  addr_text : str;
  search_pressed : bool;
  sale_price_value : Z;
  jeonse_deposit_value : Z;
  calc_pressed : bool
}.

Definition ui (A : Type) : Type := list call * result A.

Definition ret {A : Type} (a : A) : ui A := ([], Ok a).

Definition emit (c : call) : ui unit := ([c], Ok tt).

Definition lift {A : Type} (r : result A) : ui A := ([], r).

Definition ui_bind {A B : Type} (m : ui A) (k : A -> ui B) : ui B :=
  match m with
  | (log, Ok a) => let '(log', r) := k a in (log ++ log', r)
  | (log, Raise e) => (log, Raise e)
  end.

End Streamlit.

Notation "x <~ m ;; k" := (Streamlit.ui_bind m (fun x => k))
  (at level 61, m at next level, right associativity).

Notation "m ;;; k" := (Streamlit.ui_bind m (fun _ => k))
  (at level 61, right associativity).

(** ** The helpers of [app.py] *)

Module App.

Import PyFloat PyStr PyNum PyFormat Plotly Streamlit.

(** [address or ""] *)
Definition or_empty (address : option str) : str :=
  match address with
  | Some a => a
  | None => []
  end.

Definition build_naver_search_url (address : option str) : result (option str) :=
  let address := strip (or_empty address) in
  match address with
  | [] => Ok None
  | _ :: _ =>
      q <- quote address ;;
      Ok (Some (u "https://new.land.naver.com/search?sk=" ++ q))
  end.

Definition calc_jeonse_ratio (jeonse_deposit sale_price : num)
  : result (option num) :=
  if le sale_price (PInt 0) then Ok None
  else
    q <- truediv jeonse_deposit sale_price ;;
    p <- mul q (PInt 100) ;;
    Ok (Some (round1 p)).

Definition get_risk_level (ratio : option num) : str * str :=
  match ratio with
  | None => (u "정보 없음", u "#7f8c8d")
  | Some ratio =>
      if lt ratio (PInt 60) then (u "안전 영역", u "#2ecc71")
      else if lt ratio (PInt 80) then (u "주의 영역", u "#f1c40f")
      else (u "위험 영역", u "#e74c3c")
  end.

(** The three steps that can raise come in the order of evaluation:
    [100 - ratio] when the pie is built, the f-string of the text among the
    arguments of [update_layout], and the check of the font colour inside
    [update_layout]. *)
Definition make_donut_chart (ratio : option num) (color : str) : result Figure :=
  let ratio := match ratio with None => PInt 0 | Some r => r end in
  rest <- sub (PInt 100) ratio ;;
  label <- format1 ratio ;;
  font_color <- validate_coerce color ;;
  Ok {| data :=
          [ {| values := [ratio; rest];
               hole := lit 7 10;
               marker_colors := [color; u "#ecf0f1"];
               textinfo := u "none" |} ];
        showlegend := false;
        margin := {| margin_l := 0; margin_r := 0; margin_t := 0; margin_b := 0 |};
        annotations :=
          [ {| text := label ++ u "%";
               ann_x := lit 5 10;
               ann_y := lit 5 10;
               font := {| font_size := 26; font_color := font_color |};
               showarrow := false |} ] |}.

(** The dict literal of background colours in [main], as its items. *)
Definition risk_bg_table : list (str * str) :=
  [ (u "안전 영역", u "#E8F8F2");
    (u "주의 영역", u "#FFF4D6");
    (u "위험 영역", u "#FFE6E6");
    (u "정보 없음", u "#F0F0F0") ].

(** The background colour [main] looks up for the label it displays. *)
Definition risk_bg (risk : str) : str :=
  dict_get risk_bg_table risk (u "#F0F0F0").

Definition APP_TITLE : str := u "전세가아드".

Definition nl : str := [10%N].
Definition dq : str := [34%N].

(** The emphasis box of [main], an f-string with three fields. *)
Definition risk_box (risk_bg color risk : str) : str :=
  nl ++ u "                <div style=" ++ dq ++ nl
  ++ u "                    padding:16px;" ++ nl
  ++ u "                    border-radius:10px;" ++ nl
  ++ u "                    background-color:" ++ risk_bg ++ u ";" ++ nl
  ++ u "                    border-left:6px solid " ++ color ++ u ";" ++ nl
  ++ u "                    margin-top:10px;" ++ nl
  ++ u "                " ++ dq ++ u ">" ++ nl
  ++ u "                    <span style=" ++ dq
  ++ u "font-size:18px; font-weight:600; color:" ++ color ++ u ";" ++ dq
  ++ u ">" ++ nl
  ++ u "                        현재 상태: " ++ risk ++ nl
  ++ u "                    </span>" ++ nl
  ++ u "                </div>" ++ nl
  ++ u "                ".

(** The block under [if st.button("네이버 부동산 검색 열기")]. *)
Definition search_block (addr : str) : ui unit :=
  url <~ lift (build_naver_search_url (Some addr)) ;;
  match url with
  | Some url =>
      emit (success (u "아래 링크를 눌러 네이버 부동산에서 시세를 확인하세요.")) ;;;
      emit (markdown (u "[네이버 부동산에서 보기](" ++ url ++ u ")") false)
  | None =>
      emit (warning (u "주소 또는 단지명을 입력해주세요."))
  end.

(** The block under [if st.button("전세가율 계산하기")]. *)
Definition calc_block (sale_price jeonse_deposit : Z) : ui unit :=
  ratio <~ lift (calc_jeonse_ratio (PInt jeonse_deposit) (PInt sale_price)) ;;
  let '(risk, color) := get_risk_level ratio in
  emit (markdown (u "### 2. 결과 요약") false) ;;;
  match ratio with
  | None =>
      emit (warning (u "매매가를 0보다 큰 값으로 입력해주세요."))
  | Some r =>
      emit (columns 3) ;;;
      emit (metric 1 (u "전세가율") (str_num r ++ u "%")) ;;;
      emit (metric 2 (u "매매가") (format_thousands sale_price)) ;;;
      emit (metric 3 (u "전세보증금") (format_thousands jeonse_deposit)) ;;;
      emit (markdown (risk_box (risk_bg risk) color risk) true) ;;;
      emit (markdown (u "### 3. 그래프") false) ;;;
      fig <~ lift (make_donut_chart ratio color) ;;
      emit (plotly_chart fig true)
  end.

Definition main (w : widgets) : ui unit :=
  emit (set_page_config APP_TITLE (u "🏠") (u "centered")) ;;;
  emit (title (u "🏠 전세가아드")) ;;;
  emit (caption (u "매매가·전세보증금으로 전세가율과 위험도를 확인하는 간단 계산기")) ;;;
  emit (markdown (u "### 0. 주소로 네이버 부동산 검색") false) ;;;
  emit (text_input (u "아파트 주소 또는 단지명")) ;;;
  let addr := addr_text w in
  emit (button (u "네이버 부동산 검색 열기")) ;;;
  (if search_pressed w then search_block addr else ret tt) ;;;
  emit (markdown (u "---") false) ;;;
  emit (markdown (u "### 1. 매매가 / 전세보증금 입력") false) ;;;
  emit (number_input (u "매매가") 0 100) ;;;
  let sale_price := sale_price_value w in
  emit (markdown (u "➡ **" ++ format_thousands sale_price ++ u "**") false) ;;;
  emit (number_input (u "전세보증금") 0 100) ;;;
  let jeonse_deposit := jeonse_deposit_value w in
  emit (markdown (u "➡ **" ++ format_thousands jeonse_deposit ++ u "**") false) ;;;
  emit (button (u "전세가율 계산하기")) ;;;
  (if calc_pressed w then calc_block sale_price jeonse_deposit else ret tt).

(** The four (label, colour) pairs of [get_risk_level], under the names
    the specification gives them. *)
Definition risk_unknown : str * str := (u "정보 없음", u "#7f8c8d").
Definition risk_safe : str * str := (u "안전 영역", u "#2ecc71").
Definition risk_caution : str * str := (u "주의 영역", u "#f1c40f").
Definition risk_danger : str * str := (u "위험 영역", u "#e74c3c").

End App.

(** ** Notions used to state the properties *)

Module Spec.

Import PyFloat PyStr PyNum Plotly App.

(** The expression [round(d / p * 100, 1)] on its own. *)
Definition ratio_formula (d p : num) : result num :=
  q <- truediv d p ;;
  x <- mul q (PInt 100) ;;
  Ok (round1 x).

(** The fixed prefix of the search address. *)
Definition template : str := u "https://new.land.naver.com/search?sk=".

(** The ring described for the chart: two segments [first] and [second],
    the first in [color] and the second in light gray, a hole of 0.7, no
    slice labels, no legend, and [label] followed by a percent sign in the
    centre, in [color]. *)
Definition ring (first second : num) (label color : str) : Figure :=
  {| data :=
       [ {| values := [first; second];
            hole := lit 7 10;
            marker_colors := [color; u "#ecf0f1"];
            textinfo := u "none" |} ];
     showlegend := false;
     margin := {| margin_l := 0; margin_r := 0; margin_t := 0; margin_b := 0 |};
     annotations :=
       [ {| text := label ++ u "%";
            ann_x := lit 5 10;
            ann_y := lit 5 10;
            font := {| font_size := 26; font_color := color |};
            showarrow := false |} ] |}.

(** The ratio a chart is drawn for: 0 in place of [None]. *)
Definition or_zero (ratio : option num) : num :=
  match ratio with
  | None => PInt 0
  | Some r => r
  end.

(** [100 - r]: exact on an [int], the rounded difference on a [float]. *)
Definition complement (r : num) : num :=
  match r with
  | PInt z => PInt (100 - z)
  | PFloat f => PFloat (PyFloat.sub (of_Z 100) f)
  end.

(** The segment values of a chart. *)
Definition segments (fig : Figure) : list num :=
  flat_map values (data fig).

(** [sum(values)]: addition from the left, starting at the integer 0. *)
Definition total (vs : list num) : result num :=
  fold_left (fun acc v => a <- acc ;; add a v) vs (Ok (PInt 0)).

(** [sum(values) == 100]: the sum Python computes equals 100. *)
Definition sums_to_100 (vs : list num) : bool :=
  match total vs with
  | Ok t => PyNum.eq t (PInt 100)
  | Raise _ => false
  end.

(** A float that is not above zero: a negative number, a zero of either
    sign, or minus infinity. *)
Definition nonpos (f : float) : bool :=
  match f with
  | S754_zero _ => true
  | S754_infinity s => s
  | S754_nan => false
  | S754_finite s _ _ => s
  end.

(** A number with a finite value. *)
Definition finite (x : num) : bool :=
  match x with
  | PInt _ => true
  | PFloat f => is_finite f
  end.

(** A float that carries the sign [s]: a zero, a finite number or an
    infinity of that sign, and not a nan. *)
Definition sign_is (s : bool) (f : float) : bool :=
  match f with
  | S754_zero t | S754_infinity t | S754_finite t _ _ => Bool.eqb t s
  | S754_nan => false
  end.

(** A number within the range of the floats: any float, or an integer
    below [2^1023] in magnitude, which converts to a float. *)
Definition in_float_range (x : num) : bool :=
  match x with
  | PInt z => Z.abs z <? 2 ^ 1023
  | PFloat _ => true
  end.

(** A float that is not below zero: a zero of either sign, a positive
    number or plus infinity, and not a nan. *)
Definition nonneg (f : float) : bool := is_zero f || sign_is false f.

(** A character that may stand in the query of the address: a letter, a
    digit, one of [_.-~/], or the percent sign of an escape. *)
Definition url_char (c : N) : bool := always_safe c || (c =? 37)%N.

(** A number Python can hold: any [int], and a float in the canonical
    form of binary64, as every float of the interpreter is. *)
Definition valid (x : num) : bool :=
  match x with
  | PInt _ => true
  | PFloat f => valid_binary prec emax f
  end.

(** A call that shows a result of the calculation. *)
Definition is_result (c : Streamlit.call) : bool :=
  match c with
  | Streamlit.columns _ | Streamlit.metric _ _ _ | Streamlit.plotly_chart _ _ => true
  | _ => false
  end.

(** A call that shows a notice: a success or a warning. *)
Definition is_notice (c : Streamlit.call) : bool :=
  match c with
  | Streamlit.success _ | Streamlit.warning _ => true
  | _ => false
  end.

(** The two warnings of [main]. *)
Definition price_warning : Streamlit.call :=
  Streamlit.warning (u "매매가를 0보다 큰 값으로 입력해주세요.").

Definition address_warning : Streamlit.call :=
  Streamlit.warning (u "주소 또는 단지명을 입력해주세요.").

(** The value of a finite number in units of [2^-1074], the spacing of
    the smallest floats: an integer for every [int] and for every float of
    binary64, whose exponents are at least [-1074]. *)
Definition units (x : num) : option Z :=
  match x with
  | PInt z => Some (z * 2 ^ 1074)
  | PFloat (S754_zero _) => Some 0
  | PFloat (S754_finite s m e) => Some (cond_Zopp s (Zpos m) * 2 ^ (e + 1074))
  | PFloat _ => None
  end.

(** The sum of the values as numbers, with no rounding, in those units. *)
Fixpoint exact_total (vs : list num) : option Z :=
  match vs with
  | [] => Some 0
  | v :: t =>
      match units v, exact_total t with
      | Some a, Some b => Some (a + b)
      | _, _ => None
      end
  end.

(** The one-decimal percentages from 0.0 to 100.0. *)
Definition tenth (n : nat) : float :=
  match n with
  | O => pos_zero
  | S _ => lit (Pos.of_nat n) 10
  end.

End Spec.

(** * Properties *)

(** ** Comparisons *)

Module PyNumFacts.

Import PyFloat PyStr PyNum.

Lemma SFcompare_antisym (a b : float) :
  SFcompare b a = option_map CompOpp (SFcompare a b).
Proof.
  destruct a as [sa|sa| |sa ma ea], b as [sb|sb| |sb mb eb]; simpl;
    try reflexivity;
    try (destruct sa; reflexivity);
    try (destruct sb; reflexivity);
    try (destruct sa, sb; reflexivity).
  destruct sa, sb; simpl; try reflexivity;
    rewrite (Z.compare_antisym ea eb);
    destruct (ea ?= eb); simpl; try reflexivity;
    rewrite (Pos.compare_cont_antisym ma mb Eq); reflexivity.
Qed.

Lemma compare_antisym (x y : num) :
  compare y x = option_map CompOpp (compare x y).
Proof.
  destruct x as [a|a], y as [b|b]; simpl.
  - now rewrite (Z.compare_antisym a b).
  - reflexivity.
  - destruct (compare_Z_float b a) as [[]|]; reflexivity.
  - apply SFcompare_antisym.
Qed.

(** [x <= y] excludes [y < x]. *)
Lemma le_not_lt (x y : num) : le x y = true -> lt y x = false.
Proof.
  unfold le, lt. rewrite (compare_antisym x y).
  destruct (compare x y) as [[]|]; simpl; congruence.
Qed.

(** [x < y] excludes [y <= x]. *)
Lemma lt_not_le (x y : num) : lt x y = true -> le y x = false.
Proof.
  unfold le, lt. rewrite (compare_antisym x y).
  destruct (compare x y) as [[]|]; simpl; congruence.
Qed.

Lemma compare_Z_float_mono (a b : Z) (f : float) (c : comparison) :
  a < b -> compare_Z_float b f = Some c -> c <> Gt ->
  compare_Z_float a f = Some Lt.
Proof.
  intros Hab Hb Hc.
  destruct f as [s|s| |s m e]; cbn [compare_Z_float] in *.
  - injection Hb as <-. f_equal.
    apply -> Z.compare_le_iff in Hc. apply <- Z.compare_lt_iff. lia.
  - destruct s; congruence.
  - discriminate.
  - injection Hb as <-. f_equal.
    destruct e as [|k|k];
      apply -> Z.compare_le_iff in Hc; apply <- Z.compare_lt_iff; try lia.
    assert (Hp : 0 < 2 ^ Z.pos k) by (apply Z.pow_pos_nonneg; lia).
    nia.
Qed.

(** Below an integer bound [a] there is no value that is at least a
    larger integer bound [b]. *)
Lemma le_const_not_lt (a b : Z) (r : num) :
  a < b -> le (PInt b) r = true -> lt r (PInt a) = false.
Proof.
  intros Hab Hle. destruct r as [z|f]; unfold le, lt in *; simpl in *.
  - destruct (Z.compare_spec b z); try discriminate;
      destruct (Z.compare_spec z a); try reflexivity; lia.
  - destruct (compare_Z_float b f) as [c|] eqn:Hb; try discriminate.
    rewrite (compare_Z_float_mono a b f c Hab Hb).
    + reflexivity.
    + intros ->. discriminate.
Qed.

End PyNumFacts.

(** ** Trimming *)

Module PyStrFacts.

Import PyFloat PyStr PyNum.

Lemma lstrip_split (s : str) :
  exists l, s = l ++ lstrip s /\ forallb isspace l = true.
Proof.
  induction s as [|c t IH]; simpl.
  - exists []. split; reflexivity.
  - destruct (isspace c) eqn:Hc.
    + destruct IH as [l [Hs Hl]]. exists (c :: l). simpl. rewrite Hc, Hl.
      split; [f_equal; exact Hs | reflexivity].
    + exists []. split; reflexivity.
Qed.

Lemma lstrip_head (s : str) (c : N) (t : str) :
  lstrip s = c :: t -> isspace c = false.
Proof.
  induction s as [|d s IH]; simpl; intros H.
  - discriminate.
  - destruct (isspace d) eqn:Hd.
    + apply IH, H.
    + injection H as <- _. exact Hd.
Qed.

Lemma lstrip_fixed (c : N) (t : str) :
  isspace c = false -> lstrip (c :: t) = c :: t.
Proof. intros H. simpl. now rewrite H. Qed.

Lemma lstrip_idem (s : str) : lstrip (lstrip s) = lstrip s.
Proof.
  destruct (lstrip s) as [|c t] eqn:H.
  - reflexivity.
  - apply lstrip_fixed. exact (lstrip_head s c t H).
Qed.

Lemma lstrip_blank (s : str) : forallb isspace s = true -> lstrip s = [].
Proof.
  induction s as [|c t IH]; simpl; intros H.
  - reflexivity.
  - apply andb_prop in H. destruct H as [Hc Ht]. rewrite Hc. apply IH, Ht.
Qed.

(** A string that ends in a non-space character keeps it under [lstrip]. *)
Lemma lstrip_keeps_last (l : str) (c : N) :
  isspace c = false -> exists l', lstrip (l ++ [c]) = l' ++ [c].
Proof.
  intros Hc. induction l as [|d l IH]; simpl.
  - rewrite Hc. exists []. reflexivity.
  - destruct (isspace d).
    + exact IH.
    + exists (d :: l). reflexivity.
Qed.

Lemma rstrip_split (s : str) :
  exists r, s = rstrip s ++ r /\ forallb isspace r = true.
Proof.
  unfold rstrip. destruct (lstrip_split (rev s)) as [l [Hs Hl]].
  exists (rev l). split.
  - rewrite <- rev_app_distr, <- Hs. symmetry. apply rev_involutive.
  - rewrite forallb_forall in *. intros x Hx. apply Hl, in_rev, Hx.
Qed.

Lemma rstrip_idem (s : str) : rstrip (rstrip s) = rstrip s.
Proof. unfold rstrip. now rewrite rev_involutive, lstrip_idem. Qed.

(** [rstrip] does not touch a leading non-space character. *)
Lemma rstrip_keeps_head (c : N) (t : str) :
  isspace c = false -> exists t', rstrip (c :: t) = c :: t'.
Proof.
  intros Hc. unfold rstrip. simpl rev.
  destruct (lstrip_keeps_last (rev t) c Hc) as [l' ->].
  rewrite rev_app_distr. simpl. exists (rev l'). reflexivity.
Qed.

(** The trimmed string is the input without a run of whitespace at each
    end. *)
Lemma strip_split (s : str) :
  exists l r, s = l ++ strip s ++ r /\
              forallb isspace l = true /\ forallb isspace r = true.
Proof.
  destruct (lstrip_split s) as [l [Hs Hl]].
  destruct (rstrip_split (lstrip s)) as [r [Hr Hsp]].
  exists l, r. unfold strip. rewrite <- Hr. auto.
Qed.

Lemma strip_idem (s : str) : strip (strip s) = strip s.
Proof.
  unfold strip at 1.
  assert (H : lstrip (strip s) = strip s).
  { unfold strip. destruct (lstrip s) as [|c t] eqn:Hl.
    - reflexivity.
    - pose proof (lstrip_head s c t Hl) as Hc.
      destruct (rstrip_keeps_head c t Hc) as [t' ->].
      apply lstrip_fixed, Hc. }
  rewrite H. unfold strip. apply rstrip_idem.
Qed.

Lemma strip_blank (s : str) : forallb isspace s = true -> strip s = [].
Proof. intros H. unfold strip. rewrite (lstrip_blank s H). reflexivity. Qed.

(** Neither end of a trimmed string is whitespace. *)
Lemma strip_head (s : str) (c : N) (t : str) :
  strip s = c :: t -> isspace c = false.
Proof.
  intros H. rewrite <- strip_idem in H. unfold strip at 1 in H.
  destruct (lstrip (strip s)) as [|d t'] eqn:Hl.
  - discriminate.
  - pose proof (lstrip_head _ _ _ Hl) as Hd.
    destruct (rstrip_keeps_head d t' Hd) as [t'' Ht]. rewrite Ht in H.
    injection H as <- _. exact Hd.
Qed.

Lemma strip_last (s l : str) (c : N) :
  strip s = l ++ [c] -> isspace c = false.
Proof.
  intros H. unfold strip, rstrip in H.
  apply (f_equal (@rev N)) in H. rewrite rev_involutive, rev_app_distr in H.
  simpl in H. exact (lstrip_head _ _ _ H).
Qed.

End PyStrFacts.

(** ** The risk classifier *)

Module RiskLevel.

Import PyFloat PyStr PyNum App Spec PyNumFacts.

(** C1. [get_risk_level] classifies every number with strict [<] tests at
    60 and 80: a ratio below 60 is in the safe band, a ratio from 60
    (included) to 80 (excluded) in the caution band, a ratio of 80 or more,
    with no upper limit, in the danger band; so 59.9 is safe, 60.0 and 79.9
    are caution, 80.0 and 150.0 are danger; [None] gives the unknown label
    with the gray colour. *)
Theorem get_risk_level_bands :
  (forall r : num,
      (lt r (PInt 60) = true -> get_risk_level (Some r) = risk_safe) /\
      (le (PInt 60) r = true -> lt r (PInt 80) = true ->
       get_risk_level (Some r) = risk_caution) /\
      (ge r (PInt 80) = true -> get_risk_level (Some r) = risk_danger)) /\
  get_risk_level (Some (PFloat (lit 599 10))) = risk_safe /\
  get_risk_level (Some (PFloat (lit 600 10))) = risk_caution /\
  get_risk_level (Some (PFloat (lit 799 10))) = risk_caution /\
  get_risk_level (Some (PFloat (lit 800 10))) = risk_danger /\
  get_risk_level (Some (PFloat (lit 1500 10))) = risk_danger /\
  get_risk_level None = (u "정보 없음", u "#7f8c8d").
Proof.
  split; [| repeat split; vm_compute; reflexivity ].
  intros r. unfold get_risk_level, risk_safe, risk_caution, risk_danger, ge.
  repeat split.
  - intros ->. reflexivity.
  - intros H60 H80. rewrite (le_not_lt _ _ H60), H80. reflexivity.
  - intros H80.
    rewrite (le_const_not_lt 60 80 r) by (lia || exact H80).
    rewrite (le_not_lt _ _ H80). reflexivity.
Qed.

Lemma get_risk_level_bands_witness :
  le (PInt 60) (PFloat (lit 600 10)) = true /\
  lt (PFloat (lit 600 10)) (PInt 80) = true /\
  get_risk_level (Some (PFloat (lit 600 10))) = risk_caution.
Proof.
  split; [vm_compute; reflexivity |].
  split; [vm_compute; reflexivity |].
  apply (proj1 (proj2 (proj1 get_risk_level_bands (PFloat (lit 600 10)))));
    vm_compute; reflexivity.
Defined.

(** C8. [get_risk_level] is a total function of [None] or any number, and
    its result is always one of four fixed (label, colour) pairs. *)
Theorem get_risk_level_range (ratio : option num) :
  In (get_risk_level ratio)
     [ (u "정보 없음", u "#7f8c8d"); (u "안전 영역", u "#2ecc71");
       (u "주의 영역", u "#f1c40f"); (u "위험 영역", u "#e74c3c") ].
Proof.
  destruct ratio as [r|]; unfold get_risk_level.
  - destruct (lt r (PInt 60)); [right; left; reflexivity |].
    destruct (lt r (PInt 80)); [right; right; left; reflexivity |].
    right; right; right; left; reflexivity.
  - left; reflexivity.
Qed.

End RiskLevel.

(** ** The ratio calculator *)

Module Ratio.

Import PyFloat PyStr PyNum App Spec PyNumFacts.

(** Past the guard the calculator is the formula. *)
Lemma calc_formula (d p : num) :
  le p (PInt 0) = false ->
  calc_jeonse_ratio d p = (r <- ratio_formula d p ;; Ok (Some r)).
Proof.
  intros H. unfold calc_jeonse_ratio, ratio_formula. rewrite H.
  destruct (truediv d p) as [q|e]; simpl; [| reflexivity].
  destruct (mul q (PInt 100)); reflexivity.
Qed.

(** C3. [calc_jeonse_ratio] returns [None], without raising, for every
    deposit when the price is at most zero, and in no other case. *)
Theorem calc_jeonse_ratio_none (d p : num) :
  (le p (PInt 0) = true -> calc_jeonse_ratio d p = Ok None) /\
  (calc_jeonse_ratio d p = Ok None -> le p (PInt 0) = true).
Proof.
  split.
  - intros H. unfold calc_jeonse_ratio. rewrite H. reflexivity.
  - destruct (le p (PInt 0)) eqn:H; [reflexivity |].
    rewrite (calc_formula d p H).
    destruct (ratio_formula d p); simpl; discriminate.
Qed.

Lemma calc_jeonse_ratio_none_witness :
  le (PInt 0) (PInt 0) = true /\
  calc_jeonse_ratio (PInt 5000) (PInt 0) = Ok None.
Proof.
  split; [reflexivity |].
  apply (proj1 (calc_jeonse_ratio_none (PInt 5000) (PInt 0))). reflexivity.
Defined.

End Ratio.

(** ** The whole calculation *)

Module EndToEnd.

Import PyFloat PyStr PyNum Plotly App Spec.

(** C4. A deposit of 8000 against a price of 10000 gives the ratio 80.0,
    which is in the danger band, and the chart built from that ratio and
    the band's colour has the segments 80.0 and 20.0 and the centre text
    "80.0%". *)
Theorem end_to_end_8000_10000 :
  exists (ratio : num) (fig : Figure) (pie : Pie) (ann : Annotation),
    calc_jeonse_ratio (PInt 8000) (PInt 10000) = Ok (Some ratio) /\
    ratio = PFloat (lit 800 10) /\
    get_risk_level (Some ratio) = risk_danger /\
    make_donut_chart (Some ratio) (snd (get_risk_level (Some ratio))) = Ok fig /\
    data fig = [pie] /\
    values pie = [PFloat (lit 800 10); PFloat (lit 200 10)] /\
    annotations fig = [ann] /\
    text ann = u "80.0%".
Proof.
  eexists; eexists; eexists; eexists.
  repeat split; vm_compute; reflexivity.
Qed.

End EndToEnd.

(** ** The search address *)

Module SearchUrl.

Import PyFloat PyStr PyNum App Spec PyStrFacts.

Lemma build_after_strip (s : str) :
  build_naver_search_url (Some s) = build_naver_search_url (Some (strip s)).
Proof.
  unfold build_naver_search_url. simpl or_empty. now rewrite strip_idem.
Qed.

(** C7. [build_naver_search_url] works on the trimmed input: the result
    depends on the input through [strip] alone, which removes a run of
    whitespace at each end and leaves none there; for every input whose
    trimmed form is empty it returns [None] and does not raise: for the
    missing input, the empty string and every string of whitespace. *)
Theorem build_naver_search_url_blank :
  (forall s : str,
      build_naver_search_url (Some s) = build_naver_search_url (Some (strip s)) /\
      exists l r, s = l ++ strip s ++ r /\
                  forallb isspace l = true /\ forallb isspace r = true) /\
  (forall (s : str) (c : N) (t : str),
      (strip s = c :: t -> isspace c = false) /\
      (strip s = t ++ [c] -> isspace c = false)) /\
  (forall a : option str,
      strip (or_empty a) = [] -> build_naver_search_url a = Ok None) /\
  (forall s : str,
      forallb isspace s = true -> build_naver_search_url (Some s) = Ok None) /\
  build_naver_search_url None = Ok None /\
  build_naver_search_url (Some (u "")) = Ok None /\
  build_naver_search_url (Some (u "   ")) = Ok None.
Proof.
  split; [| split; [| split; [| split; [| repeat split ]]]].
  - intros s. split; [apply build_after_strip | apply strip_split].
  - intros s c t. split; [apply strip_head | apply strip_last].
  - intros a H. unfold build_naver_search_url. now rewrite H.
  - intros s H. unfold build_naver_search_url. simpl or_empty.
    now rewrite (strip_blank s H).
Qed.

Lemma build_naver_search_url_blank_witness :
  forallb isspace [32; 9; 12288]%N = true /\
  build_naver_search_url (Some [32; 9; 12288]%N) = Ok None.
Proof.
  split; [reflexivity |].
  apply (proj1 (proj2 (proj2 (proj2 build_naver_search_url_blank)))).
  reflexivity.
Defined.

End SearchUrl.

(** ** Rounding to binary64 *)

Module RoundFacts.

Import PyFloat PyNum Spec.

Lemma fexp_eq (x : Z) : fexp prec emax x = Z.max (x - 53) (-1074).
Proof. reflexivity. Qed.

(** A positive number of [d] binary digits lies in [[2^(d-1), 2^d)]. *)
Lemma digits2_pos_bounds (m : positive) :
  2 ^ (Zpos (digits2_pos m) - 1) <= Zpos m < 2 ^ Zpos (digits2_pos m).
Proof.
  induction m as [m IH|m IH|]; simpl digits2_pos.
  - rewrite Pos2Z.inj_succ, (Pos2Z.inj_xI m).
    replace (Z.succ (Zpos (digits2_pos m)) - 1) with (Z.succ (Zpos (digits2_pos m) - 1)) by lia.
    rewrite !Z.pow_succ_r by lia. lia.
  - rewrite Pos2Z.inj_succ, (Pos2Z.inj_xO m).
    replace (Z.succ (Zpos (digits2_pos m)) - 1) with (Z.succ (Zpos (digits2_pos m) - 1)) by lia.
    rewrite !Z.pow_succ_r by lia. lia.
  - simpl. lia.
Qed.

Lemma Zdigits2_nonneg (m : Z) : 0 <= Zdigits2 m.
Proof. destruct m; simpl; lia. Qed.

Lemma Zdigits2_bounds (m : Z) :
  0 < m -> 2 ^ (Zdigits2 m - 1) <= m < 2 ^ Zdigits2 m.
Proof.
  destruct m as [|p|p]; try lia. intros _. apply digits2_pos_bounds.
Qed.

Lemma Zdigits2_pos (m : Z) : 0 < m -> 0 < Zdigits2 m.
Proof. destruct m; simpl; lia. Qed.

(** Fewer than [2^j] means at most [j] digits. *)
Lemma Zdigits2_le_of_lt (m j : Z) : 0 <= m -> 0 <= j -> m < 2 ^ j -> Zdigits2 m <= j.
Proof.
  intros Hm Hj Hlt.
  destruct (Z.eq_dec m 0) as [->|Hne]; [simpl; lia |].
  destruct (Zdigits2_bounds m) as [Hlo _]; [lia |].
  destruct (Z_le_gt_dec (Zdigits2 m) j) as [|Hgt]; [assumption |].
  assert (2 ^ j <= 2 ^ (Zdigits2 m - 1)) by (apply Z.pow_le_mono_r; lia).
  lia.
Qed.

(** ** Shifting right *)

Lemma shr_1_m (mrs : shr_record) :
  0 <= shr_m mrs -> shr_m (shr_1 mrs) = shr_m mrs / 2.
Proof.
  destruct mrs as [m r s]. simpl shr_m. intros Hm.
  rewrite <- Z.div2_div.
  destruct m as [|[p|p|]|p]; try reflexivity; lia.
Qed.

Lemma iter_shr_1_m (p : positive) (mrs : shr_record) :
  0 <= shr_m mrs ->
  shr_m (iter_pos shr_1 p mrs) = shr_m mrs / 2 ^ Zpos p.
Proof.
  revert mrs. induction p as [p IH|p IH|]; intros mrs Hm; simpl iter_pos.
  - assert (H1 : 0 <= shr_m (shr_1 mrs)).
    { rewrite shr_1_m by assumption. apply Z.div_pos; lia. }
    assert (H2 : 0 <= shr_m (iter_pos shr_1 p (shr_1 mrs))).
    { rewrite IH by assumption. apply Z.div_pos; [assumption |].
      apply Z.pow_pos_nonneg; lia. }
    rewrite IH, IH, shr_1_m by assumption.
    assert (Hp : 0 < 2 ^ Zpos p) by (apply Z.pow_pos_nonneg; lia).
    rewrite !Z.div_div by lia. f_equal.
    rewrite (Pos2Z.inj_xI p).
    replace (2 * Zpos p + 1) with (1 + Zpos p + Zpos p) by lia.
    rewrite !Z.pow_add_r by lia. simpl (2 ^ 1). lia.
  - assert (H2 : 0 <= shr_m (iter_pos shr_1 p mrs)).
    { rewrite IH by assumption. apply Z.div_pos; [assumption |].
      apply Z.pow_pos_nonneg; lia. }
    rewrite IH, IH by assumption.
    assert (Hp : 0 < 2 ^ Zpos p) by (apply Z.pow_pos_nonneg; lia).
    rewrite !Z.div_div by lia. f_equal.
    rewrite (Pos2Z.inj_xO p).
    replace (2 * Zpos p) with (Zpos p + Zpos p) by lia.
    rewrite !Z.pow_add_r by lia. reflexivity.
  - rewrite shr_1_m by assumption. reflexivity.
Qed.

Lemma shr_record_of_loc_m (m : Z) (l : location) :
  shr_m (shr_record_of_loc m l) = m.
Proof. destruct l as [|[]]; reflexivity. Qed.

(** [shr_fexp] moves the exponent up to the canonical one and divides the
    mantissa accordingly. *)
Lemma shr_fexp_spec (mx ex : Z) (lx : location) :
  0 <= mx ->
  let e' := Z.max ex (fexp prec emax (Zdigits2 mx + ex)) in
  snd (shr_fexp prec emax mx ex lx) = e' /\
  shr_m (fst (shr_fexp prec emax mx ex lx)) = mx / 2 ^ (e' - ex).
Proof.
  intros Hm e'. unfold shr_fexp, shr. subst e'.
  destruct (fexp prec emax (Zdigits2 mx + ex) - ex) as [|p|p] eqn:Hn;
    cbn [fst snd].
  - replace (Z.max ex (fexp prec emax (Zdigits2 mx + ex))) with ex by lia.
    rewrite shr_record_of_loc_m, Z.sub_diag. simpl. rewrite Z.div_1_r. auto.
  - replace (Z.max ex (fexp prec emax (Zdigits2 mx + ex))) with (ex + Zpos p) by lia.
    rewrite iter_shr_1_m by (rewrite shr_record_of_loc_m; assumption).
    rewrite shr_record_of_loc_m.
    replace (ex + Zpos p - ex) with (Zpos p) by lia. auto.
  - replace (Z.max ex (fexp prec emax (Zdigits2 mx + ex))) with ex by lia.
    rewrite shr_record_of_loc_m, Z.sub_diag. simpl. rewrite Z.div_1_r. auto.
Qed.

Lemma round_nearest_even_bounds (m : Z) (l : location) :
  m <= round_nearest_even m l <= m + 1.
Proof.
  destruct l as [|[]]; simpl; try lia. destruct (Z.even m); lia.
Qed.


(** The outcome of [binary_round_aux] on a non-negative mantissa, through
    the intermediate mantissa [m1] and the two exponents. *)
Lemma binary_round_aux_shape (s : bool) (mx ex : Z) (lx : location) :
  0 <= mx ->
  exists m1 e1 e2,
    e1 = Z.max ex (fexp prec emax (Zdigits2 mx + ex)) /\
    mx / 2 ^ (e1 - ex) <= m1 <= mx / 2 ^ (e1 - ex) + 1 /\
    e2 = Z.max e1 (fexp prec emax (Zdigits2 m1 + e1)) /\
    binary_round_aux prec emax s mx ex lx =
      match m1 / 2 ^ (e2 - e1) with
      | Z0 => S754_zero s
      | Zpos m =>
          if e2 <=? emax - prec then S754_finite s m e2 else S754_infinity s
      | Zneg _ => S754_nan
      end.
Proof.
  intros Hm. unfold binary_round_aux.
  destruct (shr_fexp_spec mx ex lx Hm) as [He1 Hm1].
  destruct (shr_fexp prec emax mx ex lx) as [mrs1 e1]. cbn [fst snd] in He1, Hm1.
  rewrite <- He1 in Hm1.
  pose proof (round_nearest_even_bounds (shr_m mrs1) (loc_of_shr_record mrs1)) as Hr.
  set (m1 := round_nearest_even (shr_m mrs1) (loc_of_shr_record mrs1)) in *.
  assert (H0 : 0 <= mx / 2 ^ (e1 - ex)).
  { apply Z.div_pos; [assumption |]. apply Z.pow_pos_nonneg; lia. }
  assert (Hm1' : 0 <= m1) by lia.
  destruct (shr_fexp_spec m1 e1 loc_Exact Hm1') as [He2 Hm2].
  destruct (shr_fexp prec emax m1 e1 loc_Exact) as [mrs2 e2]. cbn [fst snd] in He2, Hm2.
  rewrite <- He2 in Hm2.
  exists m1, e1, e2. rewrite Hm2. repeat split; try lia; congruence.
Qed.

(** Rounding keeps the sign and never yields a nan. *)
Lemma binary_round_aux_sign (s : bool) (mx ex : Z) (lx : location) :
  0 <= mx -> sign_is s (binary_round_aux prec emax s mx ex lx) = true.
Proof.
  intros Hm.
  destruct (binary_round_aux_shape s mx ex lx Hm) as (m1 & e1 & e2 & He1 & Hm1 & He2 & ->).
  assert (H0 : 0 <= mx / 2 ^ (e1 - ex)).
  { apply Z.div_pos; [assumption |]. apply Z.pow_pos_nonneg; lia. }
  assert (H1 : 0 <= m1 / 2 ^ (e2 - e1)).
  { apply Z.div_pos; [lia |]. apply Z.pow_pos_nonneg; lia. }
  destruct (m1 / 2 ^ (e2 - e1)); try lia.
  - apply Bool.eqb_reflx.
  - destruct (e2 <=? emax - prec); apply Bool.eqb_reflx.
Qed.

(** A mantissa large enough not to underflow rounds to a non-zero. *)
Lemma shift_positive (m k : Z) :
  0 < m -> 0 <= k -> k <= Zdigits2 m - 1 -> 0 < m / 2 ^ k.
Proof.
  intros Hm Hk Hd. apply Z.div_str_pos. split.
  - apply Z.pow_pos_nonneg; lia.
  - destruct (Zdigits2_bounds m Hm) as [Hlo _].
    assert (2 ^ k <= 2 ^ (Zdigits2 m - 1)) by (apply Z.pow_le_mono_r; lia).
    lia.
Qed.

Lemma binary_round_aux_nonzero (s : bool) (mx ex : Z) (lx : location) :
  0 < mx -> -1074 < Zdigits2 mx + ex ->
  is_zero (binary_round_aux prec emax s mx ex lx) = false.
Proof.
  intros Hm HD.
  destruct (binary_round_aux_shape s mx ex lx) as (m1 & e1 & e2 & He1 & Hm1 & He2 & ->);
    [lia |].
  rewrite fexp_eq in He1, He2.
  pose proof (Zdigits2_pos mx Hm) as Hdx.
  assert (H0 : 0 < mx / 2 ^ (e1 - ex)) by (apply shift_positive; lia).
  assert (Hm1' : 0 < m1) by lia.
  pose proof (Zdigits2_pos m1 Hm1') as Hd1.
  assert (H1 : 0 < m1 / 2 ^ (e2 - e1)) by (apply shift_positive; lia).
  destruct (m1 / 2 ^ (e2 - e1)); try lia.
  destruct (e2 <=? emax - prec); reflexivity.
Qed.

(** A value below [2^1023] does not round to an infinity. *)
Lemma binary_round_aux_finite (s : bool) (mx ex : Z) (lx : location) :
  0 <= mx -> Zdigits2 mx + ex <= 1023 -> ex <= 971 ->
  is_finite (binary_round_aux prec emax s mx ex lx) = true.
Proof.
  intros Hm HD Hex.
  destruct (binary_round_aux_shape s mx ex lx Hm) as (m1 & e1 & e2 & He1 & Hm1 & He2 & ->).
  rewrite fexp_eq in He1, He2.
  pose proof (Zdigits2_nonneg mx) as Hdx.
  assert (Hk : 0 <= e1 - ex) by lia.
  assert (He1' : e1 <= 971) by lia.
  assert (Hp : 0 < 2 ^ (e1 - ex)) by (apply Z.pow_pos_nonneg; lia).
  assert (Hmx : mx < 2 ^ (1023 - ex)).
  { destruct (Z.eq_dec mx 0) as [->|Hne].
    - apply Z.pow_pos_nonneg; lia.
    - destruct (Zdigits2_bounds mx) as [_ Hhi]; [lia |].
      assert (2 ^ Zdigits2 mx <= 2 ^ (1023 - ex)) by (apply Z.pow_le_mono_r; lia).
      lia. }
  assert (Hq : mx / 2 ^ (e1 - ex) < 2 ^ (1023 - e1)).
  { apply Z.div_lt_upper_bound; [assumption |].
    rewrite <- Z.pow_add_r by lia.
    replace (e1 - ex + (1023 - e1)) with (1023 - ex) by lia. assumption. }
  assert (H0 : 0 <= mx / 2 ^ (e1 - ex)) by (apply Z.div_pos; lia).
  assert (Hd1 : Zdigits2 m1 <= 1024 - e1).
  { apply Zdigits2_le_of_lt; try lia.
    replace (1024 - e1) with (Z.succ (1023 - e1)) by lia.
    rewrite Z.pow_succ_r by lia. lia. }
  assert (He2' : e2 <= 971) by lia.
  assert (H1 : 0 <= m1 / 2 ^ (e2 - e1)).
  { apply Z.div_pos; [lia |]. apply Z.pow_pos_nonneg; lia. }
  destruct (m1 / 2 ^ (e2 - e1)); try lia; try reflexivity.
  replace (e2 <=? emax - prec) with true; [reflexivity |].
  symmetry. apply Z.leb_le. unfold emax, prec. lia.
Qed.

End RoundFacts.

(** ** Signs and ranges of the float operations *)

Module FloatFacts.

Import PyFloat PyNum Spec RoundFacts.

Lemma digits_iter_xO (m d : positive) :
  Zpos (digits2_pos (Pos.iter xO m d)) = Zpos (digits2_pos m) + Zpos d.
Proof.
  induction d as [|d IH] using Pos.peano_ind.
  - simpl. lia.
  - rewrite Pos.iter_succ. simpl digits2_pos. rewrite Pos2Z.inj_succ, IH. lia.
Qed.

(** The quotient and exponent handed to the rounding by a division of two
    positive integers. *)
Lemma nearest_core (n d : positive) :
  exists q e l,
    SFdiv_core_binary prec emax (Zpos n) 0 (Zpos d) 0 = (q, e, l) /\
    0 <= q /\ e <= 0 /\ Zdigits2 q + e <= Zpos (digits2_pos n).
Proof.
  unfold SFdiv_core_binary. cbn [Zdigits2].
  set (e' := Z.min _ _).
  assert (He : e' <= 0) by (subst e'; lia).
  set (m' := match 0 - 0 - e' with Z0 => Zpos n | Zpos _ => Z.shiftl (Zpos n) (0 - 0 - e') | Zneg _ => 0 end).
  assert (Hm : m' = Zpos n * 2 ^ (- e')).
  { subst m'. destruct (0 - 0 - e') as [|p|p] eqn:Hs.
    - replace (- e') with 0 by lia. simpl. lia.
    - rewrite Z.shiftl_mul_pow2 by lia. f_equal. f_equal. lia.
    - lia. }
  destruct (Z.div_eucl m' (Zpos d)) as [q r] eqn:Hqr.
  assert (Hq : q = m' / Zpos d) by (unfold Z.div; now rewrite Hqr).
  assert (Hp : 0 < 2 ^ (- e')) by (apply Z.pow_pos_nonneg; lia).
  assert (Hm0 : 0 <= m') by nia.
  exists q, e', (new_location (Zpos d) r). split; [reflexivity |].
  assert (Hq0 : 0 <= q) by (subst q; apply Z.div_pos; lia).
  assert (Hqm : q <= m').
  { subst q. apply Z.div_le_upper_bound; [lia | nia]. }
  repeat split; try assumption.
  destruct (digits2_pos_bounds n) as [_ Hn].
  assert (Zdigits2 q <= Zpos (digits2_pos n) + - e'); [| lia].
  apply Zdigits2_le_of_lt; try lia.
  rewrite Z.pow_add_r by lia. nia.
Qed.

Lemma nearest_sign (s : bool) (n d : positive) :
  sign_is s (nearest s n d) = true.
Proof.
  unfold nearest.
  destruct (nearest_core n d) as (q & e & l & -> & Hq & _).
  now apply binary_round_aux_sign.
Qed.

Lemma nearest_finite (s : bool) (n d : positive) :
  Zpos (digits2_pos n) <= 1023 -> is_finite (nearest s n d) = true.
Proof.
  intros Hn. unfold nearest.
  destruct (nearest_core n d) as (q & e & l & -> & Hq & He & Hd).
  apply binary_round_aux_finite; lia.
Qed.

Lemma shl_align_spec (m : positive) (e e' : Z) :
  exists mz ez,
    shl_align m e e' = (mz, ez) /\ ez <= e /\
    Zpos (digits2_pos mz) + ez = Zpos (digits2_pos m) + e.
Proof.
  unfold shl_align. destruct (e' - e) as [|p|p] eqn:H.
  - exists m, e. repeat split; lia.
  - exists m, e. repeat split; lia.
  - exists (Pos.iter xO m p), e'. rewrite digits_iter_xO. repeat split; lia.
Qed.

Lemma binary_round_sign (s : bool) (m : positive) (e : Z) :
  sign_is s (binary_round prec emax s m e) = true.
Proof.
  unfold binary_round.
  destruct (shl_align_spec m e (fexp prec emax (Zpos (digits2_pos m) + e)))
    as (mz & ez & -> & _).
  apply binary_round_aux_sign. lia.
Qed.

Lemma binary_round_nonzero (s : bool) (m : positive) (e : Z) :
  -1074 < Zpos (digits2_pos m) + e ->
  is_zero (binary_round prec emax s m e) = false.
Proof.
  intros H. unfold binary_round.
  destruct (shl_align_spec m e (fexp prec emax (Zpos (digits2_pos m) + e)))
    as (mz & ez & -> & _ & Hd).
  apply binary_round_aux_nonzero; simpl Zdigits2; lia.
Qed.

Lemma binary_round_finite (s : bool) (m : positive) (e : Z) :
  Zpos (digits2_pos m) + e <= 1023 -> e <= 971 ->
  is_finite (binary_round prec emax s m e) = true.
Proof.
  intros H He. unfold binary_round.
  destruct (shl_align_spec m e (fexp prec emax (Zpos (digits2_pos m) + e)))
    as (mz & ez & -> & Hez & Hd).
  apply binary_round_aux_finite; simpl Zdigits2; lia.
Qed.

(** [float(z)] has the sign of [z] and is zero for [z = 0] alone. *)
Lemma of_Z_sign (z : Z) : sign_is (z <? 0) (of_Z z) = true.
Proof.
  destruct z as [|m|m]; unfold of_Z, binary_normalize.
  - reflexivity.
  - apply binary_round_sign.
  - apply binary_round_sign.
Qed.

Lemma of_Z_nonzero (z : Z) : z <> 0 -> is_zero (of_Z z) = false.
Proof.
  destruct z as [|m|m]; unfold of_Z, binary_normalize; intros H.
  - congruence.
  - apply binary_round_nonzero. lia.
  - apply binary_round_nonzero. lia.
Qed.

Lemma of_Z_finite (z : Z) : Z.abs z < 2 ^ 1023 -> is_finite (of_Z z) = true.
Proof.
  destruct z as [|m|m]; unfold of_Z, binary_normalize; intros H.
  - reflexivity.
  - apply binary_round_finite; [| lia].
    pose proof (Zdigits2_le_of_lt (Zpos m) 1023). simpl Zdigits2 in *. lia.
  - apply binary_round_finite; [| lia].
    pose proof (Zdigits2_le_of_lt (Zpos m) 1023). simpl Zdigits2 in *.
    simpl Z.abs in H. lia.
Qed.

(** Multiplying by a positive finite float keeps the sign. *)
Lemma mul_pos_sign (s : bool) (x : float) (m : positive) (e : Z) :
  sign_is s x = true ->
  sign_is s (PyFloat.mul x (S754_finite false m e)) = true.
Proof.
  destruct x as [t|t| |t mx ex]; simpl; intros H; try discriminate.
  - now rewrite xorb_false_r.
  - now rewrite xorb_false_r.
  - rewrite xorb_false_r. apply Bool.eqb_prop in H. subst t.
    apply binary_round_aux_sign. lia.
Qed.

Lemma div_core_nonneg (m1 : positive) (e1 : Z) (m2 : positive) (e2 : Z) :
  0 <= fst (fst (SFdiv_core_binary prec emax (Zpos m1) e1 (Zpos m2) e2)).
Proof.
  unfold SFdiv_core_binary.
  set (s := _ - _ - _).
  set (m' := match s with Z0 => Zpos m1 | Zpos _ => Z.shiftl (Zpos m1) s | Zneg _ => 0 end).
  assert (Hm : 0 <= m').
  { subst m'. destruct s; try lia. apply Z.shiftl_nonneg. lia. }
  destruct (Z.div_eucl m' (Zpos m2)) as [q r] eqn:Hqr. cbn [fst].
  assert (Hq : q = m' / Zpos m2) by (unfold Z.div; now rewrite Hqr).
  subst q. apply Z.div_pos; lia.
Qed.

(** Dividing by a positive float keeps the sign, unless both operands
    are infinite. *)
Lemma div_pos_sign (s : bool) (x y : float) :
  sign_is s x = true -> sign_is false y = true -> is_zero y = false ->
  is_finite x || is_finite y = true ->
  sign_is s (PyFloat.div x y) = true.
Proof.
  destruct x as [t|t| |t mx ex], y as [v|v| |v my ey]; simpl;
    intros Hx Hy Hz Hf; try discriminate;
    apply Bool.eqb_prop in Hx; apply Bool.eqb_prop in Hy; subst t v;
    try (rewrite xorb_false_r; apply Bool.eqb_reflx).
  rewrite xorb_false_r.
  pose proof (div_core_nonneg mx ex my ey) as Hq.
  unfold PyFloat.div, SFdiv.
  destruct (SFdiv_core_binary prec emax (Zpos mx) ex (Zpos my) ey) as [[q e] l].
  apply binary_round_aux_sign. exact Hq.
Qed.

Lemma round1_sign (s : bool) (x : float) :
  sign_is s x = true -> sign_is s (PyFloat.round1 x) = true.
Proof.
  destruct x as [t|t| |t m e]; simpl; intros H; try assumption.
  apply Bool.eqb_prop in H. subst t.
  destruct (tenths m e); try apply Bool.eqb_reflx. apply nearest_sign.
Qed.

Lemma sign_true_nonpos (f : float) : sign_is true f = true -> nonpos f = true.
Proof.
  destruct f as [t|t| |t m e]; simpl; intros H; try reflexivity;
    try discriminate; apply Bool.eqb_prop in H; now subst t.
Qed.

(** A float that is not above zero is below every positive integer. *)
Lemma nonpos_lt_pos (f : float) (z : Z) :
  0 < z -> nonpos f = true -> lt (PFloat f) (PInt z) = true.
Proof.
  intros Hz Hf. unfold lt. cbn [compare].
  assert (H : compare_Z_float z f = Some Gt); [| now rewrite H].
  destruct f as [t|t| |t m e]; cbn [nonpos] in Hf; try discriminate; subst;
    cbn [compare_Z_float cond_Zopp Z.opp]; try reflexivity; f_equal.
  - apply <- Z.compare_gt_iff. lia.
  - destruct e as [|k|k]; apply <- Z.compare_gt_iff.
    + simpl. lia.
    + assert (Hp : 0 < 2 ^ Z.pos k) by (apply Z.pow_pos_nonneg; lia). nia.
    + assert (Hp : 0 < 2 ^ Z.pos k) by (apply Z.pow_pos_nonneg; lia). nia.
Qed.

(** The integer zero compared with a finite float gives the sign. *)
Lemma compare_zero_finite (s : bool) (m : positive) (e : Z) :
  compare_Z_float 0 (S754_finite s m e) = Some (if s then Gt else Lt).
Proof.
  cbn [compare_Z_float]. f_equal.
  assert (Hp : 0 < 2 ^ e \/ e < 0).
  { destruct (Z_lt_le_dec e 0); [now right | left; apply Z.pow_pos_nonneg; lia]. }
  destruct s; cbn [cond_Zopp Z.opp].
  - destruct e as [|k|k]; try reflexivity.
    apply <- Z.compare_gt_iff. destruct Hp; nia.
  - destruct e as [|k|k]; try reflexivity.
    apply <- Z.compare_lt_iff. destruct Hp; nia.
Qed.

(** A float above the integer zero is positive and not zero; one below it
    is negative and not zero. *)
Lemma pos_float (f : float) :
  lt (PInt 0) (PFloat f) = true -> sign_is false f = true /\ is_zero f = false.
Proof.
  unfold lt. cbn [compare].
  destruct f as [t|t| |t m e].
  - discriminate.
  - destruct t; [discriminate | auto].
  - discriminate.
  - rewrite compare_zero_finite. destruct t; [discriminate | auto].
Qed.

Lemma neg_float (f : float) :
  lt (PFloat f) (PInt 0) = true -> sign_is true f = true /\ is_zero f = false.
Proof.
  unfold lt. cbn [compare].
  destruct f as [t|t| |t m e].
  - discriminate.
  - destruct t; [auto | discriminate].
  - discriminate.
  - rewrite compare_zero_finite. destruct t; [auto | discriminate].
Qed.

End FloatFacts.

(** ** The ratio on positive prices *)

Module RatioFacts.

Import PyFloat PyStr PyNum App Spec PyNumFacts RoundFacts FloatFacts Ratio.

Lemma checked_cases (f : float) :
  checked f = Raise OverflowError \/ checked f = Ok f.
Proof. destruct f; simpl; auto. Qed.

Lemma checked_finite (f : float) : is_finite f = true -> checked f = Ok f.
Proof. destruct f; simpl; intros H; try reflexivity; discriminate. Qed.

(** What passes the overflow check and has a sign is finite. *)
Lemma checked_sign_finite (s : bool) (f g : float) :
  checked f = Ok g -> sign_is s f = true -> g = f /\ is_finite g = true.
Proof.
  destruct f; simpl; intros H Hs; try discriminate;
    injection H as <-; split; reflexivity.
Qed.

Lemma to_float_100 : to_float (PInt 100) = Ok (of_Z 100).
Proof. vm_compute. reflexivity. Qed.

Lemma hundred_finite : exists m e, of_Z 100 = S754_finite false m e.
Proof. eexists. eexists. vm_compute. reflexivity. Qed.

Lemma mul_100 (q : float) :
  PyNum.mul (PFloat q) (PInt 100) = Ok (PFloat (PyFloat.mul q (of_Z 100))).
Proof.
  unfold PyNum.mul. rewrite to_float_100. reflexivity.
Qed.

(** Once the division has a value, so has the formula. *)
Lemma formula_after_div (d p : num) (q : float) :
  truediv d p = Ok (PFloat q) ->
  ratio_formula d p = Ok (PFloat (PyFloat.round1 (PyFloat.mul q (of_Z 100)))).
Proof.
  intros H. unfold ratio_formula. rewrite H. cbn [bind].
  rewrite mul_100. reflexivity.
Qed.

Lemma calc_pos (d p : num) :
  lt (PInt 0) p = true ->
  calc_jeonse_ratio d p = (r <- ratio_formula d p ;; Ok (Some r)).
Proof. intros H. apply calc_formula, lt_not_le, H. Qed.

(** The true division by a positive price. *)
Lemma truediv_pos (d p : num) :
  lt (PInt 0) p = true ->
  (truediv d p = Raise OverflowError \/ exists q, truediv d p = Ok (PFloat q)) /\
  (in_float_range d = true -> in_float_range p = true ->
   exists q, truediv d p = Ok (PFloat q)) /\
  (forall q, truediv d p = Ok (PFloat q) ->
             lt d (PInt 0) = true -> finite d || finite p = true ->
             sign_is true q = true).
Proof.
  intros Hp. destruct d as [a|fd], p as [b|fp].
  - (* int / int *)
    assert (Hb : 0 < b).
    { unfold lt in Hp. cbn [compare] in Hp.
      destruct (Z.compare_spec 0 b); try discriminate. assumption. }
    destruct b as [|pb|pb]; try lia.
    unfold truediv.
    destruct a as [|pa|pa]; cbn [truediv_int Z.abs Z.to_pos Z.ltb Z.compare xorb].
    + repeat split.
      * right. eexists. reflexivity.
      * intros _ _. eexists. reflexivity.
      * intros q _ Hd. discriminate.
    + repeat split.
      * destruct (checked_cases (nearest false pa pb)) as [-> | ->];
          [left; reflexivity | right; eexists; reflexivity].
      * intros Hr _. cbn [in_float_range Z.abs] in Hr. apply Z.ltb_lt in Hr.
        rewrite checked_finite; [eexists; reflexivity |].
        apply nearest_finite.
        pose proof (Zdigits2_le_of_lt (Zpos pa) 1023). simpl Zdigits2 in *. lia.
      * intros q _ Hd. discriminate.
    + repeat split.
      * destruct (checked_cases (nearest true pa pb)) as [-> | ->];
          [left; reflexivity | right; eexists; reflexivity].
      * intros Hr _. cbn [in_float_range Z.abs] in Hr. apply Z.ltb_lt in Hr.
        rewrite checked_finite; [eexists; reflexivity |].
        apply nearest_finite.
        pose proof (Zdigits2_le_of_lt (Zpos pa) 1023). simpl Zdigits2 in *. lia.
      * intros q Hq _ _.
        destruct (checked (nearest true pa pb)) as [g|] eqn:Hc; try discriminate.
        cbn [bind] in Hq. injection Hq as <-.
        destruct (checked_sign_finite true _ _ Hc (nearest_sign true pa pb)) as [-> _].
        apply nearest_sign.
  - (* int / float *)
    destruct (pos_float fp Hp) as [Hs Hz].
    unfold truediv. cbn [to_float bind]. 
    repeat split.
    + destruct (checked_cases (of_Z a)) as [-> | ->]; cbn [bind];
        [left; reflexivity | rewrite Hz; right; eexists; reflexivity].
    + intros Hr _. cbn [in_float_range] in Hr. apply Z.ltb_lt in Hr.
      rewrite (checked_finite _ (of_Z_finite a Hr)). cbn [bind]. rewrite Hz.
      eexists; reflexivity.
    + intros q Hq Hd _.
      destruct (checked (of_Z a)) as [g|] eqn:Hc; try discriminate.
      cbn [bind] in Hq. rewrite Hz in Hq. injection Hq as <-.
      assert (Ha : a < 0).
      { unfold lt in Hd. cbn [compare] in Hd.
        destruct (Z.compare_spec a 0); try discriminate. assumption. }
      pose proof (of_Z_sign a) as Hsa.
      replace (a <? 0) with true in Hsa by (symmetry; apply Z.ltb_lt; lia).
      destruct (checked_sign_finite true _ _ Hc Hsa) as [-> Hf].
      apply div_pos_sign; try assumption. now rewrite Hf.
  - (* float / int *)
    assert (Hb : 0 < b).
    { unfold lt in Hp. cbn [compare] in Hp.
      destruct (Z.compare_spec 0 b); try discriminate. assumption. }
    pose proof (of_Z_sign b) as Hsb.
    replace (b <? 0) with false in Hsb by (symmetry; apply Z.ltb_ge; lia).
    assert (Hzb : is_zero (of_Z b) = false) by (apply of_Z_nonzero; lia).
    unfold truediv. cbn [to_float bind].
    repeat split.
    + destruct (checked_cases (of_Z b)) as [-> | ->]; cbn [bind];
        [left; reflexivity | rewrite Hzb; right; eexists; reflexivity].
    + intros _ Hr. cbn [in_float_range] in Hr. apply Z.ltb_lt in Hr.
      rewrite (checked_finite _ (of_Z_finite b Hr)). cbn [bind]. rewrite Hzb.
      eexists; reflexivity.
    + intros q Hq Hd _.
      destruct (checked (of_Z b)) as [g|] eqn:Hc; try discriminate.
      cbn [bind] in Hq.
      destruct (checked_sign_finite false _ _ Hc Hsb) as [-> Hf].
      rewrite Hzb in Hq. injection Hq as <-.
      destruct (neg_float fd Hd) as [Hsd _].
      apply div_pos_sign; try assumption. rewrite Hf. apply orb_true_r.
  - (* float / float *)
    destruct (pos_float fp Hp) as [Hs Hz].
    unfold truediv. cbn [to_float bind]. rewrite Hz.
    repeat split.
    + right. eexists. reflexivity.
    + intros _ _. eexists. reflexivity.
    + intros q Hq Hd Hf. injection Hq as <-.
      destruct (neg_float fd Hd) as [Hsd _].
      apply div_pos_sign; assumption.
Qed.

(** A zero divided by a positive float is that zero. *)
Lemma div_zero_pos (s : bool) (y : float) :
  sign_is false y = true -> is_zero y = false ->
  PyFloat.div (S754_zero s) y = S754_zero s.
Proof.
  destruct y as [t|t| |t m e]; simpl; intros Hs Hz; try discriminate;
    apply Bool.eqb_prop in Hs; subst t; now rewrite xorb_false_r.
Qed.

Lemma zero_times_100 (s : bool) :
  PyFloat.round1 (PyFloat.mul (S754_zero s) (of_Z 100)) = S754_zero s.
Proof. destruct s; vm_compute; reflexivity. Qed.

End RatioFacts.

(** ** The ratio calculator on positive prices *)

Module RatioClaims.

Import PyFloat PyStr PyNum App Spec PyNumFacts RoundFacts FloatFacts Ratio RatioFacts.

(** With a positive price the calculator returns a float, or raises
    [OverflowError]; in the range of the floats it returns. *)
Lemma calc_pos_cases (d p : num) :
  lt (PInt 0) p = true ->
  (calc_jeonse_ratio d p = Raise OverflowError \/
   exists r, calc_jeonse_ratio d p = Ok (Some (PFloat r))) /\
  (in_float_range d = true -> in_float_range p = true ->
   exists r, calc_jeonse_ratio d p = Ok (Some (PFloat r))).
Proof.
  intros Hp. rewrite (calc_pos d p Hp).
  destruct (truediv_pos d p Hp) as [Hc [Hr _]]. split.
  - destruct Hc as [Hc | [q Hq]].
    + left. unfold ratio_formula. rewrite Hc. reflexivity.
    + right. rewrite (formula_after_div d p q Hq). eexists. reflexivity.
  - intros Hd Hp'. destruct (Hr Hd Hp') as [q Hq].
    rewrite (formula_after_div d p q Hq). eexists. reflexivity.
Qed.

Lemma calc_zero_int (p : num) :
  lt (PInt 0) p = true ->
  calc_jeonse_ratio (PInt 0) p = Ok (Some (PFloat pos_zero)).
Proof.
  intros Hp. rewrite (calc_pos _ p Hp).
  assert (H : truediv (PInt 0) p = Ok (PFloat pos_zero)).
  { destruct p as [b|fp].
    - unfold lt in Hp. cbn [compare] in Hp.
      destruct b as [|pb|pb]; try discriminate. reflexivity.
    - destruct (pos_float fp Hp) as [Hs Hz].
      unfold truediv. cbn [to_float of_Z binary_normalize checked bind].
      rewrite Hz. f_equal. f_equal. apply (div_zero_pos false fp Hs Hz). }
  rewrite (formula_after_div _ _ _ H). unfold pos_zero.
  now rewrite zero_times_100.
Qed.

Lemma calc_zero_float (s : bool) (p : num) :
  lt (PInt 0) p = true -> in_float_range p = true ->
  calc_jeonse_ratio (PFloat (S754_zero s)) p = Ok (Some (PFloat (S754_zero s))).
Proof.
  intros Hp Hr. rewrite (calc_pos _ p Hp).
  assert (H : truediv (PFloat (S754_zero s)) p = Ok (PFloat (S754_zero s))).
  { destruct p as [b|fp].
    - assert (Hb : 0 < b).
      { unfold lt in Hp. cbn [compare] in Hp.
        destruct (Z.compare_spec 0 b); try discriminate. assumption. }
      cbn [in_float_range] in Hr. apply Z.ltb_lt in Hr.
      pose proof (of_Z_sign b) as Hsb.
      replace (b <? 0) with false in Hsb by (symmetry; apply Z.ltb_ge; lia).
      assert (Hzb : is_zero (of_Z b) = false) by (apply of_Z_nonzero; lia).
      unfold truediv. cbn [to_float bind].
      rewrite (checked_finite _ (of_Z_finite b Hr)). cbn [bind]. rewrite Hzb.
      f_equal. f_equal. apply (div_zero_pos s _ Hsb Hzb).
    - destruct (pos_float fp Hp) as [Hs Hz].
      unfold truediv. cbn [to_float bind]. rewrite Hz.
      f_equal. f_equal. apply (div_zero_pos s fp Hs Hz). }
  rewrite (formula_after_div _ _ _ H). now rewrite zero_times_100.
Qed.

(** C2 (as amended). For every deposit and every price above zero,
    [calc_jeonse_ratio] is the evaluation of [round(d / p * 100, 1)]: it
    returns that float whenever both arguments are floats or integers below
    [2^1023] in magnitude, and can otherwise only raise [OverflowError];
    50 of 100 gives 50.0, 80 of 100 gives 80.0, 59.99 of 100 gives 60.0;
    the integer deposit 0 gives 0.0 for every price, and a float zero gives
    that zero for every price in the range of the floats. *)
Theorem calc_jeonse_ratio_formula :
  (forall d p : num,
      lt (PInt 0) p = true ->
      calc_jeonse_ratio d p = (r <- ratio_formula d p ;; Ok (Some r)) /\
      (calc_jeonse_ratio d p = Raise OverflowError \/
       exists r, calc_jeonse_ratio d p = Ok (Some (PFloat r))) /\
      (in_float_range d = true -> in_float_range p = true ->
       exists r, calc_jeonse_ratio d p = Ok (Some (PFloat r))) /\
      calc_jeonse_ratio (PInt 0) p = Ok (Some (PFloat pos_zero)) /\
      (forall s : bool,
          in_float_range p = true ->
          calc_jeonse_ratio (PFloat (S754_zero s)) p
          = Ok (Some (PFloat (S754_zero s))))) /\
  calc_jeonse_ratio (PInt 50) (PInt 100) = Ok (Some (PFloat (lit 500 10))) /\
  calc_jeonse_ratio (PInt 80) (PInt 100) = Ok (Some (PFloat (lit 800 10))) /\
  calc_jeonse_ratio (PFloat (lit 5999 100)) (PInt 100)
  = Ok (Some (PFloat (lit 600 10))).
Proof.
  split; [| repeat split; vm_compute; reflexivity ].
  intros d p Hp.
  destruct (calc_pos_cases d p Hp) as [Hc Hr].
  split; [exact (calc_pos d p Hp) |].
  split; [exact Hc |].
  split; [exact Hr |].
  split; [exact (calc_zero_int p Hp) |].
  intros s Hp'. exact (calc_zero_float s p Hp Hp').
Qed.

Lemma calc_jeonse_ratio_formula_witness :
  lt (PInt 0) (PInt 300) = true /\
  in_float_range (PInt 100) = true /\ in_float_range (PInt 300) = true /\
  exists r, calc_jeonse_ratio (PInt 100) (PInt 300) = Ok (Some (PFloat r)).
Proof.
  split; [reflexivity |]. split; [reflexivity |]. split; [reflexivity |].
  apply (proj1 (proj2 (proj2
           (proj1 calc_jeonse_ratio_formula (PInt 100) (PInt 300) eq_refl))));
    reflexivity.
Defined.

(** C2 as stated fails: a float zero deposit against an integer price
    too large for a float raises, and so does an integer deposit whose
    quotient is too large. *)
Lemma calc_jeonse_ratio_overflow :
  lt (PInt 0) (PInt (10 ^ 400)) = true /\
  calc_jeonse_ratio (PFloat pos_zero) (PInt (10 ^ 400)) = Raise OverflowError /\
  lt (PInt 0) (PInt 1) = true /\
  calc_jeonse_ratio (PInt (10 ^ 400)) (PInt 1) = Raise OverflowError.
Proof. repeat split; vm_compute; reflexivity. Qed.

(** C9 (as amended). [calc_jeonse_ratio] has no test on the deposit: for
    every price above zero and every deposit it is the evaluation of
    [round(d / p * 100, 1)].  For a deposit below zero, unless the deposit
    is minus infinity and the price plus infinity, the value it returns is
    not above zero (it is negative, or the zero [-0.0] when the quotient
    rounds to zero), is below 60, and is classified in the safe band; it
    returns whenever deposit and price are in the range of the floats, and
    can otherwise only raise [OverflowError]. *)
Theorem negative_deposit_safe (d p : num) :
  lt (PInt 0) p = true ->
  calc_jeonse_ratio d p = (r <- ratio_formula d p ;; Ok (Some r)) /\
  (lt d (PInt 0) = true -> finite d || finite p = true ->
   (calc_jeonse_ratio d p = Raise OverflowError \/
    exists r, calc_jeonse_ratio d p = Ok (Some (PFloat r)) /\
              nonpos r = true /\
              lt (PFloat r) (PInt 60) = true /\
              get_risk_level (Some (PFloat r)) = risk_safe) /\
   (in_float_range d = true -> in_float_range p = true ->
    exists r, calc_jeonse_ratio d p = Ok (Some (PFloat r)) /\
              nonpos r = true /\
              get_risk_level (Some (PFloat r)) = risk_safe)).
Proof.
  intros Hp. split; [exact (calc_pos d p Hp) |].
  intros Hd Hf.
  destruct (truediv_pos d p Hp) as [Hc [Hr Hs]].
  assert (Hsafe : forall q, truediv d p = Ok (PFloat q) ->
            exists r, calc_jeonse_ratio d p = Ok (Some (PFloat r)) /\
                      nonpos r = true /\
                      lt (PFloat r) (PInt 60) = true /\
                      get_risk_level (Some (PFloat r)) = risk_safe).
  { intros q Hq. rewrite (calc_pos d p Hp), (formula_after_div d p q Hq).
    eexists. split; [reflexivity |].
    assert (Hn : nonpos (PyFloat.round1 (PyFloat.mul q (of_Z 100))) = true).
    { apply sign_true_nonpos, round1_sign.
      destruct hundred_finite as (m & e & ->).
      apply mul_pos_sign. exact (Hs q Hq Hd Hf). }
    assert (Hlt := nonpos_lt_pos _ 60 ltac:(lia) Hn).
    split; [exact Hn |]. split; [exact Hlt |].
    unfold get_risk_level. now rewrite Hlt. }
  split.
  - destruct Hc as [Hc | [q Hq]].
    + left. rewrite (calc_pos d p Hp). unfold ratio_formula. now rewrite Hc.
    + right. exact (Hsafe q Hq).
  - intros Hd' Hp'. destruct (Hr Hd' Hp') as [q Hq].
    destruct (Hsafe q Hq) as (r & H1 & H2 & _ & H4). exists r. auto.
Qed.

Lemma negative_deposit_safe_witness :
  lt (PInt 0) (PInt 10000) = true /\
  lt (PInt (-2500)) (PInt 0) = true /\
  exists r, calc_jeonse_ratio (PInt (-2500)) (PInt 10000) = Ok (Some (PFloat r)) /\
            nonpos r = true /\
            get_risk_level (Some (PFloat r)) = risk_safe.
Proof.
  split; [reflexivity |]. split; [reflexivity |].
  apply (proj2 (proj2 (negative_deposit_safe (PInt (-2500)) (PInt 10000) eq_refl)
                  eq_refl eq_refl));
    reflexivity.
Defined.

(** C9 as stated fails: a small negative deposit gives [-0.0], which is
    not below zero; and minus infinity against plus infinity gives a nan,
    which is classified in the danger band. *)
Lemma negative_deposit_not_negative :
  lt (PInt (-1)) (PInt 0) = true /\ lt (PInt 0) (PInt 100000) = true /\
  calc_jeonse_ratio (PInt (-1)) (PInt 100000) = Ok (Some (PFloat neg_zero)) /\
  lt (PFloat neg_zero) (PInt 0) = false /\
  lt (PFloat neg_inf) (PInt 0) = true /\ lt (PInt 0) (PFloat pos_inf) = true /\
  calc_jeonse_ratio (PFloat neg_inf) (PFloat pos_inf) = Ok (Some (PFloat nan)) /\
  get_risk_level (Some (PFloat nan)) = risk_danger.
Proof. repeat split; vm_compute; reflexivity. Qed.

End RatioClaims.

(** ** The search address of a non-blank input *)

Module SearchUrlEncoded.

Import PyFloat PyStr PyNum App Spec PyStrFacts.

Lemma utf8_encode_cp_scalar (c : N) :
  is_scalar c = true -> exists bs, utf8_encode_cp c = Ok bs.
Proof.
  unfold is_scalar, utf8_encode_cp. intros H.
  apply andb_prop in H. destruct H as [_ H].
  apply negb_true_iff in H. rewrite H.
  destruct (c <? 128)%N; [eexists; reflexivity |].
  destruct (c <? 2048)%N; [eexists; reflexivity |].
  destruct (c <? 65536)%N; eexists; reflexivity.
Qed.

Lemma utf8_encode_scalar (s : str) :
  forallb is_scalar s = true -> exists bs, utf8_encode s = Ok bs.
Proof.
  induction s as [|c t IH]; simpl; intros H.
  - eexists; reflexivity.
  - apply andb_prop in H. destruct H as [Hc Ht].
    destruct (utf8_encode_cp_scalar c Hc) as [bs ->].
    destruct (IH Ht) as [rest ->]. eexists; reflexivity.
Qed.

Lemma forallb_strip (P : N -> bool) (s : str) :
  forallb P s = true -> forallb P (strip s) = true.
Proof.
  intros H. destruct (strip_split s) as (l & r & Hs & _).
  rewrite Hs, !forallb_app in H.
  apply andb_prop in H. destruct H as [_ H].
  apply andb_prop in H. tauto.
Qed.

(** C6 (as amended). For every string whose trimmed form is not empty,
    [build_naver_search_url] is the fixed prefix followed by
    [quote] of the trimmed string; when the string consists of Unicode
    scalar values (no lone surrogate) it returns that address, the UTF-8
    bytes of the trimmed string percent-encoded; "Gangnam Apt" gives
    the address ending in [Gangnam%20Apt]. *)
Theorem build_naver_search_url_encoded :
  (forall s : str,
      strip s <> [] ->
      build_naver_search_url (Some s)
      = (q <- quote (strip s) ;; Ok (Some (template ++ q))) /\
      (forallb is_scalar s = true ->
       exists bs,
         utf8_encode (strip s) = Ok bs /\
         quote (strip s) = Ok (flat_map quote_byte bs) /\
         build_naver_search_url (Some s)
         = Ok (Some (template ++ flat_map quote_byte bs)))) /\
  build_naver_search_url (Some (u "Gangnam Apt"))
  = Ok (Some (u "https://new.land.naver.com/search?sk=Gangnam%20Apt")).
Proof.
  split; [| vm_compute; reflexivity ].
  intros s Hne.
  assert (Hb : build_naver_search_url (Some s)
               = (q <- quote (strip s) ;; Ok (Some (template ++ q)))).
  { unfold build_naver_search_url. cbn [or_empty].
    destruct (strip s) as [|c t]; [congruence |]. unfold template. reflexivity. }
  split; [exact Hb |].
  intros Hs.
  destruct (utf8_encode_scalar (strip s) (forallb_strip is_scalar s Hs)) as [bs Hbs].
  exists bs. split; [exact Hbs |].
  assert (Hq : quote (strip s) = Ok (flat_map quote_byte bs)).
  { unfold quote. now rewrite Hbs. }
  split; [exact Hq |]. rewrite Hb, Hq. reflexivity.
Qed.

Lemma build_naver_search_url_encoded_witness :
  strip (u " 강남 Apt ") <> [] /\
  forallb is_scalar (u " 강남 Apt ") = true /\
  exists bs,
    utf8_encode (strip (u " 강남 Apt ")) = Ok bs /\
    quote (strip (u " 강남 Apt ")) = Ok (flat_map quote_byte bs) /\
    build_naver_search_url (Some (u " 강남 Apt "))
    = Ok (Some (template ++ flat_map quote_byte bs)).
Proof.
  assert (Hne : strip (u " 강남 Apt ") <> []) by (vm_compute; discriminate).
  split; [exact Hne |]. split; [vm_compute; reflexivity |].
  apply (proj2 (proj1 build_naver_search_url_encoded (u " 강남 Apt ") Hne)).
  vm_compute. reflexivity.
Defined.

(** C6 as stated fails: a lone surrogate has no UTF-8 encoding. *)
Lemma build_naver_search_url_surrogate :
  strip [55296%N] <> [] /\
  build_naver_search_url (Some [55296%N]) = Raise UnicodeEncodeError.
Proof. split; [vm_compute; discriminate | vm_compute; reflexivity]. Qed.

End SearchUrlEncoded.

(** ** The chart *)

Module DonutChart.

Import PyFloat PyStr PyNum Plotly App Spec RatioFacts.

Lemma sub_100 (r : num) : PyNum.sub (PInt 100) r = Ok (complement r).
Proof.
  destruct r as [z|f]; [reflexivity |].
  unfold PyNum.sub. rewrite to_float_100. reflexivity.
Qed.

(** The check of a colour returns the colour itself or raises. *)
Lemma validate_coerce_spec (c : str) :
  validate_coerce c = if is_color c then Ok c else Raise ValueError.
Proof.
  unfold validate_coerce, is_color, perform_validate_coerce.
  destruct (re_hex _); [reflexivity |].
  destruct (re_rgb_etc _); [reflexivity |].
  destruct (re_ddk _); [reflexivity |].
  destruct (existsb _ _); reflexivity.
Qed.

Lemma make_donut_chart_some (r : num) (c : str) :
  make_donut_chart (Some r) c
  = (label <- format1 r ;;
     if is_color c then Ok (ring r (complement r) label c) else Raise ValueError).
Proof.
  unfold make_donut_chart. rewrite sub_100, validate_coerce_spec.
  cbn [bind]. destruct (format1 r) as [label|e]; cbn [bind]; [| reflexivity].
  destruct (is_color c); reflexivity.
Qed.

(** The chart of a ratio that has a float value, in a colour plotly
    accepts. *)
Lemma make_donut_chart_value (r : num) (c : str) (f : float) :
  to_float r = Ok f -> is_color c = true ->
  make_donut_chart (Some r) c = Ok (ring r (complement r) (format_float1 f) c).
Proof.
  intros Hf Hc. rewrite make_donut_chart_some. unfold format1.
  rewrite Hf. cbn [bind]. now rewrite Hc.
Qed.

(** What is not a colour gives no chart. *)
Lemma make_donut_chart_not_color (r : option num) (c : str) (fig : Figure) :
  is_color c = false -> make_donut_chart r c <> Ok fig.
Proof.
  intros Hc. replace (make_donut_chart r c)
    with (make_donut_chart (Some (or_zero r)) c) by (destruct r; reflexivity).
  rewrite make_donut_chart_some.
  destruct (format1 (or_zero r)); cbn [bind]; [rewrite Hc |]; discriminate.
Qed.

(** The four colours of [get_risk_level] are colours for plotly. *)
Lemma get_risk_level_color (ratio : option num) :
  is_color (snd (get_risk_level ratio)) = true.
Proof.
  destruct ratio as [r|]; unfold get_risk_level; [| vm_compute; reflexivity].
  destruct (lt r (PInt 60)); [vm_compute; reflexivity |].
  destruct (lt r (PInt 80)); vm_compute; reflexivity.
Qed.

(** C5 (as amended). For every ratio that is a float, or an integer
    that converts to a float, and every colour plotly accepts,
    [make_donut_chart] produces the ring with segments [r] and [100 - r],
    in the given colour and in light gray, a hole of 0.7, no legend, no
    slice labels, and [r] to one decimal place in the centre, in the given
    colour; for [None] it takes 0 and produces the segments 0 and 100 with
    "0.0%" and does not raise.  The four colours of [get_risk_level] are
    such colours, and a string that is no colour never gives a chart. *)
Theorem make_donut_chart_ring :
  (forall (r : num) (c : str) (f : float),
      to_float r = Ok f -> is_color c = true ->
      make_donut_chart (Some r) c
      = Ok (ring r (complement r) (format_float1 f) c)) /\
  (forall (f : float) (c : str),
      is_color c = true ->
      make_donut_chart (Some (PFloat f)) c
      = Ok (ring (PFloat f) (PFloat (PyFloat.sub (of_Z 100) f))
                 (format_float1 f) c)) /\
  (forall c : str,
      is_color c = true ->
      make_donut_chart None c = Ok (ring (PInt 0) (PInt 100) (u "0.0") c)) /\
  (forall c : str,
      is_color c = true ->
      make_donut_chart (Some (PFloat (lit 4025 100))) c
      = Ok (ring (PFloat (lit 4025 100)) (PFloat (lit 5975 100)) (u "40.2") c)) /\
  (forall ratio : option num, is_color (snd (get_risk_level ratio)) = true) /\
  (forall (r : option num) (c : str) (fig : Figure),
      make_donut_chart r c = Ok fig -> is_color c = true).
Proof.
  pose proof make_donut_chart_value as H.
  split; [exact H |]. split; [| split; [| split; [| split]]].
  - intros f c Hc. exact (H (PFloat f) c f eq_refl Hc).
  - intros c Hc.
    replace (make_donut_chart None c) with (make_donut_chart (Some (PInt 0)) c)
      by reflexivity.
    rewrite (H (PInt 0) c pos_zero eq_refl Hc). reflexivity.
  - intros c Hc. rewrite (H (PFloat (lit 4025 100)) c (lit 4025 100) eq_refl Hc).
    replace (complement (PFloat (lit 4025 100))) with (PFloat (lit 5975 100))
      by (vm_compute; reflexivity).
    replace (format_float1 (lit 4025 100)) with (u "40.2")
      by (vm_compute; reflexivity).
    reflexivity.
  - exact get_risk_level_color.
  - intros r c fig E. destruct (is_color c) eqn:Hc; [reflexivity |].
    exfalso. exact (make_donut_chart_not_color r c fig Hc E).
Qed.

Lemma make_donut_chart_ring_witness :
  to_float (PInt 75) = Ok (lit 750 10) /\
  is_color (u "#f1c40f") = true /\
  make_donut_chart (Some (PInt 75)) (u "#f1c40f")
  = Ok (ring (PInt 75) (complement (PInt 75)) (format_float1 (lit 750 10))
             (u "#f1c40f")).
Proof.
  assert (Hf : to_float (PInt 75) = Ok (lit 750 10)) by (vm_compute; reflexivity).
  assert (Hc : is_color (u "#f1c40f") = true) by (vm_compute; reflexivity).
  split; [exact Hf |]. split; [exact Hc |].
  apply (proj1 make_donut_chart_ring (PInt 75) (u "#f1c40f") (lit 750 10) Hf Hc).
Defined.

(** C5 as stated fails twice: an integer ratio too large for a float
    cannot be formatted to one decimal place, and a string that is not a
    colour is refused by plotly, also for the ratio [None]. *)
Lemma make_donut_chart_raises :
  make_donut_chart (Some (PInt (10 ^ 400))) (u "#e74c3c") = Raise OverflowError /\
  make_donut_chart (Some (PFloat (lit 500 10))) (u "not-a-color")
  = Raise ValueError /\
  make_donut_chart None (u "not-a-color") = Raise ValueError.
Proof. repeat split; vm_compute; reflexivity. Qed.

End DonutChart.

(** * Further properties of the calculator *)

Module RatioMore.

Import PyFloat PyStr PyNum App Spec PyNumFacts RoundFacts FloatFacts Ratio RatioFacts RatioClaims.

(** A price that fails the guard is above zero or is a nan. *)
Lemma guard_false (p : num) :
  le p (PInt 0) = false -> lt (PInt 0) p = true \/ p = PFloat S754_nan.
Proof.
  unfold le, lt. rewrite (compare_antisym (PInt 0) p).
  destruct p as [b|f]; cbn [compare].
  - destruct (0 ?= b); simpl; auto; discriminate.
  - destruct f as [t|t| |t m e].
    + discriminate.
    + destruct t; simpl; auto; discriminate.
    + auto.
    + rewrite compare_zero_finite. destruct t; simpl; auto; discriminate.
Qed.

Lemma div_nan (x : float) : PyFloat.div x S754_nan = S754_nan.
Proof. destruct x; reflexivity. Qed.

Lemma nan_times_100 :
  PyFloat.round1 (PyFloat.mul S754_nan (of_Z 100)) = S754_nan.
Proof. reflexivity. Qed.

(** With a nan price the guard does not fire and the ratio is a nan. *)
Lemma calc_nan_price (d : num) :
  calc_jeonse_ratio d (PFloat S754_nan)
  = (x <- to_float d ;; Ok (Some (PFloat S754_nan))).
Proof.
  rewrite calc_formula by reflexivity.
  destruct d as [a|fd].
  - unfold ratio_formula, truediv. cbn [to_float bind is_zero].
    destruct (checked (of_Z a)) as [x|e]; cbn [bind]; [| reflexivity].
    rewrite mul_100, div_nan. reflexivity.
  - unfold ratio_formula, truediv. cbn [to_float bind is_zero].
    rewrite mul_100, div_nan. reflexivity.
Qed.

(** X1. [calc_jeonse_ratio] never raises [ZeroDivisionError]: for every
    deposit and every price, a nan or an infinity included, it returns
    [None], returns a float, or raises [OverflowError]. *)
Theorem calc_jeonse_ratio_outcomes (d p : num) :
  calc_jeonse_ratio d p = Ok None \/
  (exists r, calc_jeonse_ratio d p = Ok (Some (PFloat r))) \/
  calc_jeonse_ratio d p = Raise OverflowError.
Proof.
  destruct (le p (PInt 0)) eqn:Hg.
  - left. unfold calc_jeonse_ratio. now rewrite Hg.
  - right. destruct (guard_false p Hg) as [Hp | ->].
    + destruct (proj1 (calc_pos_cases d p Hp)) as [H | H]; auto.
    + rewrite calc_nan_price.
      destruct d as [a|fd]; cbn [to_float].
      * destruct (checked_cases (of_Z a)) as [-> | ->]; cbn [bind];
          [right; reflexivity | left; eexists; reflexivity].
      * left. eexists. reflexivity.
Qed.

(** X3. A nan price passes the guard [sale_price <= 0]: for every float
    deposit, and every integer deposit in the range of the floats, the
    ratio is then a nan, and [get_risk_level] puts a nan in the danger
    band, both comparisons being false. *)
Theorem nan_price_is_danger (d : num) :
  in_float_range d = true ->
  calc_jeonse_ratio d (PFloat nan) = Ok (Some (PFloat nan)) /\
  get_risk_level (Some (PFloat nan)) = risk_danger.
Proof.
  intros Hd. split; [| reflexivity].
  unfold nan. rewrite calc_nan_price.
  destruct d as [a|fd]; cbn [to_float]; [| reflexivity].
  cbn [in_float_range] in Hd. apply Z.ltb_lt in Hd.
  now rewrite (checked_finite _ (of_Z_finite a Hd)).
Qed.

Lemma nan_price_is_danger_witness :
  in_float_range (PInt 5000) = true /\
  calc_jeonse_ratio (PInt 5000) (PFloat nan) = Ok (Some (PFloat nan)) /\
  get_risk_level (Some (PFloat nan)) = risk_danger.
Proof.
  split; [reflexivity |].
  apply (nan_price_is_danger (PInt 5000)). reflexivity.
Defined.

(** ** Deposits that are not below zero *)

Lemma nonneg_zero (s : bool) : nonneg (S754_zero s) = true.
Proof. reflexivity. Qed.

Lemma nonneg_of_sign (f : float) : sign_is false f = true -> nonneg f = true.
Proof. intros H. unfold nonneg. rewrite H. apply orb_true_r. Qed.

Lemma nonneg_cases (f : float) :
  nonneg f = true -> (exists s, f = S754_zero s) \/ sign_is false f = true.
Proof.
  unfold nonneg. destruct f as [t|t| |t m e]; simpl; intros H; auto.
  left. eexists. reflexivity.
Qed.

(** A float that is at least the integer zero. *)
Lemma nonneg_float (f : float) :
  le (PInt 0) (PFloat f) = true -> nonneg f = true.
Proof.
  unfold le. cbn [compare].
  destruct f as [t|t| |t m e]; try reflexivity.
  - destruct t; [discriminate | reflexivity].
  - discriminate.
  - rewrite compare_zero_finite. destruct t; [discriminate | reflexivity].
Qed.

Lemma nonneg_le (f : float) : nonneg f = true -> le (PInt 0) (PFloat f) = true.
Proof.
  unfold le. cbn [compare]. intros H.
  destruct f as [t|t| |t m e].
  - reflexivity.
  - destruct t; [discriminate H | reflexivity].
  - discriminate H.
  - rewrite compare_zero_finite. destruct t; [discriminate H | reflexivity].
Qed.

Lemma div_nonneg (x y : float) :
  nonneg x = true -> sign_is false y = true -> is_zero y = false ->
  is_finite x || is_finite y = true ->
  nonneg (PyFloat.div x y) = true.
Proof.
  intros Hx Hy Hz Hf. destruct (nonneg_cases x Hx) as [[s ->] | Hs].
  - now rewrite div_zero_pos.
  - apply nonneg_of_sign. now apply div_pos_sign.
Qed.

Lemma round_mul_nonneg (q : float) :
  nonneg q = true ->
  nonneg (PyFloat.round1 (PyFloat.mul q (of_Z 100))) = true.
Proof.
  intros Hq. destruct (nonneg_cases q Hq) as [[s ->] | Hs].
  - now rewrite zero_times_100.
  - apply nonneg_of_sign, round1_sign.
    destruct hundred_finite as (m & e & ->). now apply mul_pos_sign.
Qed.

Lemma truediv_nonneg (d p : num) (q : float) :
  le (PInt 0) d = true -> lt (PInt 0) p = true ->
  finite d || finite p = true ->
  truediv d p = Ok (PFloat q) -> nonneg q = true.
Proof.
  intros Hd Hp Hf. destruct d as [a|fd], p as [b|fp].
  - assert (Ha : 0 <= a).
    { unfold le in Hd. cbn [compare] in Hd.
      destruct (Z.compare_spec 0 a); try discriminate; lia. }
    assert (Hb : 0 < b).
    { unfold lt in Hp. cbn [compare] in Hp.
      destruct (Z.compare_spec 0 b); try discriminate. assumption. }
    destruct b as [|pb|pb]; try lia.
    destruct a as [|pa|pa]; try lia;
      unfold truediv; cbn [truediv_int Z.abs Z.to_pos Z.ltb Z.compare xorb].
    + intros H. injection H as <-. reflexivity.
    + destruct (checked (nearest false pa pb)) as [g|] eqn:Hc; try discriminate.
      cbn [bind]. intros H. injection H as <-.
      destruct (checked_sign_finite false _ _ Hc (nearest_sign false pa pb)) as [-> _].
      apply nonneg_of_sign, nearest_sign.
  - assert (Ha : 0 <= a).
    { unfold le in Hd. cbn [compare] in Hd.
      destruct (Z.compare_spec 0 a); try discriminate; lia. }
    destruct (pos_float fp Hp) as [Hs Hz].
    unfold truediv. cbn [to_float bind].
    destruct (checked (of_Z a)) as [g|] eqn:Hc; try discriminate.
    cbn [bind]. rewrite Hz. intros H. injection H as <-.
    pose proof (of_Z_sign a) as Hsa.
    replace (a <? 0) with false in Hsa by (symmetry; apply Z.ltb_ge; lia).
    destruct (checked_sign_finite false _ _ Hc Hsa) as [-> Hfin].
    apply div_nonneg; try assumption.
    + now apply nonneg_of_sign.
    + now rewrite Hfin.
  - assert (Hb : 0 < b).
    { unfold lt in Hp. cbn [compare] in Hp.
      destruct (Z.compare_spec 0 b); try discriminate. assumption. }
    pose proof (of_Z_sign b) as Hsb.
    replace (b <? 0) with false in Hsb by (symmetry; apply Z.ltb_ge; lia).
    assert (Hzb : is_zero (of_Z b) = false) by (apply of_Z_nonzero; lia).
    unfold truediv. cbn [to_float bind].
    destruct (checked (of_Z b)) as [g|] eqn:Hc; try discriminate.
    cbn [bind].
    destruct (checked_sign_finite false _ _ Hc Hsb) as [-> Hfin].
    rewrite Hzb. intros H. injection H as <-.
    apply div_nonneg; try assumption.
    + now apply nonneg_float.
    + rewrite Hfin. apply orb_true_r.
  - destruct (pos_float fp Hp) as [Hs Hz].
    unfold truediv. cbn [to_float bind]. rewrite Hz.
    intros H. injection H as <-.
    apply div_nonneg; try assumption. now apply nonneg_float.
Qed.

(** X2. A deposit that is not below zero never gives a negative ratio:
    for every deposit [d >= 0] and price [p > 0], not both infinite, the
    ratio [calc_jeonse_ratio] returns is a float [r >= 0] and not a nan;
    it returns one whenever both are in the range of the floats, and can
    otherwise only raise [OverflowError]. *)
Theorem nonneg_deposit_nonneg_ratio (d p : num) :
  le (PInt 0) d = true -> lt (PInt 0) p = true ->
  finite d || finite p = true ->
  (calc_jeonse_ratio d p = Raise OverflowError \/
   exists r, calc_jeonse_ratio d p = Ok (Some (PFloat r)) /\
             le (PInt 0) (PFloat r) = true /\ lt (PFloat r) (PInt 0) = false) /\
  (in_float_range d = true -> in_float_range p = true ->
   exists r, calc_jeonse_ratio d p = Ok (Some (PFloat r)) /\
             le (PInt 0) (PFloat r) = true /\ lt (PFloat r) (PInt 0) = false).
Proof.
  intros Hd Hp Hf.
  destruct (truediv_pos d p Hp) as [Hc [Hr _]].
  assert (Hok : forall q, truediv d p = Ok (PFloat q) ->
            exists r, calc_jeonse_ratio d p = Ok (Some (PFloat r)) /\
                      le (PInt 0) (PFloat r) = true /\
                      lt (PFloat r) (PInt 0) = false).
  { intros q Hq. rewrite (calc_pos d p Hp), (formula_after_div d p q Hq).
    eexists. split; [reflexivity |].
    assert (Hle : le (PInt 0)
                     (PFloat (PyFloat.round1 (PyFloat.mul q (of_Z 100)))) = true).
    { apply nonneg_le, round_mul_nonneg.
      exact (truediv_nonneg d p q Hd Hp Hf Hq). }
    split; [exact Hle | exact (le_not_lt _ _ Hle)]. }
  split.
  - destruct Hc as [Hc | [q Hq]].
    + left. rewrite (calc_pos d p Hp). unfold ratio_formula. now rewrite Hc.
    + right. exact (Hok q Hq).
  - intros Hd' Hp'. destruct (Hr Hd' Hp') as [q Hq]. exact (Hok q Hq).
Qed.

Lemma nonneg_deposit_nonneg_ratio_witness :
  le (PInt 0) (PInt 35000) = true /\ lt (PInt 0) (PInt 50000) = true /\
  exists r, calc_jeonse_ratio (PInt 35000) (PInt 50000) = Ok (Some (PFloat r)) /\
            le (PInt 0) (PFloat r) = true /\ lt (PFloat r) (PInt 0) = false.
Proof.
  split; [reflexivity |]. split; [reflexivity |].
  apply (proj2 (nonneg_deposit_nonneg_ratio (PInt 35000) (PInt 50000)
                  eq_refl eq_refl eq_refl)); reflexivity.
Defined.

End RatioMore.

(** * Further properties of the search address *)

Module SearchUrlMore.

Import PyFloat PyStr PyNum App Spec PyStrFacts SearchUrlEncoded.

Open Scope N_scope.

(** Every code point has at least one byte, and the bytes of a scalar
    value are below 256. *)
Lemma utf8_encode_cp_bytes (c : N) (bs : list N) :
  is_scalar c = true -> utf8_encode_cp c = Ok bs ->
  bs <> [] /\ Forall (fun b => b < 256) bs.
Proof.
  intros H E.
  assert (G : match utf8_encode_cp c with
              | Ok l => l <> [] /\ Forall (fun b => b < 256) l
              | Raise _ => True
              end); [| now rewrite E in G].
  clear E bs. unfold is_scalar in H. unfold utf8_encode_cp.
  apply andb_prop in H. destruct H as [Hmax H].
  apply negb_true_iff in H. rewrite H. apply N.leb_le in Hmax.
  pose proof (N.mod_lt c 64 ltac:(lia)) as M0.
  pose proof (N.mod_lt (c / 64) 64 ltac:(lia)) as M1.
  pose proof (N.mod_lt (c / 4096) 64 ltac:(lia)) as M2.
  destruct (c <? 128) eqn:H1.
  { apply N.ltb_lt in H1. split; [discriminate |].
    repeat (apply Forall_cons; [lia |]). apply Forall_nil. }
  destruct (c <? 2048) eqn:H2.
  { apply N.ltb_lt in H2.
    assert (c / 64 < 32) by (apply N.Div0.div_lt_upper_bound; lia).
    split; [discriminate |].
    repeat (apply Forall_cons; [lia |]). apply Forall_nil. }
  destruct (c <? 65536) eqn:H3.
  { apply N.ltb_lt in H3.
    assert (c / 4096 < 16) by (apply N.Div0.div_lt_upper_bound; lia).
    split; [discriminate |].
    repeat (apply Forall_cons; [lia |]). apply Forall_nil. }
  assert (c / 262144 < 5) by (apply N.Div0.div_lt_upper_bound; lia).
  split; [discriminate |].
  repeat (apply Forall_cons; [lia |]). apply Forall_nil.
Qed.

Lemma utf8_encode_bytes (s : str) (bs : list N) :
  forallb is_scalar s = true -> utf8_encode s = Ok bs ->
  Forall (fun b => b < 256) bs /\ (s <> [] -> bs <> []).
Proof.
  revert bs. induction s as [|c t IH]; simpl; intros bs H E.
  - injection E as <-. split; [constructor | congruence].
  - apply andb_prop in H. destruct H as [Hc Ht].
    destruct (utf8_encode_cp c) as [b1|] eqn:E1; try discriminate.
    destruct (utf8_encode t) as [rest|] eqn:E2; try discriminate.
    cbn [bind] in E. injection E as <-.
    destruct (utf8_encode_cp_bytes c b1 Hc E1) as [Hne Hb].
    destruct (IH rest Ht eq_refl) as [Hr _].
    split.
    + apply Forall_app. split; assumption.
    + intros _ Habs. apply app_eq_nil in Habs. tauto.
Qed.

(** What [quote] writes for a byte: one to three characters, all of them
    allowed in a query. *)
Lemma quote_byte_table :
  forallb (fun n => let q := quote_byte (N.of_nat n) in
                    negb (Nat.eqb (List.length q) 0) && forallb url_char q)
          (seq 0 256) = true.
Proof. vm_compute. reflexivity. Qed.

Lemma quote_byte_chars (b : N) :
  b < 256 ->
  quote_byte b <> [] /\ forallb url_char (quote_byte b) = true.
Proof.
  intros Hb.
  pose proof quote_byte_table as H. rewrite forallb_forall in H.
  specialize (H (N.to_nat b)). rewrite N2Nat.id in H.
  assert (Hin : In (N.to_nat b) (seq 0 256)) by (apply in_seq; lia).
  apply H in Hin. cbv zeta in Hin.
  apply andb_prop in Hin. destruct Hin as [Hlen Hch].
  split; [| exact Hch].
  intros E. rewrite E in Hlen. discriminate.
Qed.

Lemma quote_chars (bs : list N) :
  Forall (fun b => b < 256) bs ->
  forallb url_char (flat_map quote_byte bs) = true /\
  (bs <> [] -> flat_map quote_byte bs <> []).
Proof.
  induction bs as [|b t IH]; simpl; intros H.
  - split; [reflexivity | congruence].
  - inversion H as [|? ? Hb Ht]; subst.
    destruct (quote_byte_chars b Hb) as [Hne Hch].
    destruct (IH Ht) as [Hr _]. split.
    + rewrite forallb_app, Hch, Hr. reflexivity.
    + intros _ Habs. apply app_eq_nil in Habs. tauto.
Qed.

Close Scope N_scope.

(** X4. The address never has an empty or unsafe query: for every
    string of Unicode scalar values whose trimmed form is not empty, the
    result is the fixed prefix followed by a non-empty query in which every
    character is an ASCII letter, a digit, one of [_.-~/] or a percent
    sign; no space and no character outside ASCII reaches the address. *)
Theorem build_naver_search_url_query (s : str) :
  strip s <> [] -> forallb is_scalar s = true ->
  exists q,
    build_naver_search_url (Some s) = Ok (Some (template ++ q)) /\
    q <> [] /\ forallb url_char q = true.
Proof.
  intros Hne Hs.
  pose proof (forallb_strip is_scalar s Hs) as Hst.
  destruct (utf8_encode_scalar (strip s) Hst) as [bs Hbs].
  destruct (utf8_encode_bytes (strip s) bs Hst Hbs) as [Hb Hbne].
  destruct (quote_chars bs Hb) as [Hch Hqne].
  exists (flat_map quote_byte bs). split; [| split].
  - unfold build_naver_search_url. cbn [or_empty].
    destruct (strip s) as [|c t] eqn:E; [congruence |].
    unfold quote. rewrite Hbs. unfold template. reflexivity.
  - apply Hqne, Hbne, Hne.
  - exact Hch.
Qed.

Lemma build_naver_search_url_query_witness :
  strip (u "서울 강남구 1/2") <> [] /\
  forallb is_scalar (u "서울 강남구 1/2") = true /\
  exists q,
    build_naver_search_url (Some (u "서울 강남구 1/2")) = Ok (Some (template ++ q)) /\
    q <> [] /\ forallb url_char q = true.
Proof.
  assert (Hne : strip (u "서울 강남구 1/2") <> []) by (vm_compute; discriminate).
  split; [exact Hne |]. split; [vm_compute; reflexivity |].
  apply (build_naver_search_url_query (u "서울 강남구 1/2") Hne).
  vm_compute. reflexivity.
Defined.

(** A safe character is ASCII and is not whitespace. *)
Lemma always_safe_table :
  forallb (fun n => negb (always_safe (N.of_nat n)) || negb (isspace (N.of_nat n)))
          (seq 0 128) = true.
Proof. vm_compute. reflexivity. Qed.

Lemma always_safe_ascii (c : N) : always_safe c = true -> (c < 128)%N.
Proof.
  unfold always_safe. intros H.
  repeat (apply orb_prop in H; destruct H as [H | H]);
    try (apply andb_prop in H; destruct H as [H1 H2];
         apply N.leb_le in H1; apply N.leb_le in H2; lia);
    apply N.eqb_eq in H; lia.
Qed.

Lemma always_safe_not_space (c : N) : always_safe c = true -> isspace c = false.
Proof.
  intros H. pose proof (always_safe_ascii c H) as Hlt.
  pose proof always_safe_table as T. rewrite forallb_forall in T.
  specialize (T (N.to_nat c)). rewrite N2Nat.id in T.
  assert (Hin : In (N.to_nat c) (seq 0 128)) by (apply in_seq; lia).
  apply T in Hin. rewrite H in Hin. simpl in Hin.
  now apply negb_true_iff in Hin.
Qed.

Lemma lstrip_safe (s : str) : forallb always_safe s = true -> lstrip s = s.
Proof.
  destruct s as [|c t]; simpl; intros H; [reflexivity |].
  apply andb_prop in H. destruct H as [Hc _].
  now rewrite (always_safe_not_space c Hc).
Qed.

Lemma forallb_rev (P : N -> bool) (s : str) :
  forallb P s = true -> forallb P (rev s) = true.
Proof.
  rewrite !forallb_forall. intros H x Hx. apply H, in_rev, Hx.
Qed.

Lemma strip_safe (s : str) : forallb always_safe s = true -> strip s = s.
Proof.
  intros H. unfold strip, rstrip. rewrite (lstrip_safe s H).
  rewrite (lstrip_safe (rev s) (forallb_rev _ _ H)). apply rev_involutive.
Qed.

Lemma utf8_encode_ascii (s : str) :
  forallb always_safe s = true -> utf8_encode s = Ok s.
Proof.
  induction s as [|c t IH]; simpl; intros H; [reflexivity |].
  apply andb_prop in H. destruct H as [Hc Ht].
  unfold utf8_encode_cp.
  rewrite (proj2 (N.ltb_lt c 128) (always_safe_ascii c Hc)).
  cbn [bind]. rewrite (IH Ht). reflexivity.
Qed.

Lemma quote_safe (s : str) :
  forallb always_safe s = true -> flat_map quote_byte s = s.
Proof.
  induction s as [|c t IH]; intros H; [reflexivity |].
  cbn [forallb] in H. apply andb_prop in H. destruct H as [Hc Ht].
  cbn [flat_map]. rewrite (IH Ht). unfold quote_byte. rewrite Hc. reflexivity.
Qed.

(** X8. An input made only of ASCII letters, digits and [_.-~/] passes
    unchanged: the result is the fixed prefix followed by the input
    itself, with no trimming and no escape. *)
Theorem build_naver_search_url_plain (s : str) :
  s <> [] -> forallb always_safe s = true ->
  build_naver_search_url (Some s) = Ok (Some (template ++ s)).
Proof.
  intros Hne H. unfold build_naver_search_url. cbn [or_empty].
  rewrite (strip_safe s H).
  destruct s as [|c t]; [congruence |].
  unfold quote. rewrite (utf8_encode_ascii _ H). cbn [bind].
  rewrite (quote_safe _ H). unfold template. reflexivity.
Qed.

Lemma build_naver_search_url_plain_witness :
  u "Raemian-Firstige_101/A" <> [] /\
  forallb always_safe (u "Raemian-Firstige_101/A") = true /\
  build_naver_search_url (Some (u "Raemian-Firstige_101/A"))
  = Ok (Some (template ++ u "Raemian-Firstige_101/A")).
Proof.
  assert (Hne : u "Raemian-Firstige_101/A" <> []) by (vm_compute; discriminate).
  split; [exact Hne |]. split; [vm_compute; reflexivity |].
  apply (build_naver_search_url_plain _ Hne). vm_compute. reflexivity.
Defined.

End SearchUrlMore.

(** * Further properties of the classification and the chart *)

Module RiskMore.

Import PyFloat PyStr PyNum Plotly App Spec PyNumFacts DonutChart.

Lemma str_eqb_refl (a : str) : str_eqb a a = true.
Proof.
  induction a as [|x a IH]; simpl; [reflexivity |].
  now rewrite N.eqb_refl, IH.
Qed.

Lemma str_eqb_eq (a b : str) : str_eqb a b = true -> a = b.
Proof.
  revert b. induction a as [|x a IH]; destruct b as [|y b]; simpl;
    intros H; try discriminate; [reflexivity |].
  apply andb_prop in H. destruct H as [Hx Hr].
  apply N.eqb_eq in Hx. subst y. f_equal. apply IH, Hr.
Qed.

(** The classification of a number, by band. *)
Lemma get_risk_level_cases (r : num) :
  get_risk_level (Some r) = risk_safe \/
  get_risk_level (Some r) = risk_caution \/
  get_risk_level (Some r) = risk_danger.
Proof.
  unfold get_risk_level.
  destruct (lt r (PInt 60)); [left; reflexivity |].
  destruct (lt r (PInt 80)); [right; left; reflexivity |].
  right; right; reflexivity.
Qed.

Lemma labels_distinct :
  str_eqb (fst risk_unknown) (fst risk_safe) = false /\
  str_eqb (fst risk_unknown) (fst risk_caution) = false /\
  str_eqb (fst risk_unknown) (fst risk_danger) = false /\
  str_eqb (fst risk_safe) (fst risk_caution) = false /\
  str_eqb (fst risk_safe) (fst risk_danger) = false /\
  str_eqb (fst risk_caution) (fst risk_danger) = false.
Proof. repeat split; vm_compute; reflexivity. Qed.

(** X5. The label alone tells whether there is a ratio: [get_risk_level]
    gives the label of the unknown case for [None] and for no number, so in
    [main], where the box is drawn only for a ratio that is not [None],
    that label is never shown. *)
Theorem unknown_label_iff_none (ratio : option num) :
  str_eqb (fst (get_risk_level ratio)) (fst risk_unknown) = true <->
  ratio = None.
Proof.
  destruct labels_distinct as (H1 & H2 & H3 & _).
  split.
  - destruct ratio as [r|]; [| reflexivity]. intros H.
    apply str_eqb_eq in H.
    destruct (get_risk_level_cases r) as [E | [E | E]]; rewrite E in H;
      rewrite <- H in *; rewrite str_eqb_refl in *; discriminate.
  - intros ->. vm_compute. reflexivity.
Qed.

(** X6. Every label [get_risk_level] can return is a key of the dict of
    background colours in [main], and the colour [main] takes for it is
    the one the dict holds for that key, never the default of the lookup;
    the table has one entry for each of the four labels, the three bands
    with three different colours. *)
Theorem risk_bg_covers_labels (ratio : option num) :
  In (fst (get_risk_level ratio)) (map fst risk_bg_table) /\
  In (fst (get_risk_level ratio), risk_bg (fst (get_risk_level ratio)))
     risk_bg_table /\
  map fst risk_bg_table
  = [fst risk_safe; fst risk_caution; fst risk_danger; fst risk_unknown] /\
  risk_bg (fst risk_safe) = u "#E8F8F2" /\
  risk_bg (fst risk_caution) = u "#FFF4D6" /\
  risk_bg (fst risk_danger) = u "#FFE6E6" /\
  risk_bg (fst risk_unknown) = u "#F0F0F0".
Proof.
  assert (T : In (fst (get_risk_level ratio),
                  risk_bg (fst (get_risk_level ratio))) risk_bg_table).
  { destruct ratio as [r|].
    - destruct (get_risk_level_cases r) as [E | [E | E]]; rewrite E.
      + left. vm_compute. reflexivity.
      + right; left. vm_compute. reflexivity.
      + right; right; left. vm_compute. reflexivity.
    - right; right; right; left. vm_compute. reflexivity. }
  split; [| split; [exact T |]].
  - apply (in_map fst) in T. exact T.
  - repeat split; vm_compute; reflexivity.
Qed.

Lemma tenth_table :
  forallb (fun n =>
             let f := tenth n in
             let k := N.of_nat n in
             str_eqb (format_float1 f)
                     (decimal (k / 10) ++ u "." ++ decimal (k mod 10))
             && match PyFloat.round1 f, f with
                | S754_zero s, S754_zero t => Bool.eqb s t
                | S754_finite s m e, S754_finite t m' e' =>
                    Bool.eqb s t && Pos.eqb m m' && Z.eqb e e'
                | _, _ => false
                end)
          (seq 0 1001) = true.
Proof. vm_compute. reflexivity. Qed.

(** X7. On the percentages 0.0, 0.1, ..., 100.0 rounding and printing
    agree: such a ratio is left unchanged by [round(x, 1)], and the text
    in the centre of its chart, drawn in a colour plotly accepts, is its
    decimal digits, the integer part, a point and the tenth, followed by
    the percent sign. *)
Theorem tenth_label (n : nat) (c : str) :
  (n <= 1000)%nat -> is_color c = true ->
  PyFloat.round1 (tenth n) = tenth n /\
  make_donut_chart (Some (PFloat (tenth n))) c
  = Ok (ring (PFloat (tenth n)) (complement (PFloat (tenth n)))
             (decimal (N.of_nat n / 10) ++ u "." ++ decimal (N.of_nat n mod 10))
             c).
Proof.
  intros Hn Hc. pose proof tenth_table as T. rewrite forallb_forall in T.
  assert (Hin : In n (seq 0 1001)) by (apply in_seq; lia).
  apply T in Hin. cbv zeta in Hin.
  apply andb_prop in Hin. destruct Hin as [Hf Hr].
  apply str_eqb_eq in Hf. split.
  - destruct (PyFloat.round1 (tenth n)) as [s|s| |s m e],
             (tenth n) as [t|t| |t m' e']; try discriminate.
    + apply Bool.eqb_prop in Hr. now subst.
    + apply andb_prop in Hr. destruct Hr as [Hr He].
      apply andb_prop in Hr. destruct Hr as [Hs Hm].
      apply Bool.eqb_prop in Hs. apply Pos.eqb_eq in Hm. apply Z.eqb_eq in He.
      now subst.
  - rewrite (make_donut_chart_value (PFloat (tenth n)) c (tenth n) eq_refl Hc).
    now rewrite Hf.
Qed.

Lemma tenth_label_witness :
  (667 <= 1000)%nat /\
  is_color (u "#f1c40f") = true /\
  PyFloat.round1 (tenth 667) = tenth 667 /\
  make_donut_chart (Some (PFloat (tenth 667))) (u "#f1c40f")
  = Ok (ring (PFloat (tenth 667)) (complement (PFloat (tenth 667)))
             (decimal (N.of_nat 667 / 10) ++ u "." ++ decimal (N.of_nat 667 mod 10))
             (u "#f1c40f")).
Proof.
  assert (Hc : is_color (u "#f1c40f") = true) by (vm_compute; reflexivity).
  split; [lia |]. split; [exact Hc |].
  apply (tenth_label 667 (u "#f1c40f")); [lia | exact Hc].
Defined.

End RiskMore.

(** * Whitespace around the address *)

Module SearchUrlPadding.

Import PyFloat PyStr PyNum App Spec PyStrFacts.

Lemma lstrip_app (s r : str) :
  lstrip (s ++ r) = if forallb isspace s then lstrip r else lstrip s ++ r.
Proof.
  induction s as [|c t IH]; simpl; [reflexivity |].
  destruct (isspace c); simpl; [exact IH | reflexivity].
Qed.

Lemma lstrip_drop (l x : str) :
  forallb isspace l = true -> lstrip (l ++ x) = lstrip x.
Proof. intros H. now rewrite lstrip_app, H. Qed.

Lemma rstrip_drop (x r : str) :
  forallb isspace r = true -> rstrip (x ++ r) = rstrip x.
Proof.
  intros H. unfold rstrip. rewrite rev_app_distr.
  rewrite lstrip_drop; [reflexivity |].
  rewrite forallb_forall in *. intros c Hc. apply H, in_rev, Hc.
Qed.

(** Whitespace added at either end is removed by [strip]. *)
Lemma strip_padding (l s r : str) :
  forallb isspace l = true -> forallb isspace r = true ->
  strip (l ++ s ++ r) = strip s.
Proof.
  intros Hl Hr. unfold strip. rewrite (lstrip_drop l _ Hl), lstrip_app.
  destruct (forallb isspace s) eqn:Hs.
  - rewrite (lstrip_blank r Hr), (lstrip_blank s Hs). reflexivity.
  - apply rstrip_drop, Hr.
Qed.

(** X9. Whitespace around the address does not change the result: for
    all runs of whitespace [l] and [r] (spaces, tabs, line ends, the
    ideographic space, ...) and every string [s],
    [build_naver_search_url] gives the same result, address, [None] or
    exception, on [l ++ s ++ r] as on [s]. *)
Theorem build_naver_search_url_padding (l s r : str) :
  forallb isspace l = true -> forallb isspace r = true ->
  build_naver_search_url (Some (l ++ s ++ r)) = build_naver_search_url (Some s).
Proof.
  intros Hl Hr. unfold build_naver_search_url. cbn [or_empty].
  now rewrite (strip_padding l s r Hl Hr).
Qed.

Lemma build_naver_search_url_padding_witness :
  forallb isspace [32; 12288]%N = true /\ forallb isspace [9; 10]%N = true /\
  build_naver_search_url (Some ([32; 12288]%N ++ u "잠실 엘스" ++ [9; 10]%N))
  = build_naver_search_url (Some (u "잠실 엘스")).
Proof.
  split; [reflexivity |]. split; [reflexivity |].
  apply build_naver_search_url_padding; reflexivity.
Defined.

End SearchUrlPadding.

(** * The page *)

Module MainPage.

Import PyFloat PyStr PyNum PyFormat Plotly Streamlit App Spec.
Import PyNumFacts FloatFacts RatioFacts RatioClaims DonutChart SearchUrlEncoded RatioMore.

(** Membership in a log written out call by call. *)
Ltac in_log :=
  repeat first [ left; reflexivity | apply in_or_app; right | right ].

(** The search block: a warning for a blank address, the link for an
    address that can be encoded. *)
Lemma search_block_blank (addr : str) :
  strip addr = [] -> search_block addr = ([address_warning], Ok tt).
Proof.
  intros H. unfold search_block, build_naver_search_url. cbn [or_empty].
  rewrite H. reflexivity.
Qed.

Lemma search_block_url (addr url : str) :
  build_naver_search_url (Some addr) = Ok (Some url) ->
  search_block addr
  = ([success (u "아래 링크를 눌러 네이버 부동산에서 시세를 확인하세요.");
      markdown (u "[네이버 부동산에서 보기](" ++ url ++ u ")") false], Ok tt).
Proof. intros H. unfold search_block. rewrite H. reflexivity. Qed.

Lemma build_scalar (addr : str) :
  forallb is_scalar addr = true ->
  (strip addr = [] /\ build_naver_search_url (Some addr) = Ok None) \/
  (strip addr <> [] /\
   exists url, build_naver_search_url (Some addr) = Ok (Some url)).
Proof.
  intros Hs. destruct (strip addr) as [|c t] eqn:E.
  - left. split; [reflexivity |].
    unfold build_naver_search_url. cbn [or_empty]. now rewrite E.
  - right. split; [discriminate |].
    pose proof (forallb_strip is_scalar addr Hs) as Hst.
    destruct (utf8_encode_scalar (strip addr) Hst) as [bs Hbs].
    unfold build_naver_search_url. cbn [or_empty]. rewrite E.
    unfold quote. rewrite <- E, Hbs. eexists. reflexivity.
Qed.

Lemma search_block_ok (addr : str) :
  forallb is_scalar addr = true ->
  exists log, search_block addr = (log, Ok tt) /\
              forallb (fun c => negb (is_result c)) log = true.
Proof.
  intros Hs. destruct (build_scalar addr Hs) as [[Hb _] | [_ [url Hu]]].
  - rewrite (search_block_blank addr Hb). eexists. split; reflexivity.
  - rewrite (search_block_url addr url Hu). eexists. split; reflexivity.
Qed.

(** The calculation block. *)
Lemma calc_block_none (p d : Z) :
  p <= 0 ->
  calc_block p d = ([markdown (u "### 2. 결과 요약") false; price_warning], Ok tt).
Proof.
  intros Hp. unfold calc_block.
  assert (H : calc_jeonse_ratio (PInt d) (PInt p) = Ok None).
  { unfold calc_jeonse_ratio, le. cbn [compare].
    destruct (Z.compare_spec p 0); try lia; reflexivity. }
  rewrite H. reflexivity.
Qed.

Lemma calc_block_some (p d : Z) (r : float) :
  calc_jeonse_ratio (PInt d) (PInt p) = Ok (Some (PFloat r)) ->
  calc_block p d
  = ([markdown (u "### 2. 결과 요약") false;
      columns 3;
      metric 1 (u "전세가율") (repr_float r ++ u "%");
      metric 2 (u "매매가") (format_thousands p);
      metric 3 (u "전세보증금") (format_thousands d);
      markdown (risk_box (risk_bg (fst (get_risk_level (Some (PFloat r)))))
                         (snd (get_risk_level (Some (PFloat r))))
                         (fst (get_risk_level (Some (PFloat r))))) true;
      markdown (u "### 3. 그래프") false;
      plotly_chart (ring (PFloat r) (complement (PFloat r)) (format_float1 r)
                         (snd (get_risk_level (Some (PFloat r))))) true],
     Ok tt).
Proof.
  intros H. unfold calc_block. rewrite H. cbn [lift ui_bind app].
  pose proof (get_risk_level_color (Some (PFloat r))) as Hc.
  destruct (get_risk_level (Some (PFloat r))) as [risk color].
  cbn [lift ui_bind emit app fst snd str_num] in *.
  rewrite (make_donut_chart_value (PFloat r) color r eq_refl Hc).
  reflexivity.
Qed.

Lemma lt_zero_int (p : Z) : 0 < p -> lt (PInt 0) (PInt p) = true.
Proof.
  intros H. unfold lt. cbn [compare].
  destruct (Z.compare_spec 0 p); try lia; reflexivity.
Qed.

Lemma range_int (z : Z) : Z.abs z < 2 ^ 1023 -> in_float_range (PInt z) = true.
Proof. intros H. cbn [in_float_range]. now apply Z.ltb_lt. Qed.

Lemma calc_block_ok (p d : Z) :
  Z.abs p < 2 ^ 1023 -> Z.abs d < 2 ^ 1023 ->
  exists log, calc_block p d = (log, Ok tt).
Proof.
  intros Hp Hd. destruct (Z_le_gt_dec p 0) as [Hle|Hgt].
  - rewrite (calc_block_none p d Hle). eexists. reflexivity.
  - destruct (proj2 (calc_pos_cases (PInt d) (PInt p) (lt_zero_int p ltac:(lia)))
                (range_int d Hd) (range_int p Hp)) as [r Hr].
    rewrite (calc_block_some p d r Hr). eexists. reflexivity.
Qed.

(** X10. [main] never stops at an exception on what the widgets can
    give it: for every address of Unicode scalar values, every price and
    deposit below [2^1023] in magnitude and every state of the two
    buttons, the run makes its calls and returns. *)
Theorem main_returns (w : widgets) :
  forallb is_scalar (addr_text w) = true ->
  Z.abs (sale_price_value w) < 2 ^ 1023 ->
  Z.abs (jeonse_deposit_value w) < 2 ^ 1023 ->
  exists log, main w = (log, Ok tt).
Proof.
  intros Hs Hp Hd. unfold main.
  assert (HS : exists ls, (if search_pressed w then search_block (addr_text w)
                           else ret tt) = (ls, Ok tt)).
  { destruct (search_pressed w).
    - destruct (search_block_ok _ Hs) as [ls [H _]]. eauto.
    - eexists. reflexivity. }
  assert (HC : exists lc, (if calc_pressed w
                           then calc_block (sale_price_value w) (jeonse_deposit_value w)
                           else ret tt) = (lc, Ok tt)).
  { destruct (calc_pressed w).
    - apply calc_block_ok; assumption.
    - eexists. reflexivity. }
  destruct HS as [ls ->]. destruct HC as [lc ->].
  eexists. reflexivity.
Qed.

Lemma main_returns_witness :
  forallb is_scalar (u "반포 자이") = true /\
  Z.abs 250000 < 2 ^ 1023 /\ Z.abs 120000 < 2 ^ 1023 /\
  exists log,
    main {| addr_text := u "반포 자이"; search_pressed := true;
            sale_price_value := 250000; jeonse_deposit_value := 120000;
            calc_pressed := true |} = (log, Ok tt).
Proof.
  assert (H1 : forallb is_scalar (u "반포 자이") = true) by (vm_compute; reflexivity).
  assert (H2 : Z.abs 250000 < 2 ^ 1023) by (vm_compute; reflexivity).
  assert (H3 : Z.abs 120000 < 2 ^ 1023) by (vm_compute; reflexivity).
  split; [exact H1 |]. split; [exact H2 |]. split; [exact H3 |].
  apply (main_returns
           {| addr_text := u "반포 자이"; search_pressed := true;
              sale_price_value := 250000; jeonse_deposit_value := 120000;
              calc_pressed := true |}); assumption.
Defined.

(** X11. With a price of zero the calculation shows the warning and no
    result: when the calculate button is pressed and the price is not
    above zero, for every deposit, [main] returns, its calls include the
    warning that asks for a price above zero, and none of them is a
    metric, a column layout or a chart. *)
Theorem main_zero_price (w : widgets) :
  calc_pressed w = true -> sale_price_value w <= 0 ->
  forallb is_scalar (addr_text w) = true ->
  exists log,
    main w = (log, Ok tt) /\
    In price_warning log /\
    forallb (fun c => negb (is_result c)) log = true.
Proof.
  intros Hc Hp Hs. unfold main. rewrite Hc.
  rewrite (calc_block_none _ (jeonse_deposit_value w) Hp).
  assert (HS : exists ls, (if search_pressed w then search_block (addr_text w)
                           else ret tt) = (ls, Ok tt) /\
                          forallb (fun c => negb (is_result c)) ls = true).
  { destruct (search_pressed w).
    - apply search_block_ok, Hs.
    - eexists. split; reflexivity. }
  destruct HS as [ls [-> Hls]].
  eexists. split; [reflexivity |]. split.
  - in_log.
  - cbn [app forallb is_result negb andb].
    rewrite forallb_app, Hls. reflexivity.
Qed.

Lemma main_zero_price_witness :
  forallb is_scalar (u "") = true /\
  exists log,
    main {| addr_text := u ""; search_pressed := false;
            sale_price_value := 0; jeonse_deposit_value := 30000;
            calc_pressed := true |} = (log, Ok tt) /\
    In price_warning log /\
    forallb (fun c => negb (is_result c)) log = true.
Proof.
  split; [reflexivity |].
  apply (main_zero_price
           {| addr_text := u ""; search_pressed := false;
              sale_price_value := 0; jeonse_deposit_value := 30000;
              calc_pressed := true |}); [reflexivity | simpl; lia | reflexivity].
Defined.


(** The calls of the calculation block, in each of its three outcomes. *)
Lemma calc_block_cases (p d : Z) :
  calc_block p d = ([], Raise OverflowError) \/
  calc_block p d = ([markdown (u "### 2. 결과 요약") false; price_warning], Ok tt) \/
  exists r,
    calc_jeonse_ratio (PInt d) (PInt p) = Ok (Some (PFloat r)) /\
    calc_block p d
    = ([markdown (u "### 2. 결과 요약") false;
        columns 3;
        metric 1 (u "전세가율") (repr_float r ++ u "%");
        metric 2 (u "매매가") (format_thousands p);
        metric 3 (u "전세보증금") (format_thousands d);
        markdown (risk_box (risk_bg (fst (get_risk_level (Some (PFloat r)))))
                           (snd (get_risk_level (Some (PFloat r))))
                           (fst (get_risk_level (Some (PFloat r))))) true;
        markdown (u "### 3. 그래프") false;
        plotly_chart (ring (PFloat r) (complement (PFloat r)) (format_float1 r)
                           (snd (get_risk_level (Some (PFloat r))))) true],
       Ok tt).
Proof.
  destruct (Z_le_gt_dec p 0) as [Hle|Hgt].
  - right; left. apply calc_block_none, Hle.
  - destruct (proj1 (calc_pos_cases (PInt d) (PInt p) (lt_zero_int p ltac:(lia))))
      as [H | [r Hr]].
    + left. unfold calc_block. rewrite H. reflexivity.
    + right; right. exists r. split; [exact Hr |]. apply calc_block_some, Hr.
Qed.

Lemma warnings_differ : address_warning <> price_warning.
Proof.
  unfold address_warning, price_warning. intros H. injection H as H.
  vm_compute in H. discriminate.
Qed.

(** A price above zero with a deposit not below it gives a ratio that is
    not below zero. *)
Lemma calc_int_nonneg (p d : Z) :
  0 < p -> 0 <= d -> Z.abs p < 2 ^ 1023 -> Z.abs d < 2 ^ 1023 ->
  exists r, calc_jeonse_ratio (PInt d) (PInt p) = Ok (Some (PFloat r)) /\
            le (PInt 0) (PFloat r) = true.
Proof.
  intros Hp Hd Rp Rd.
  pose proof (lt_zero_int p Hp) as Hlt.
  destruct (truediv_pos (PInt d) (PInt p) Hlt) as [_ [Hr _]].
  destruct (Hr (range_int d Rd) (range_int p Rp)) as [q Hq].
  rewrite (calc_pos _ _ Hlt), (formula_after_div _ _ q Hq).
  eexists. split; [reflexivity |].
  apply nonneg_le, round_mul_nonneg.
  apply (truediv_nonneg (PInt d) (PInt p) q); try assumption; try reflexivity.
  unfold le. cbn [compare]. destruct (Z.compare_spec 0 d); try lia; reflexivity.
Qed.

(** X12. With a price above zero the calculation shows its result and
    no warning about the price: when the calculate button is pressed, the
    price is above zero, the deposit is not below zero and both are below
    [2^1023], [main] returns; the ratio [r] of [calc_jeonse_ratio] is not
    below zero; the calls include the metric with [str(r)] and a percent
    sign, the box with the label, colour and background of
    [get_risk_level r], and the chart of [r] in that colour. *)
Theorem main_shows_result (w : widgets) :
  calc_pressed w = true ->
  0 < sale_price_value w -> 0 <= jeonse_deposit_value w ->
  Z.abs (sale_price_value w) < 2 ^ 1023 ->
  Z.abs (jeonse_deposit_value w) < 2 ^ 1023 ->
  forallb is_scalar (addr_text w) = true ->
  exists log r,
    main w = (log, Ok tt) /\
    calc_jeonse_ratio (PInt (jeonse_deposit_value w)) (PInt (sale_price_value w))
    = Ok (Some (PFloat r)) /\
    le (PInt 0) (PFloat r) = true /\
    In (metric 1 (u "전세가율") (repr_float r ++ u "%")) log /\
    In (markdown (risk_box (risk_bg (fst (get_risk_level (Some (PFloat r)))))
                           (snd (get_risk_level (Some (PFloat r))))
                           (fst (get_risk_level (Some (PFloat r))))) true) log /\
    In (plotly_chart (ring (PFloat r) (complement (PFloat r)) (format_float1 r)
                           (snd (get_risk_level (Some (PFloat r))))) true) log /\
    ~ In price_warning log.
Proof.
  intros Hc Hp Hd Rp Rd Hs.
  destruct (calc_int_nonneg _ _ Hp Hd Rp Rd) as [r [Hr Hle]].
  assert (HS : exists ls, (if search_pressed w then search_block (addr_text w)
                           else ret tt) = (ls, Ok tt) /\
                          ~ In price_warning ls).
  { destruct (search_pressed w).
    - destruct (build_scalar _ Hs) as [[Hb _] | [_ [url Hu]]].
      + rewrite (search_block_blank _ Hb). eexists. split; [reflexivity |].
        intros [H | []]. now apply warnings_differ.
      + rewrite (search_block_url _ url Hu). eexists. split; [reflexivity |].
        intros [H | [H | []]]; discriminate.
    - eexists. split; [reflexivity |]. intros []. }
  destruct HS as [ls [HS Hls]].
  unfold main. rewrite Hc, HS, (calc_block_some _ _ r Hr).
  eexists. exists r. split; [reflexivity |].
  split; [exact Hr |]. split; [exact Hle |].
  split; [in_log |]. split; [in_log |]. split; [in_log |].
  cbn [app In]. intros H.
  repeat (destruct H as [H | H]; [discriminate |]).
  apply in_app_or in H. destruct H as [H | H]; [now apply Hls |].
  cbn [In] in H.
  repeat (destruct H as [H | H]; [discriminate |]). exact H.
Qed.

Lemma main_shows_result_witness :
  exists log r,
    main {| addr_text := u ""; search_pressed := true;
            sale_price_value := 50000; jeonse_deposit_value := 42000;
            calc_pressed := true |} = (log, Ok tt) /\
    calc_jeonse_ratio (PInt 42000) (PInt 50000) = Ok (Some (PFloat r)) /\
    le (PInt 0) (PFloat r) = true /\
    In (metric 1 (u "전세가율") (repr_float r ++ u "%")) log /\
    In (markdown (risk_box (risk_bg (fst (get_risk_level (Some (PFloat r)))))
                           (snd (get_risk_level (Some (PFloat r))))
                           (fst (get_risk_level (Some (PFloat r))))) true) log /\
    In (plotly_chart (ring (PFloat r) (complement (PFloat r)) (format_float1 r)
                           (snd (get_risk_level (Some (PFloat r))))) true) log /\
    ~ In price_warning log.
Proof.
  apply (main_shows_result
           {| addr_text := u ""; search_pressed := true;
              sale_price_value := 50000; jeonse_deposit_value := 42000;
              calc_pressed := true |});
    try reflexivity; simpl; lia.
Defined.

(** X13. The search button answers a blank address with the warning and
    any other address with the link: when the button is pressed, a blank
    address gives the address warning and no success notice, and an
    address for which [build_naver_search_url] returns [url] gives the
    success notice and the link to [url] and not the address warning,
    whatever the calculation below does. *)
Theorem main_search (w : widgets) :
  search_pressed w = true ->
  (strip (addr_text w) = [] ->
   In address_warning (fst (main w)) /\
   forall body, ~ In (success body) (fst (main w))) /\
  (forall url,
      build_naver_search_url (Some (addr_text w)) = Ok (Some url) ->
      In (success (u "아래 링크를 눌러 네이버 부동산에서 시세를 확인하세요."))
         (fst (main w)) /\
      In (markdown (u "[네이버 부동산에서 보기](" ++ url ++ u ")") false)
         (fst (main w)) /\
      ~ In address_warning (fst (main w))).
Proof.
  intros Hs.
  assert (HC : exists lc rc,
             (if calc_pressed w
              then calc_block (sale_price_value w) (jeonse_deposit_value w)
              else ret tt) = (lc, rc) /\
             (forall body, ~ In (success body) lc) /\
             ~ In address_warning lc).
  { destruct (calc_pressed w).
    - destruct (calc_block_cases (sale_price_value w) (jeonse_deposit_value w))
        as [-> | [-> | [r [_ ->]]]]; eexists; eexists;
        (split; [reflexivity |]); split.
      + intros body [].
      + intros [].
      + intros body H. cbn [In] in H.
        repeat (destruct H as [H | H]; [discriminate |]). exact H.
      + intros [H | [H | []]]; [discriminate |].
        symmetry in H. now apply warnings_differ.
      + intros body H. cbn [In] in H.
        repeat (destruct H as [H | H]; [discriminate |]). exact H.
      + intros H. cbn [In] in H.
        repeat (destruct H as [H | H]; [discriminate |]). exact H.
    - eexists. eexists. split; [reflexivity |]. split; [intros body [] | intros []]. }
  destruct HC as (lc & rc & HC & Hns & Hna).
  split.
  - intros Hb. unfold main. rewrite Hs, (search_block_blank _ Hb), HC.
    cbn [ui_bind emit app fst]. split; [in_log |].
    intros body H. cbn [In] in H.
    repeat (destruct H as [H | H]; [discriminate |]).
    now apply (Hns body).
  - intros url Hu. unfold main. rewrite Hs, (search_block_url _ url Hu), HC.
    cbn [ui_bind emit app fst]. split; [in_log |]. split; [in_log |].
    intros H. cbn [In] in H.
    repeat (destruct H as [H | H]; [discriminate |]).
    now apply Hna.
Qed.

Lemma main_search_witness :
  strip (u "  ") = [] /\
  In address_warning
     (fst (main {| addr_text := u "  "; search_pressed := true;
                   sale_price_value := 0; jeonse_deposit_value := 0;
                   calc_pressed := false |})).
Proof.
  assert (Hb : strip (u "  ") = []) by reflexivity.
  split; [exact Hb |].
  apply (proj1 (main_search
                  {| addr_text := u "  "; search_pressed := true;
                     sale_price_value := 0; jeonse_deposit_value := 0;
                     calc_pressed := false |} eq_refl)).
  exact Hb.
Defined.

End MainPage.

(** * The two renderings of the ratio *)

Module MetricLabel.

Import PyFloat PyStr PyNum PyFormat Plotly Streamlit App Spec RiskMore.

Lemma repr_table :
  forallb (fun n => str_eqb (repr_float (tenth n)) (format_float1 (tenth n)))
          (seq 0 1001) = true.
Proof. vm_compute. reflexivity. Qed.

(** X14. The metric and the centre of the chart show the same digits for
    the percentages 0.0, 0.1, ..., 100.0: there [str(ratio)], used for the
    metric in [main], and the [.1f] format, used for the annotation in
    [make_donut_chart], are the same text. *)
Theorem metric_matches_label (n : nat) :
  (n <= 1000)%nat ->
  str_num (PFloat (tenth n)) = format_float1 (tenth n) /\
  format1 (PFloat (tenth n)) = Ok (str_num (PFloat (tenth n))).
Proof.
  intros Hn. pose proof repr_table as T. rewrite forallb_forall in T.
  assert (Hin : In n (seq 0 1001)) by (apply in_seq; lia).
  apply T in Hin. apply str_eqb_eq in Hin.
  cbn [str_num]. split; [exact Hin |].
  unfold format1. cbn [to_float bind]. now rewrite Hin.
Qed.

Lemma metric_matches_label_witness :
  (805 <= 1000)%nat /\
  str_num (PFloat (tenth 805)) = format_float1 (tenth 805) /\
  format1 (PFloat (tenth 805)) = Ok (str_num (PFloat (tenth 805))).
Proof.
  split; [lia |]. apply (metric_matches_label 805). lia.
Defined.

End MetricLabel.

(** * The order of the bands *)

Module RiskOrder.

Import PyFloat PyStr PyNum App Spec PyNumFacts RoundFacts.

(** Comparing an integer with a finite float, both scaled by [2^1074]. *)
Lemma compare_Z_float_scaled (c : Z) (s : bool) (m : positive) (e : Z) :
  -1074 <= e ->
  compare_Z_float c (S754_finite s m e)
  = Some (c * 2 ^ 1074 ?= cond_Zopp s (Zpos m) * 2 ^ (e + 1074)).
Proof.
  intros He. cbn [compare_Z_float]. f_equal.
  set (v := cond_Zopp s (Zpos m)).
  destruct e as [|k|k].
  - rewrite (Zmult_compare_compat_r c (v * 2 ^ 0) (2 ^ 1074)) by reflexivity.
    f_equal. simpl (0 + 1074). simpl (2 ^ 0). lia.
  - rewrite (Zmult_compare_compat_r c (v * 2 ^ Zpos k) (2 ^ 1074)) by reflexivity.
    f_equal. rewrite Z.pow_add_r by lia. lia.
  - assert (Hp : 2 ^ (Zneg k + 1074) > 0).
    { apply Z.lt_gt, Z.pow_pos_nonneg; lia. }
    rewrite (Zmult_compare_compat_r (c * 2 ^ Zpos k) v _ Hp).
    f_equal. rewrite <- Z.mul_assoc, <- Z.pow_add_r by lia.
    f_equal. f_equal. lia.
Qed.

Lemma canonical_facts (m : positive) (e : Z) :
  bounded prec emax m e = true ->
  -1074 <= e /\ Zpos (digits2_pos m) <= 53 /\
  (e = -1074 \/ Zpos (digits2_pos m) = 53).
Proof.
  unfold bounded, canonical_mantissa. intros H.
  apply andb_prop in H. destruct H as [H _].
  apply Z.eqb_eq in H. rewrite fexp_eq in H. lia.
Qed.

(** Among canonical positive floats the smaller exponent is the smaller
    number. *)
Lemma scaled_lt_of_exp (m1 : positive) (e1 : Z) (m2 : positive) (e2 : Z) :
  bounded prec emax m1 e1 = true -> bounded prec emax m2 e2 = true ->
  e1 < e2 ->
  Zpos m1 * 2 ^ (e1 + 1074) < Zpos m2 * 2 ^ (e2 + 1074).
Proof.
  intros B1 B2 He.
  destruct (canonical_facts m1 e1 B1) as (L1 & D1 & _).
  destruct (canonical_facts m2 e2 B2) as (L2 & D2 & [E2 | E2]); [lia |].
  destruct (digits2_pos_bounds m1) as [_ U1].
  destruct (digits2_pos_bounds m2) as [U2 _].
  rewrite E2 in U2.
  assert (H53 : Zpos m1 < 2 ^ 53).
  { assert (2 ^ Zpos (digits2_pos m1) <= 2 ^ 53) by (apply Z.pow_le_mono_r; lia).
    lia. }
  replace (e2 + 1074) with ((e2 - e1 - 1) + 1 + (e1 + 1074)) by lia.
  rewrite (Z.pow_add_r 2 (e2 - e1 - 1 + 1) (e1 + 1074)) by lia.
  rewrite (Z.pow_add_r 2 (e2 - e1 - 1) 1) by lia.
  assert (P : 0 < 2 ^ (e1 + 1074)) by (apply Z.pow_pos_nonneg; lia).
  assert (Q : 0 < 2 ^ (e2 - e1 - 1)) by (apply Z.pow_pos_nonneg; lia).
  change (2 ^ 1) with 2. change (2 ^ (53 - 1)) with 4503599627370496 in U2.
  change (2 ^ 53) with 9007199254740992 in H53.
  set (X := 2 ^ (e1 + 1074)) in *. set (Y := 2 ^ (e2 - e1 - 1)) in *.
  assert (A : 4503599627370496 * 1 <= Zpos m2 * Y).
  { apply Z.mul_le_mono_nonneg; lia. }
  replace (Zpos m2 * (Y * 2 * X)) with (Zpos m2 * Y * 2 * X) by ring.
  apply Z.mul_lt_mono_pos_r; lia.
Qed.

(** The order [SFcompare] gives to two canonical finite floats is the
    order of their values. *)
Lemma scaled_le (s1 : bool) (m1 : positive) (e1 : Z)
                (s2 : bool) (m2 : positive) (e2 : Z) (x : comparison) :
  bounded prec emax m1 e1 = true -> bounded prec emax m2 e2 = true ->
  SFcompare (S754_finite s1 m1 e1) (S754_finite s2 m2 e2) = Some x ->
  x <> Gt ->
  cond_Zopp s1 (Zpos m1) * 2 ^ (e1 + 1074)
  <= cond_Zopp s2 (Zpos m2) * 2 ^ (e2 + 1074).
Proof.
  intros B1 B2 H Hx.
  destruct (canonical_facts m1 e1 B1) as (L1 & _).
  destruct (canonical_facts m2 e2 B2) as (L2 & _).
  assert (P1 : 0 < 2 ^ (e1 + 1074)) by (apply Z.pow_pos_nonneg; lia).
  assert (P2 : 0 < 2 ^ (e2 + 1074)) by (apply Z.pow_pos_nonneg; lia).
  cbn [SFcompare] in H. injection H as H.
  destruct s1, s2; cbn [cond_Zopp Z.opp]; subst x.
  - (* both negative *)
    destruct (Z.compare_spec e1 e2) as [E | E | E].
    + subst e2.
      assert (Hm : Zpos m2 <= Zpos m1).
      { change (Pos.compare_cont Eq m1 m2) with (Pos.compare m1 m2) in Hx.
        destruct (Pos.compare_spec m1 m2) as [-> | Hlt | Hgt]; simpl in Hx;
          try lia. congruence. }
      nia.
    + congruence.
    + pose proof (scaled_lt_of_exp m2 e2 m1 e1 B2 B1 E). lia.
  - nia.
  - congruence.
  - (* both positive *)
    destruct (Z.compare_spec e1 e2) as [E | E | E].
    + subst e2.
      assert (Hm : Zpos m1 <= Zpos m2).
      { change (Pos.compare_cont Eq m1 m2) with (Pos.compare m1 m2) in Hx.
        destruct (Pos.compare_spec m1 m2) as [-> | Hlt | Hgt];
          try lia. congruence. }
      nia.
    + pose proof (scaled_lt_of_exp m1 e1 m2 e2 B1 B2 E). lia.
    + congruence.
Qed.

Lemma above_negative (c : Z) (m : positive) (e : Z) :
  0 < c -> compare_Z_float c (S754_finite true m e) = Some Gt.
Proof.
  intros Hc. cbn [compare_Z_float cond_Zopp Z.opp]. f_equal.
  destruct e as [|k|k]; apply <- Z.compare_gt_iff.
  - simpl. lia.
  - assert (Hp : 0 < 2 ^ Z.pos k) by (apply Z.pow_pos_nonneg; lia). nia.
  - assert (Hp : 0 < 2 ^ Z.pos k) by (apply Z.pow_pos_nonneg; lia). nia.
Qed.

Lemma above_positive (c : Z) (m : positive) (e : Z) :
  compare_Z_float c (S754_finite false m e) = Some Gt -> 0 < c.
Proof.
  cbn [compare_Z_float cond_Zopp]. intros H.
  destruct e as [|k|k].
  - assert (G : (c ?= Z.pos m * 2 ^ 0) = Gt) by congruence.
    apply -> Z.compare_gt_iff in G. lia.
  - assert (G : (c ?= Z.pos m * 2 ^ Z.pos k) = Gt) by congruence.
    apply -> Z.compare_gt_iff in G.
    assert (Hp : 0 < 2 ^ Z.pos k) by (apply Z.pow_pos_nonneg; lia).
    assert (0 < Z.pos m * 2 ^ Z.pos k) by (apply Z.mul_pos_pos; lia). lia.
  - assert (G : (c * 2 ^ Z.pos k ?= Z.pos m) = Gt) by congruence.
    apply -> Z.compare_gt_iff in G.
    assert (Hp : 0 < 2 ^ Z.pos k) by (apply Z.pow_pos_nonneg; lia).
    destruct (Z.lt_ge_cases 0 c) as [Hc | Hc]; [exact Hc |].
    assert (c * 2 ^ Z.pos k <= 0) by (apply Z.mul_nonpos_nonneg; lia). lia.
Qed.

(** An integer above a float is above every float that is not above
    that one. *)
Lemma above_float_trans (c : Z) (f1 f2 : float) (x : comparison) :
  valid_binary prec emax f1 = true -> valid_binary prec emax f2 = true ->
  SFcompare f1 f2 = Some x -> x <> Gt ->
  compare_Z_float c f2 = Some Gt -> compare_Z_float c f1 = Some Gt.
Proof.
  intros V1 V2 H Hx Hc.
  destruct f2 as [s2|s2| |s2 m2 e2].
  - (* a zero *)
    assert (Hpos : 0 < c).
    { cbn [compare_Z_float] in Hc. injection Hc as Hc.
      apply -> Z.compare_gt_iff in Hc. exact Hc. }
    destruct f1 as [s1|s1| |s1 m1 e1]; cbn [SFcompare] in H; try discriminate.
    + exact Hc.
    + injection H as <-. destruct s1; [reflexivity | congruence].
    + injection H as <-. destruct s1; [| congruence].
      now apply above_negative.
  - (* an infinity *)
    destruct s2; [| cbn [compare_Z_float] in Hc; discriminate].
    destruct f1 as [s1|s1| |s1 m1 e1]; cbn [SFcompare] in H; try discriminate;
      injection H as <-; try congruence.
    destruct s1; [reflexivity | congruence].
  - discriminate.
  - (* a finite float *)
    destruct f1 as [s1|s1| |s1 m1 e1]; cbn [SFcompare] in H; try discriminate.
    + injection H as <-. destruct s2; [congruence |].
      pose proof (above_positive c m2 e2 Hc) as Hpos.
      cbn [compare_Z_float]. f_equal. apply <- Z.compare_gt_iff. exact Hpos.
    + injection H as <-. destruct s1; [reflexivity | congruence].
    + cbn [valid_binary] in V1, V2.
      destruct (canonical_facts m1 e1 V1) as (L1 & _).
      destruct (canonical_facts m2 e2 V2) as (L2 & _).
      pose proof (scaled_le s1 m1 e1 s2 m2 e2 x V1 V2 H Hx) as Hle.
      rewrite compare_Z_float_scaled in Hc |- * by assumption.
      injection Hc as Hc. apply -> Z.compare_gt_iff in Hc. f_equal.
      apply <- Z.compare_gt_iff. lia.
Qed.

Lemma compare_Z_float_mono_up (a b : Z) (f : float) (x : comparison) :
  a < b -> compare_Z_float a f = Some x -> x <> Lt ->
  compare_Z_float b f = Some Gt.
Proof.
  intros Hab Ha Hx.
  destruct f as [s|s| |s m e]; cbn [compare_Z_float] in *.
  - injection Ha as <-. f_equal.
    apply -> Z.compare_ge_iff in Hx. apply <- Z.compare_gt_iff. lia.
  - destruct s; congruence.
  - discriminate.
  - injection Ha as <-. f_equal.
    destruct e as [|k|k];
      apply -> Z.compare_ge_iff in Hx; apply <- Z.compare_gt_iff; try lia.
    assert (Hp : 0 < 2 ^ Z.pos k) by (apply Z.pow_pos_nonneg; lia).
    nia.
Qed.

(** Below an integer bound, so is every number that is not above. *)
Lemma le_lt_bound (r1 r2 : num) (c : Z) :
  valid r1 = true -> valid r2 = true ->
  le r1 r2 = true -> lt r2 (PInt c) = true -> lt r1 (PInt c) = true.
Proof.
  intros V1 V2 Hle Hlt. unfold le, lt in *.
  destruct r1 as [a|f1], r2 as [b|f2]; cbn [compare valid] in *.
  - destruct (Z.compare_spec a b); try discriminate;
      destruct (Z.compare_spec b c); try discriminate;
      destruct (Z.compare_spec a c); try reflexivity; lia.
  - destruct (compare_Z_float a f2) as [x|] eqn:Ha; try discriminate.
    destruct (compare_Z_float c f2) as [y|] eqn:Hc; try discriminate.
    destruct y; try discriminate.
    destruct (Z.compare_spec a c) as [E | E | E]; try reflexivity.
    + subst c. rewrite Hc in Ha. injection Ha as <-. discriminate.
    + assert (Hx : x <> Gt) by (destruct x; congruence).
      rewrite (compare_Z_float_mono c a f2 x E Ha Hx) in Hc. discriminate.
  - destruct (compare_Z_float b f1) as [x|] eqn:Hb; try discriminate.
    assert (Hx : x <> Lt) by (destruct x; simpl in Hle; congruence).
    destruct (Z.compare_spec b c); try discriminate.
    rewrite (compare_Z_float_mono_up b c f1 x ltac:(lia) Hb Hx). reflexivity.
  - destruct (SFcompare f1 f2) as [x|] eqn:Hs; try discriminate.
    assert (Hx : x <> Gt) by (destruct x; congruence).
    destruct (compare_Z_float c f2) as [y|] eqn:Hc; try discriminate.
    destruct y; try discriminate.
    rewrite (above_float_trans c f1 f2 x V1 V2 Hs Hx Hc). reflexivity.
Qed.

Lemma levels_differ :
  risk_safe <> risk_caution /\ risk_safe <> risk_danger /\
  risk_caution <> risk_danger.
Proof. repeat split; intros H; vm_compute in H; discriminate. Qed.

(** X15. The classification follows the order of the ratios: for
    numbers [r1 <= r2], if [r2] is in the safe band so is [r1], if [r2]
    is not in the danger band neither is [r1], and if [r1] is in the
    danger band so is [r2]; a higher ratio never gets a safer label. *)
Theorem get_risk_level_monotone (r1 r2 : num) :
  valid r1 = true -> valid r2 = true -> le r1 r2 = true ->
  (get_risk_level (Some r2) = risk_safe -> get_risk_level (Some r1) = risk_safe) /\
  (get_risk_level (Some r2) <> risk_danger ->
   get_risk_level (Some r1) <> risk_danger) /\
  (get_risk_level (Some r1) = risk_danger -> get_risk_level (Some r2) = risk_danger).
Proof.
  intros V1 V2 Hle.
  pose proof (le_lt_bound r1 r2 60 V1 V2 Hle) as H60.
  pose proof (le_lt_bound r1 r2 80 V1 V2 Hle) as H80.
  destruct levels_differ as (D1 & D2 & D3).
  unfold get_risk_level, risk_safe, risk_caution, risk_danger in *.
  destruct (lt r2 (PInt 60)) eqn:A2; destruct (lt r2 (PInt 80)) eqn:B2;
    try rewrite (H60 eq_refl); try rewrite (H80 eq_refl);
    destruct (lt r1 (PInt 60)) eqn:A1; destruct (lt r1 (PInt 80)) eqn:B1;
    repeat split; intros; try reflexivity; try congruence;
    try (exfalso; congruence).
Qed.

Lemma get_risk_level_monotone_witness :
  valid (PFloat (lit 599 10)) = true /\ valid (PInt 70) = true /\
  le (PFloat (lit 599 10)) (PInt 70) = true /\
  (get_risk_level (Some (PFloat (lit 599 10))) = risk_danger ->
   get_risk_level (Some (PInt 70)) = risk_danger).
Proof.
  assert (V1 : valid (PFloat (lit 599 10)) = true) by (vm_compute; reflexivity).
  assert (L : le (PFloat (lit 599 10)) (PInt 70) = true) by (vm_compute; reflexivity).
  split; [exact V1 |]. split; [reflexivity |]. split; [exact L |].
  apply (proj2 (proj2 (get_risk_level_monotone
                         (PFloat (lit 599 10)) (PInt 70) V1 eq_refl L))).
Defined.

End RiskOrder.

(** * Different addresses, different results *)

Module SearchUrlInjective.

Import PyFloat PyStr PyNum App Spec PyStrFacts SearchUrlEncoded SearchUrlMore RiskMore.

Open Scope N_scope.

(** A property checked on every number below a bound. *)
Lemma below_table (P : N -> bool) (k : nat) (x : N) :
  forallb (fun n => P (N.of_nat n)) (seq 0 k) = true ->
  x < N.of_nat k -> P x = true.
Proof.
  intros T Hx. rewrite forallb_forall in T.
  specialize (T (N.to_nat x)). rewrite N2Nat.id in T.
  apply T, in_seq. lia.
Qed.

Lemma land_lead2 (x : N) : x < 32 -> N.land (192 + x) 31 = x.
Proof.
  intros H. apply N.eqb_eq.
  apply (below_table (fun x => N.land (192 + x) 31 =? x) 32);
    [vm_compute; reflexivity | exact H].
Qed.

Lemma land_lead3 (x : N) : x < 16 -> N.land (224 + x) 15 = x.
Proof.
  intros H. apply N.eqb_eq.
  apply (below_table (fun x => N.land (224 + x) 15 =? x) 16);
    [vm_compute; reflexivity | exact H].
Qed.

Lemma land_lead4 (x : N) : x < 8 -> N.land (240 + x) 7 = x.
Proof.
  intros H. apply N.eqb_eq.
  apply (below_table (fun x => N.land (240 + x) 7 =? x) 8);
    [vm_compute; reflexivity | exact H].
Qed.

Lemma cont_tail (y : N) : y < 64 -> cont (128 + y) = y.
Proof.
  intros H. apply N.eqb_eq.
  apply (below_table (fun y => cont (128 + y) =? y) 64);
    [vm_compute; reflexivity | exact H].
Qed.

(** Reading one encoded code point back. *)
Lemma decode_encoded (c : N) (bs r : list N) (fuel : nat) :
  is_scalar c = true -> utf8_encode_cp c = Ok bs ->
  decode (S fuel) (bs ++ r) = c :: decode fuel r.
Proof.
  intros Hs. unfold is_scalar in Hs.
  apply andb_prop in Hs. destruct Hs as [Hmax Hsur].
  apply negb_true_iff in Hsur. apply N.leb_le in Hmax.
  unfold utf8_encode_cp. rewrite Hsur.
  pose proof (N.mod_lt c 64 ltac:(lia)) as M0.
  pose proof (N.mod_lt (c / 64) 64 ltac:(lia)) as M1.
  pose proof (N.mod_lt (c / 4096) 64 ltac:(lia)) as M2.
  pose proof (N.div_mod c 64 ltac:(lia)) as D0.
  pose proof (N.div_mod (c / 64) 64 ltac:(lia)) as D1.
  pose proof (N.div_mod (c / 4096) 64 ltac:(lia)) as D2.
  assert (E1 : c / 64 / 64 = c / 4096) by (rewrite N.Div0.div_div; reflexivity).
  assert (E2 : c / 4096 / 64 = c / 262144) by (rewrite N.Div0.div_div; reflexivity).
  rewrite E1 in D1. rewrite E2 in D2.
  destruct (c <? 128) eqn:H1.
  { intros E. assert (bs = [c]) by congruence. subst bs.
    cbn [app decode]. now rewrite H1. }
  apply N.ltb_ge in H1.
  destruct (c <? 2048) eqn:H2.
  { apply N.ltb_lt in H2. intros E.
    assert (bs = [192 + c / 64; 128 + c mod 64]) by congruence. subst bs.
    assert (Hq : c / 64 < 32) by (apply N.Div0.div_lt_upper_bound; lia).
    cbn [app decode].
    rewrite (proj2 (N.ltb_ge (192 + c / 64) 128)) by lia.
    rewrite (proj2 (N.ltb_lt (192 + c / 64) 224)) by lia.
    rewrite (land_lead2 _ Hq), (cont_tail _ M0). f_equal. lia. }
  apply N.ltb_ge in H2.
  destruct (c <? 65536) eqn:H3.
  { apply N.ltb_lt in H3. intros E.
    assert (bs = [224 + c / 4096; 128 + (c / 64) mod 64; 128 + c mod 64])
      by congruence. subst bs.
    assert (Hq : c / 4096 < 16) by (apply N.Div0.div_lt_upper_bound; lia).
    cbn [app decode].
    rewrite (proj2 (N.ltb_ge (224 + c / 4096) 128)) by lia.
    rewrite (proj2 (N.ltb_ge (224 + c / 4096) 224)) by lia.
    rewrite (proj2 (N.ltb_lt (224 + c / 4096) 240)) by lia.
    rewrite (land_lead3 _ Hq), (cont_tail _ M1), (cont_tail _ M0). f_equal. lia. }
  apply N.ltb_ge in H3. intros E.
  assert (bs = [240 + c / 262144; 128 + (c / 4096) mod 64;
                128 + (c / 64) mod 64; 128 + c mod 64]) by congruence.
  subst bs.
  assert (Hq : c / 262144 < 5) by (apply N.Div0.div_lt_upper_bound; lia).
  cbn [app decode].
  rewrite (proj2 (N.ltb_ge (240 + c / 262144) 128)) by lia.
  rewrite (proj2 (N.ltb_ge (240 + c / 262144) 224)) by lia.
  rewrite (proj2 (N.ltb_ge (240 + c / 262144) 240)) by lia.
  assert (Hq8 : c / 262144 < 8) by lia.
  rewrite (land_lead4 _ Hq8), (cont_tail _ M2), (cont_tail _ M1),
    (cont_tail _ M0).
  f_equal. lia.
Qed.

Close Scope N_scope.

Lemma decode_nil (fuel : nat) : decode fuel [] = [].
Proof. destruct fuel; reflexivity. Qed.

(** Reading a whole encoded string back. *)
Lemma decode_utf8 (s : str) (bs : list N) (fuel : nat) :
  forallb is_scalar s = true -> utf8_encode s = Ok bs ->
  (List.length s <= fuel)%nat -> decode fuel bs = s.
Proof.
  revert bs fuel. induction s as [|c t IH]; intros bs fuel Hs E Hf.
  - cbn [utf8_encode] in E. injection E as <-. apply decode_nil.
  - cbn [forallb] in Hs. apply andb_prop in Hs. destruct Hs as [Hc Ht].
    cbn [utf8_encode] in E.
    destruct (utf8_encode_cp c) as [bc|] eqn:Ec; try discriminate.
    destruct (utf8_encode t) as [bt|] eqn:Et; try discriminate.
    cbn [bind] in E. injection E as <-.
    destruct fuel as [|fuel]; [simpl in Hf; lia |].
    rewrite (decode_encoded c bc bt fuel Hc Ec).
    f_equal. apply IH; try assumption; try reflexivity. simpl in Hf. lia.
Qed.

Lemma utf8_encode_injective (s1 s2 : str) (bs : list N) :
  forallb is_scalar s1 = true -> forallb is_scalar s2 = true ->
  utf8_encode s1 = Ok bs -> utf8_encode s2 = Ok bs -> s1 = s2.
Proof.
  intros H1 H2 E1 E2.
  pose proof (decode_utf8 s1 bs (Nat.max (List.length s1) (List.length s2)) H1 E1
                ltac:(lia)) as D1.
  pose proof (decode_utf8 s2 bs (Nat.max (List.length s1) (List.length s2)) H2 E2
                ltac:(lia)) as D2.
  congruence.
Qed.

(** ** The escapes *)

Lemma quote_byte_pairs :
  forallb (fun i =>
             forallb (fun j =>
                        negb (str_eqb (quote_byte (N.of_nat i)) (quote_byte (N.of_nat j)))
                        || Nat.eqb i j)
                     (seq 0 256))
          (seq 0 256) = true.
Proof. vm_compute. reflexivity. Qed.

Lemma quote_byte_injective (b1 b2 : N) :
  (b1 < 256)%N -> (b2 < 256)%N -> quote_byte b1 = quote_byte b2 -> b1 = b2.
Proof.
  intros H1 H2 E.
  pose proof quote_byte_pairs as T. rewrite forallb_forall in T.
  specialize (T (N.to_nat b1) ltac:(apply in_seq; lia)).
  rewrite forallb_forall in T.
  specialize (T (N.to_nat b2) ltac:(apply in_seq; lia)).
  rewrite !N2Nat.id, E, str_eqb_refl in T. simpl in T.
  apply Nat.eqb_eq in T. now apply N2Nat.inj.
Qed.

Lemma quote_byte_shape (b : N) :
  (always_safe b = true /\ quote_byte b = [b]) \/
  (always_safe b = false /\
   quote_byte b = [37%N; hex_digit (b / 16); hex_digit (b mod 16)]).
Proof.
  unfold quote_byte. destruct (always_safe b); [left | right]; auto.
Qed.

(** No escape is the beginning of another: what follows is determined. *)
Lemma quote_byte_prefix (b1 b2 : N) (r1 r2 : str) :
  (b1 < 256)%N -> (b2 < 256)%N ->
  quote_byte b1 ++ r1 = quote_byte b2 ++ r2 -> b1 = b2 /\ r1 = r2.
Proof.
  intros H1 H2 E.
  assert (Hq : quote_byte b1 = quote_byte b2 /\ r1 = r2).
  { destruct (quote_byte_shape b1) as [[S1 Q1] | [S1 Q1]],
             (quote_byte_shape b2) as [[S2 Q2] | [S2 Q2]];
      rewrite Q1, Q2 in *; cbn [app] in E.
    - injection E as -> ->. auto.
    - injection E as -> _. vm_compute in S1. discriminate.
    - injection E as E _. subst b2. vm_compute in S2. discriminate.
    - injection E as -> -> ->. auto. }
  destruct Hq as [Hq ->]. split; [| reflexivity].
  now apply quote_byte_injective.
Qed.

Lemma quote_injective (bs1 bs2 : list N) :
  Forall (fun b => (b < 256)%N) bs1 -> Forall (fun b => (b < 256)%N) bs2 ->
  flat_map quote_byte bs1 = flat_map quote_byte bs2 -> bs1 = bs2.
Proof.
  intros F1. revert bs2. induction F1 as [|b1 t1 Hb1 F1 IH]; intros bs2 F2 E.
  - destruct F2 as [|b2 t2 Hb2 F2]; [reflexivity |].
    cbn [flat_map] in E. destruct (quote_byte_chars b2 Hb2) as [Hne _].
    destruct (quote_byte b2); [congruence | discriminate].
  - destruct F2 as [|b2 t2 Hb2 F2].
    + cbn [flat_map] in E. destruct (quote_byte_chars b1 Hb1) as [Hne _].
      destruct (quote_byte b1); [congruence | discriminate].
    + cbn [flat_map] in E.
      destruct (quote_byte_prefix b1 b2 _ _ Hb1 Hb2 E) as [-> Er].
      f_equal. now apply IH.
Qed.

(** X16. The result determines the trimmed address: two strings of
    Unicode scalar values for which [build_naver_search_url] gives the
    same result have the same trimmed form, so different addresses never
    share a search URL. *)
Theorem build_naver_search_url_injective (s1 s2 : str) :
  forallb is_scalar s1 = true -> forallb is_scalar s2 = true ->
  build_naver_search_url (Some s1) = build_naver_search_url (Some s2) ->
  strip s1 = strip s2.
Proof.
  intros H1 H2.
  pose proof (forallb_strip is_scalar s1 H1) as T1.
  pose proof (forallb_strip is_scalar s2 H2) as T2.
  destruct (utf8_encode_scalar _ T1) as [bs1 E1].
  destruct (utf8_encode_scalar _ T2) as [bs2 E2].
  destruct (utf8_encode_bytes _ _ T1 E1) as [B1 _].
  destruct (utf8_encode_bytes _ _ T2 E2) as [B2 _].
  unfold build_naver_search_url. cbn [or_empty].
  destruct (strip s1) as [|c1 t1] eqn:S1, (strip s2) as [|c2 t2] eqn:S2;
    unfold quote; rewrite ?E1, ?E2; cbn [bind]; intros E;
    try reflexivity; try discriminate.
  injection E as E.
  apply quote_injective in E; try assumption. subst bs2.
  exact (utf8_encode_injective _ _ bs1 T1 T2 E1 E2).
Qed.

Lemma build_naver_search_url_injective_witness :
  forallb is_scalar (u " 역삼 ") = true /\ forallb is_scalar (u "역삼") = true /\
  build_naver_search_url (Some (u " 역삼 ")) = build_naver_search_url (Some (u "역삼")) /\
  strip (u " 역삼 ") = strip (u "역삼").
Proof.
  assert (H1 : forallb is_scalar (u " 역삼 ") = true) by (vm_compute; reflexivity).
  assert (H2 : forallb is_scalar (u "역삼") = true) by (vm_compute; reflexivity).
  assert (E : build_naver_search_url (Some (u " 역삼 "))
              = build_naver_search_url (Some (u "역삼"))) by (vm_compute; reflexivity).
  split; [exact H1 |]. split; [exact H2 |]. split; [exact E |].
  exact (build_naver_search_url_injective _ _ H1 H2 E).
Defined.

End SearchUrlInjective.

(** * Rounding to the nearest float *)

Module Rounding.

Import PyFloat PyStr PyNum Plotly App Spec RoundFacts FloatFacts.

(** ** Shifting a mantissa to the right *)

Lemma iter_pos_nat {A : Type} (f : A -> A) (p : positive) (x : A) :
  iter_pos f p x = Nat.iter (Pos.to_nat p) f x.
Proof.
  revert x. induction p as [p IH|p IH|]; intros x; cbn [iter_pos].
  - rewrite !IH, Pos2Nat.inj_xI.
    replace (S (2 * Pos.to_nat p))%nat
      with (Pos.to_nat p + (Pos.to_nat p + 1))%nat by lia.
    rewrite !Nat.iter_add. reflexivity.
  - rewrite !IH, Pos2Nat.inj_xO.
    replace (2 * Pos.to_nat p)%nat with (Pos.to_nat p + Pos.to_nat p)%nat by lia.
    rewrite Nat.iter_add. reflexivity.
  - reflexivity.
Qed.

Lemma shr_1_spec (m : Z) (r s : bool) :
  0 <= m ->
  shr_1 (Build_shr_record m r s) = Build_shr_record (m / 2) (Z.odd m) (r || s).
Proof.
  intros Hm. rewrite <- Z.div2_div.
  destruct m as [|[p|p|]|p]; try reflexivity. lia.
Qed.

(** After [n + 1] steps from an exact mantissa [m]: the quotient by
    [2^(n+1)], whether the remainder reaches the half, and whether
    anything lies below the half. *)
Lemma shr_iter (m : Z) (n : nat) :
  0 <= m ->
  Nat.iter (S n) shr_1 (Build_shr_record m false false)
  = Build_shr_record (m / 2 ^ Z.of_nat (S n))
                     (2 ^ Z.of_nat n <=? m mod 2 ^ Z.of_nat (S n))
                     (negb (m mod 2 ^ Z.of_nat n =? 0)).
Proof.
  intros Hm. induction n as [|n IH].
  - cbn [Nat.iter]. rewrite shr_1_spec by assumption.
    change (2 ^ Z.of_nat 1) with 2. change (2 ^ Z.of_nat 0) with 1.
    rewrite Z.mod_1_r. cbn [orb negb Z.eqb]. f_equal.
    rewrite Zmod_odd. destruct (Z.odd m); reflexivity.
  - change (Nat.iter (S (S n)) shr_1 (Build_shr_record m false false))
      with (shr_1 (Nat.iter (S n) shr_1 (Build_shr_record m false false))).
    rewrite IH.
    assert (Hp : 0 < 2 ^ Z.of_nat n) by (apply Z.pow_pos_nonneg; lia).
    assert (E1 : 2 ^ Z.of_nat (S n) = 2 ^ Z.of_nat n * 2).
    { rewrite Nat2Z.inj_succ, Z.pow_succ_r by lia. lia. }
    assert (E2 : 2 ^ Z.of_nat (S (S n)) = 2 ^ Z.of_nat (S n) * 2).
    { rewrite (Nat2Z.inj_succ (S n)), Z.pow_succ_r by lia. lia. }
    assert (Hq : 0 <= m / 2 ^ Z.of_nat (S n)).
    { apply Z.div_pos; lia. }
    rewrite shr_1_spec by assumption.
    f_equal.
    + rewrite E2, Z.div_div by lia. reflexivity.
    + rewrite E2, Z.rem_mul_r by lia.
      pose proof (Z.mod_pos_bound m (2 ^ Z.of_nat (S n)) ltac:(lia)) as B.
      rewrite (Zmod_odd (m / 2 ^ Z.of_nat (S n))).
      destruct (Z.odd (m / 2 ^ Z.of_nat (S n))).
      * symmetry. apply Z.leb_le. lia.
      * symmetry. apply Z.leb_gt. lia.
    + rewrite E1, Z.rem_mul_r by lia.
      pose proof (Z.mod_pos_bound m (2 ^ Z.of_nat n) ltac:(lia)) as B.
      pose proof (Z.mod_pos_bound (m / 2 ^ Z.of_nat n) 2 ltac:(lia)) as B2.
      set (lo := m mod 2 ^ Z.of_nat n) in *.
      set (b := (m / 2 ^ Z.of_nat n) mod 2) in *.
      set (P := 2 ^ Z.of_nat n) in *.
      assert (Hb : b = 0 \/ b = 1) by lia.
      clearbody lo b P.
      destruct Hb; subst b; rewrite ?Z.mul_0_r, ?Z.mul_1_r, ?Z.add_0_r;
        destruct (Z.eqb_spec lo 0) as [E0|E0];
        destruct (Z.leb_spec P lo) as [L|L];
        try destruct (Z.leb_spec P (lo + P)) as [L'|L'];
        try destruct (Z.eqb_spec (lo + P) 0) as [E3|E3];
        cbn [negb orb]; try reflexivity; exfalso; lia.
Qed.

(** Rounding to nearest even after a shift by [p] bits is the rounded
    quotient by [2^p]. *)
Lemma round_shifted (m : Z) (p : positive) :
  0 <= m ->
  round_nearest_even
    (shr_m (iter_pos shr_1 p (Build_shr_record m false false)))
    (loc_of_shr_record (iter_pos shr_1 p (Build_shr_record m false false)))
  = div_half_even m (2 ^ Zpos p).
Proof.
  intros Hm. rewrite iter_pos_nat.
  destruct (Pos2Nat.is_succ p) as [n Hn]. rewrite Hn.
  rewrite shr_iter by assumption.
  assert (Ep : Z.of_nat (S n) = Zpos p) by (rewrite <- Hn; apply positive_nat_Z).
  rewrite Ep.
  assert (Hh : 0 < 2 ^ Z.of_nat n) by (apply Z.pow_pos_nonneg; lia).
  assert (E1 : 2 ^ Zpos p = 2 ^ Z.of_nat n * 2).
  { rewrite <- Ep, Nat2Z.inj_succ, Z.pow_succ_r by lia. lia. }
  unfold div_half_even. cbn [shr_m loc_of_shr_record].
  set (q := m / 2 ^ Zpos p).
  assert (R : m mod 2 ^ Zpos p
              = m mod 2 ^ Z.of_nat n + 2 ^ Z.of_nat n * ((m / 2 ^ Z.of_nat n) mod 2)).
  { rewrite E1, Z.rem_mul_r by lia. reflexivity. }
  pose proof (Z.mod_pos_bound m (2 ^ Z.of_nat n) ltac:(lia)) as B.
  pose proof (Z.mod_pos_bound (m / 2 ^ Z.of_nat n) 2 ltac:(lia)) as B2.
  rewrite R, E1.
  set (lo := m mod 2 ^ Z.of_nat n) in *.
  set (b := (m / 2 ^ Z.of_nat n) mod 2) in *.
  set (P := 2 ^ Z.of_nat n) in *.
  assert (Hb : b = 0 \/ b = 1) by lia.
  clearbody lo b P q.
  destruct Hb; subst b; rewrite ?Z.mul_0_r, ?Z.mul_1_r, ?Z.add_0_r;
    try destruct (Z.leb_spec P lo) as [L|L];
    try destruct (Z.leb_spec P (lo + P)) as [L'|L'];
    destruct (Z.eqb_spec lo 0) as [E0|E0]; cbn [negb round_nearest_even];
    try destruct (Z.compare_spec (2 * lo) (P * 2)) as [C|C|C];
    try destruct (Z.compare_spec (2 * (lo + P)) (P * 2)) as [C'|C'|C'];
    try reflexivity; exfalso; lia.
Qed.


(** ** The rounded quotient *)

Lemma div_half_even_bounds (a b : Z) :
  0 < b -> a / b <= div_half_even a b <= a / b + 1.
Proof.
  intros Hb. unfold div_half_even.
  destruct (2 * (a mod b) ?= b); [destruct (Z.even (a / b)) | |]; lia.
Qed.

Lemma div_half_even_error (a b : Z) :
  0 < b -> 2 * Z.abs (div_half_even a b * b - a) <= b.
Proof.
  intros Hb. unfold div_half_even.
  pose proof (Z.div_mod a b ltac:(lia)) as E.
  pose proof (Z.mod_pos_bound a b Hb) as B.
  destruct (Z.compare_spec (2 * (a mod b)) b) as [C|C|C];
    [destruct (Z.even (a / b)) | |]; nia.
Qed.

Lemma div_half_even_exact (a b : Z) :
  0 < b -> (b | a) -> div_half_even a b * b = a.
Proof.
  intros Hb [c Hc]. unfold div_half_even. subst a.
  rewrite Z.mod_mul, Z.div_mul by lia.
  destruct (Z.compare_spec (2 * 0) b); lia.
Qed.

(** A number within half a step of an even multiple rounds to it. *)
Lemma div_half_even_near (a b c : Z) :
  0 < b -> 2 * Z.abs (a - c * b) <= b -> Z.even c = true ->
  div_half_even a b = c.
Proof.
  intros Hb Hn Hc. unfold div_half_even.
  destruct (Z_le_gt_dec (c * b) a) as [G|G].
  - assert (Q : a / b = c).
    { symmetry. apply (Z.div_unique a b c (a - c * b)); lia. }
    assert (R : a mod b = a - c * b).
    { symmetry. apply (Z.mod_unique a b c (a - c * b)); lia. }
    rewrite Q, R, Hc.
    destruct (Z.compare_spec (2 * (a - c * b)) b); try reflexivity; lia.
  - assert (Q : a / b = c - 1).
    { symmetry. apply (Z.div_unique a b (c - 1) (a - (c - 1) * b)); lia. }
    assert (R : a mod b = a - (c - 1) * b).
    { symmetry. apply (Z.mod_unique a b (c - 1) (a - (c - 1) * b)); lia. }
    rewrite Q, R.
    assert (Ho : Z.even (c - 1) = false).
    { rewrite Z.even_sub, Hc. reflexivity. }
    rewrite Ho.
    destruct (Z.compare_spec (2 * (a - (c - 1) * b)) b); try lia.
Qed.

(** ** Digits and alignment *)

Lemma Zdigits2_unique (m d : Z) :
  0 < m -> 2 ^ (d - 1) <= m < 2 ^ d -> Zdigits2 m = d.
Proof.
  intros Hm [L U].
  destruct (Zdigits2_bounds m Hm) as [L' U'].
  pose proof (Zdigits2_pos m Hm) as P.
  assert (Hd : 0 < d).
  { destruct (Z_lt_le_dec 0 d) as [G|G]; [exact G |].
    assert (2 ^ d <= 1); [| lia].
    destruct d as [|p|p]; [simpl; lia | lia | simpl; lia]. }
  destruct (Z.lt_trichotomy (Zdigits2 m) d) as [G | [G | G]]; [| exact G |].
  - assert (2 ^ Zdigits2 m <= 2 ^ (d - 1)) by (apply Z.pow_le_mono_r; lia). lia.
  - assert (2 ^ d <= 2 ^ (Zdigits2 m - 1)) by (apply Z.pow_le_mono_r; lia). lia.
Qed.

Lemma iter_xO_mul (m d : positive) :
  Zpos (Pos.iter xO m d) = Zpos m * 2 ^ Zpos d.
Proof.
  induction d as [|d IH] using Pos.peano_ind.
  - simpl. lia.
  - rewrite Pos.iter_succ, Pos2Z.inj_xO, IH, Pos2Z.inj_succ, Z.pow_succ_r by lia.
    lia.
Qed.

(** Aligning to a smaller exponent multiplies the mantissa. *)
Lemma shl_align_value (m : positive) (e e' : Z) :
  e' <= e ->
  shl_align m e e' = (Z.to_pos (Zpos m * 2 ^ (e - e')), if e' =? e then e else e').
Proof.
  intros H. unfold shl_align. destruct (e' - e) as [|p|p] eqn:D.
  - assert (e' = e) by lia. subst e'. rewrite Z.sub_diag, Z.eqb_refl.
    simpl (2 ^ 0). rewrite Z.mul_1_r. reflexivity.
  - lia.
  - replace (e - e') with (Zpos p) by lia.
    rewrite <- iter_xO_mul. cbn [Z.to_pos].
    destruct (Z.eqb_spec e' e); [lia | reflexivity].
Qed.

Lemma shl_align_fst (m : positive) (e e' : Z) :
  e' <= e ->
  Zpos (fst (shl_align m e e')) = Zpos m * 2 ^ (e - e').
Proof.
  intros H. rewrite shl_align_value by assumption. cbn [fst].
  assert (0 < 2 ^ (e - e')) by (apply Z.pow_pos_nonneg; lia).
  rewrite Z2Pos.id by lia. reflexivity.
Qed.

(** ** Rounding a mantissa and an exponent *)

(** A mantissa at its canonical exponent is left as it is. *)
Lemma binary_round_aux_canonical (s : bool) (m : positive) (e : Z) :
  fexp prec emax (Zpos (digits2_pos m) + e) = e -> e <= 971 ->
  binary_round_aux prec emax s (Zpos m) e loc_Exact = S754_finite s m e.
Proof.
  intros Hc He. unfold binary_round_aux, shr_fexp.
  cbn [Zdigits2]. rewrite Hc, Z.sub_diag.
  cbn [shr shr_record_of_loc shr_m loc_of_shr_record round_nearest_even Zdigits2].
  rewrite Hc, Z.sub_diag.
  cbn [shr shr_record_of_loc shr_m].
  change (emax - prec) with 971.
  destruct (Z.leb_spec e 971); [reflexivity | lia].
Qed.

(** A short mantissa is shifted to the left: the value is kept. *)
Lemma binary_round_left (s : bool) (m : positive) (e fe : Z) :
  fe = Zpos (digits2_pos m) + e - 53 -> -1074 <= fe -> fe <= e -> fe <= 971 ->
  binary_round prec emax s m e
  = S754_finite s (Z.to_pos (Zpos m * 2 ^ (e - fe))) fe.
Proof.
  intros Hfe Hlo Hle Hhi. unfold binary_round.
  assert (Hx : fexp prec emax (Zpos (digits2_pos m) + e) = fe).
  { rewrite fexp_eq. lia. }
  rewrite Hx, shl_align_value by assumption.
  destruct (Z.eqb_spec fe e) as [E|E].
  - subst e. rewrite Z.sub_diag. simpl (2 ^ 0). rewrite Z.mul_1_r.
    cbn [Z.to_pos]. apply binary_round_aux_canonical; [| lia].
    rewrite <- Hx at 2. reflexivity.
  - assert (Hp : 0 < 2 ^ (e - fe)) by (apply Z.pow_pos_nonneg; lia).
    remember (Z.to_pos (Zpos m * 2 ^ (e - fe))) as mz eqn:Emz.
    assert (Vz : Zpos mz = Zpos m * 2 ^ (e - fe)).
    { subst mz. rewrite Z2Pos.id by lia. reflexivity. }
    apply binary_round_aux_canonical; [| lia].
    assert (Dz : Zpos (digits2_pos mz) = Zpos (digits2_pos m) + (e - fe)).
    { change (Zpos (digits2_pos mz)) with (Zdigits2 (Zpos mz)).
      apply Zdigits2_unique; [lia |].
      destruct (digits2_pos_bounds m) as [L U]. rewrite Vz.
      replace (Zpos (digits2_pos m) + (e - fe) - 1)
        with (Zpos (digits2_pos m) - 1 + (e - fe)) by lia.
      rewrite !Z.pow_add_r by lia. split; nia. }
    rewrite Dz, fexp_eq. lia.
Qed.

(** A long mantissa is shifted to the right and rounded; a carry out of
    the 53 bits moves the result to the next exponent. *)
Lemma binary_round_right (s : bool) (m : positive) (e fe : Z) :
  fe = Zpos (digits2_pos m) + e - 53 -> -1074 <= fe -> e < fe -> fe < 971 ->
  binary_round prec emax s m e
  = if div_half_even (Zpos m) (2 ^ (fe - e)) <? 2 ^ 53
    then S754_finite s (Z.to_pos (div_half_even (Zpos m) (2 ^ (fe - e)))) fe
    else S754_finite s (Z.to_pos (2 ^ 52)) (fe + 1).
Proof.
  intros Hfe Hlo Hlt Hhi. unfold binary_round.
  assert (Hx : fexp prec emax (Zpos (digits2_pos m) + e) = fe).
  { rewrite fexp_eq. lia. }
  rewrite Hx. unfold shl_align.
  destruct (fe - e) as [|p|p] eqn:D; try lia.
  unfold binary_round_aux, shr_fexp. cbn [Zdigits2]. rewrite Hx, D.
  cbn [shr shr_record_of_loc].
  rewrite round_shifted by lia.
  set (q := div_half_even (Zpos m) (2 ^ Zpos p)).
  assert (Hp : 0 < 2 ^ Zpos p) by (apply Z.pow_pos_nonneg; lia).
  pose proof (div_half_even_bounds (Zpos m) (2 ^ Zpos p) Hp) as Bq. fold q in Bq.
  destruct (digits2_pos_bounds m) as [L U].
  assert (Dm : Zpos (digits2_pos m) = 53 + Zpos p) by lia.
  assert (Q1 : 2 ^ 52 <= Zpos m / 2 ^ Zpos p).
  { apply Z.div_le_lower_bound; [lia |].
    rewrite Dm in L. replace (53 + Zpos p - 1) with (Zpos p + 52) in L by lia.
    rewrite Z.pow_add_r in L by lia. lia. }
  assert (Q2 : Zpos m / 2 ^ Zpos p < 2 ^ 53).
  { apply Z.div_lt_upper_bound; [lia |].
    rewrite Dm in U. replace (53 + Zpos p) with (Zpos p + 53) in U by lia.
    rewrite Z.pow_add_r in U by lia. lia. }
  replace (e + Zpos p) with fe by lia.
  destruct (Z.ltb_spec q (2 ^ 53)) as [G|G].
  - assert (Dq : Zdigits2 q = 53).
    { apply Zdigits2_unique; [| change (53 - 1) with 52]; lia. }
    rewrite Dq. replace (fexp prec emax (53 + fe) - fe) with 0
      by (rewrite fexp_eq; lia).
    cbn [shr shr_m].
    destruct q as [|qp|qp] eqn:Eq; try lia.
    change (emax - prec) with 971.
    destruct (Z.leb_spec fe 971); [reflexivity | lia].
  - assert (Eq : q = 2 ^ 53) by lia. rewrite Eq.
    change (Zdigits2 (2 ^ 53)) with 54.
    replace (fexp prec emax (54 + fe) - fe) with 1 by (rewrite fexp_eq; lia).
    cbn [shr]. change (emax - prec) with 971.
    destruct (Z.leb_spec (fe + 1) 971); [reflexivity | lia].
Qed.


(** ** Rounding an integer multiple of a power of two

    The value [D * 2^E] is rounded to a float of the normal range: the
    float is within half a unit of its last place, and equal to the value
    when the value fits. Values are compared in units of [2^-1074]. *)
Lemma binary_normalize_error (D E : Z) :
  D <> 0 -> -1074 <= E ->
  -1074 <= Zdigits2 D + E - 53 < 971 ->
  exists ms es,
    binary_normalize prec emax D E false = S754_finite (D <? 0) ms es /\
    Zdigits2 D + E - 53 <= es /\
    2 * Z.abs (Zpos ms * 2 ^ (es + 1074) - Z.abs D * 2 ^ (E + 1074))
    <= 2 ^ (Zdigits2 D + E - 53 + 1074) /\
    (Zdigits2 D + E - 53 <= E \/ (2 ^ (Zdigits2 D + E - 53 - E) | D) ->
     Zpos ms * 2 ^ (es + 1074) = Z.abs D * 2 ^ (E + 1074)).
Proof.
  intros HD HE Hfe.
  assert (G : forall (sg : bool) (m : positive),
             Zdigits2 D = Zpos (digits2_pos m) -> Z.abs D = Zpos m ->
             exists ms es,
               binary_round prec emax sg m E = S754_finite sg ms es /\
               Zdigits2 D + E - 53 <= es /\
               2 * Z.abs (Zpos ms * 2 ^ (es + 1074) - Z.abs D * 2 ^ (E + 1074))
               <= 2 ^ (Zdigits2 D + E - 53 + 1074) /\
               (Zdigits2 D + E - 53 <= E \/ (2 ^ (Zdigits2 D + E - 53 - E) | D) ->
                Zpos ms * 2 ^ (es + 1074) = Z.abs D * 2 ^ (E + 1074))).
  { intros sg m Hd Ha. rewrite Ha.
    set (fe := Zdigits2 D + E - 53) in *.
    assert (Hfe' : fe = Zpos (digits2_pos m) + E - 53) by (subst fe; lia).
    assert (PE : 0 < 2 ^ (E + 1074)) by (apply Z.pow_pos_nonneg; lia).
    assert (PF : 0 < 2 ^ (fe + 1074)) by (apply Z.pow_pos_nonneg; lia).
    destruct (Z_le_gt_dec fe E) as [L|L].
    - rewrite (binary_round_left sg m E fe Hfe') by lia.
      assert (Hp : 0 < 2 ^ (E - fe)) by (apply Z.pow_pos_nonneg; lia).
      assert (V : Zpos (Z.to_pos (Zpos m * 2 ^ (E - fe))) * 2 ^ (fe + 1074)
                  = Zpos m * 2 ^ (E + 1074)).
      { rewrite Z2Pos.id by lia.
        replace (E + 1074) with ((E - fe) + (fe + 1074)) by lia.
        rewrite (Z.pow_add_r 2 (E - fe) (fe + 1074)) by lia. ring. }
      eexists; eexists. split; [reflexivity |]. split; [lia |].
      rewrite V, Z.sub_diag. cbn [Z.abs]. split; [lia | reflexivity].
    - rewrite (binary_round_right sg m E fe Hfe') by lia.
      assert (Hp : 0 < 2 ^ (fe - E)) by (apply Z.pow_pos_nonneg; lia).
      pose proof (div_half_even_error (Zpos m) (2 ^ (fe - E)) Hp) as Er.
      pose proof (div_half_even_bounds (Zpos m) (2 ^ (fe - E)) Hp) as Bq.
      set (q := div_half_even (Zpos m) (2 ^ (fe - E))) in *.
      assert (S : 2 ^ (fe + 1074) = 2 ^ (fe - E) * 2 ^ (E + 1074)).
      { rewrite <- Z.pow_add_r by lia. f_equal. lia. }
      destruct (digits2_pos_bounds m) as [Lm Um].
      assert (Dm : Zpos (digits2_pos m) = 53 + (fe - E)) by lia.
      assert (Q1 : 2 ^ 52 <= Zpos m / 2 ^ (fe - E)).
      { apply Z.div_le_lower_bound; [lia |].
        rewrite Dm in Lm. replace (53 + (fe - E) - 1) with ((fe - E) + 52) in Lm by lia.
        rewrite Z.pow_add_r in Lm by lia. lia. }
      assert (Q2 : Zpos m / 2 ^ (fe - E) < 2 ^ 53).
      { apply Z.div_lt_upper_bound; [lia |].
        rewrite Dm in Um. replace (53 + (fe - E)) with ((fe - E) + 53) in Um by lia.
        rewrite Z.pow_add_r in Um by lia. lia. }
      assert (V : forall ms es,
                 Zpos ms * 2 ^ (es + 1074) = q * 2 ^ (fe + 1074) ->
                 2 * Z.abs (Zpos ms * 2 ^ (es + 1074) - Zpos m * 2 ^ (E + 1074))
                 <= 2 ^ (fe + 1074) /\
                 (fe <= E \/ (2 ^ (fe - E) | D) ->
                  Zpos ms * 2 ^ (es + 1074) = Zpos m * 2 ^ (E + 1074))).
      { intros ms es Hv. rewrite Hv, S. split.
        - replace (q * (2 ^ (fe - E) * 2 ^ (E + 1074)) - Zpos m * 2 ^ (E + 1074))
            with ((q * 2 ^ (fe - E) - Zpos m) * 2 ^ (E + 1074)) by ring.
          rewrite Z.abs_mul, (Z.abs_eq (2 ^ (E + 1074))) by lia.
          rewrite Z.mul_assoc. apply Z.mul_le_mono_nonneg_r; lia.
        - intros [C|C]; [lia |].
          assert (C' : (2 ^ (fe - E) | Zpos m)).
          { rewrite <- Ha. apply Z.divide_abs_r. exact C. }
          pose proof (div_half_even_exact (Zpos m) (2 ^ (fe - E)) Hp C') as X.
          fold q in X. rewrite Z.mul_assoc, X. reflexivity. }
      destruct (Z.ltb_spec q (2 ^ 53)) as [Gq|Gq].
      + eexists; eexists. split; [reflexivity |]. split; [lia |].
        apply V. rewrite Z2Pos.id by lia. reflexivity.
      + eexists; eexists. split; [reflexivity |]. split; [lia |].
        apply V. assert (Eq : q = 2 ^ 53) by lia. rewrite Eq.
        replace (fe + 1 + 1074) with (1 + (fe + 1074)) by lia.
        rewrite (Z.pow_add_r 2 1 (fe + 1074)) by lia.
        change (Zpos (Z.to_pos (2 ^ 52))) with (2 ^ 52).
        change (2 ^ 53) with (2 ^ 52 * 2 ^ 1). ring. }
  destruct D as [|m|m]; [congruence | |].
  - exact (G false m eq_refl eq_refl).
  - exact (G true m eq_refl eq_refl).
Qed.

(** A value within [2^-47] of 100 rounds to 100. *)
Lemma binary_normalize_100 (M E : Z) :
  -1074 <= E ->
  2 * Z.abs (M * 2 ^ (E + 1074) - 100 * 2 ^ 1074) <= 2 ^ 1028 ->
  binary_normalize prec emax M E false = of_Z 100.
Proof.
  intros HE Hn.
  assert (PE : 0 < 2 ^ (E + 1074)) by (apply Z.pow_pos_nonneg; lia).
  assert (C100 : 100 * 2 ^ 1074 = 7036874417766400 * 2 ^ 1028) by reflexivity.
  assert (HM : 0 < M).
  { assert (0 < M * 2 ^ (E + 1074)); [| nia].
    assert (2 ^ 1028 < 100 * 2 ^ 1074) by reflexivity. lia. }
  destruct M as [|m|m]; try lia. cbn [binary_normalize].
  change (of_Z 100) with (S754_finite false 7036874417766400 (-46)).
  destruct (Z_le_gt_dec (-46) E) as [L|L].
  - (* the value is a multiple of 2^-46: it is 100 *)
    assert (S : 2 ^ (E + 1074) = 2 ^ (E + 46) * 2 ^ 1028).
    { rewrite <- Z.pow_add_r by lia. f_equal. lia. }
    assert (P46 : 0 < 2 ^ (E + 46)) by (apply Z.pow_pos_nonneg; lia).
    assert (V : Zpos m * 2 ^ (E + 46) = 7036874417766400).
    { rewrite S, C100, Z.mul_assoc, <- Z.mul_sub_distr_r in Hn.
      rewrite Z.abs_mul, (Z.abs_eq (2 ^ 1028)) in Hn by (apply Z.pow_nonneg; lia).
      assert (P : 0 < 2 ^ 1028) by reflexivity.
      assert (2 * Z.abs (Zpos m * 2 ^ (E + 46) - 7036874417766400) <= 1) by nia.
      lia. }
    assert (Dg : Zpos (digits2_pos m) = 7 - E).
    { change (Zpos (digits2_pos m)) with (Zdigits2 (Zpos m)).
      assert (E < 7).
      { destruct (Z_lt_le_dec E 7) as [G|G]; [exact G |].
        assert (2 ^ 53 <= 2 ^ (E + 46)) by (apply Z.pow_le_mono_r; lia).
        assert (2 ^ 53 = 9007199254740992) by reflexivity. nia. }
      apply Zdigits2_unique; [lia |].
      assert (A : 2 ^ (7 - E - 1) * 2 ^ (E + 46) = 2 ^ 52).
      { rewrite <- Z.pow_add_r by lia. f_equal. lia. }
      assert (B : 2 ^ (7 - E) * 2 ^ (E + 46) = 2 ^ 53).
      { rewrite <- Z.pow_add_r by lia. f_equal. lia. }
      assert (2 ^ 52 = 4503599627370496) by reflexivity.
      assert (2 ^ 53 = 9007199254740992) by reflexivity.
      split; nia. }
    rewrite (binary_round_left false m E (-46)) by lia.
    replace (E - -46) with (E + 46) by lia. rewrite V. reflexivity.
  - (* the value is rounded at 2^-46 *)
    assert (Hk : 0 < 2 ^ (-46 - E)) by (apply Z.pow_pos_nonneg; lia).
    assert (S : 2 ^ 1028 = 2 ^ (-46 - E) * 2 ^ (E + 1074)).
    { rewrite <- Z.pow_add_r by lia. f_equal. lia. }
    assert (N : 2 * Z.abs (Zpos m - 7036874417766400 * 2 ^ (-46 - E))
                <= 2 ^ (-46 - E)).
    { rewrite C100, S in Hn.
      replace (Zpos m * 2 ^ (E + 1074)
               - 7036874417766400 * (2 ^ (-46 - E) * 2 ^ (E + 1074)))
        with ((Zpos m - 7036874417766400 * 2 ^ (-46 - E)) * 2 ^ (E + 1074))
        in Hn by ring.
      rewrite Z.abs_mul, (Z.abs_eq (2 ^ (E + 1074))) in Hn by lia.
      rewrite Z.mul_assoc in Hn.
      apply Z.mul_le_mono_pos_r in Hn; assumption. }
    assert (Dg : Zpos (digits2_pos m) = 53 + (-46 - E)).
    { change (Zpos (digits2_pos m)) with (Zdigits2 (Zpos m)).
      apply Zdigits2_unique; [lia |].
      replace (53 + (-46 - E) - 1) with (52 + (-46 - E)) by lia.
      rewrite !Z.pow_add_r by lia.
      assert (2 ^ 52 = 4503599627370496) by reflexivity.
      assert (2 ^ 53 = 9007199254740992) by reflexivity.
      split; lia. }
    rewrite (binary_round_right false m E (-46)) by lia.
    rewrite (div_half_even_near (Zpos m) (2 ^ (-46 - E)) 7036874417766400 Hk N eq_refl).
    reflexivity.
Qed.

(** ** Sums and differences of finite floats *)

Lemma add_finite (sx : bool) (mx : positive) (ex : Z)
                 (sy : bool) (my : positive) (ey : Z) :
  PyFloat.add (S754_finite sx mx ex) (S754_finite sy my ey)
  = binary_normalize prec emax
      (cond_Zopp sx (Zpos mx * 2 ^ (ex - Z.min ex ey))
       + cond_Zopp sy (Zpos my * 2 ^ (ey - Z.min ex ey)))
      (Z.min ex ey) false.
Proof.
  unfold PyFloat.add. cbn [SFadd].
  rewrite !shl_align_fst by lia. reflexivity.
Qed.

Lemma sub_finite (sx : bool) (mx : positive) (ex : Z)
                 (sy : bool) (my : positive) (ey : Z) :
  PyFloat.sub (S754_finite sx mx ex) (S754_finite sy my ey)
  = binary_normalize prec emax
      (cond_Zopp sx (Zpos mx * 2 ^ (ex - Z.min ex ey))
       - cond_Zopp sy (Zpos my * 2 ^ (ey - Z.min ex ey)))
      (Z.min ex ey) false.
Proof.
  unfold PyFloat.sub. cbn [SFsub].
  rewrite !shl_align_fst by lia. reflexivity.
Qed.

End Rounding.

(** * The two segments of the chart *)

Module Segments.

Import PyFloat PyStr PyNum Plotly App Spec.
Import RoundFacts FloatFacts RatioFacts DonutChart RiskOrder Rounding.

Lemma pow2_divide (a b : Z) : 0 <= a <= b -> (2 ^ a | 2 ^ b).
Proof.
  intros H. exists (2 ^ (b - a)). rewrite <- Z.pow_add_r by lia. f_equal. lia.
Qed.

Lemma Zdigits2_abs (x : Z) : Zdigits2 (Z.abs x) = Zdigits2 x.
Proof. destruct x; reflexivity. Qed.

Lemma Zdigits2_le_abs (x j : Z) : 0 <= j -> Z.abs x < 2 ^ j -> Zdigits2 x <= j.
Proof.
  intros Hj H. rewrite <- Zdigits2_abs. apply Zdigits2_le_of_lt; lia.
Qed.

Lemma Zdigits2_ge (x j : Z) : 0 <= j -> 2 ^ j <= x -> j < Zdigits2 x.
Proof.
  intros Hj H. assert (Hx : 0 < x).
  { assert (0 < 2 ^ j) by (apply Z.pow_pos_nonneg; lia). lia. }
  destruct (Zdigits2_bounds x Hx) as [_ U].
  destruct (Z_lt_le_dec j (Zdigits2 x)) as [G|G]; [exact G |].
  assert (2 ^ Zdigits2 x <= 2 ^ j) by (apply Z.pow_le_mono_r; lia). lia.
Qed.

Lemma cond_Zopp_mul (s : bool) (a b : Z) : cond_Zopp s a * b = cond_Zopp s (a * b).
Proof. destruct s; cbn [cond_Zopp]; lia. Qed.

Lemma cond_Zopp_abs (D : Z) : cond_Zopp (D <? 0) (Z.abs D) = D.
Proof. destruct (Z.ltb_spec D 0); cbn [cond_Zopp]; lia. Qed.

Lemma mantissa_lt (m : positive) (e : Z) :
  bounded prec emax m e = true -> Zpos m < 2 ^ 53.
Proof.
  intros Hb. destruct (canonical_facts m e Hb) as (_ & Hd & _).
  destruct (digits2_pos_bounds m) as [_ U].
  assert (2 ^ Zpos (digits2_pos m) <= 2 ^ 53) by (apply Z.pow_le_mono_r; lia).
  lia.
Qed.

Lemma mantissa_ge (m : positive) (e : Z) :
  bounded prec emax m e = true -> -1074 < e -> 2 ^ 52 <= Zpos m.
Proof.
  intros Hb He. destruct (canonical_facts m e Hb) as (_ & _ & [Hn | Hn]); [lia |].
  destruct (digits2_pos_bounds m) as [L _]. rewrite Hn in L. exact L.
Qed.

(** The difference [100 - r] for a float [0 < r <= 2^55 + 96], as the
    integer [D] in units of [2^ez]: where it does not fit a float it is
    still below 128, so that its rounding error is at most [2^-47]; from
    64 on it always fits. *)
Lemma difference_fits (m : positive) (e : Z) :
  bounded prec emax m e = true ->
  Zpos m * 2 ^ (e + 1074) <= (2 ^ 55 + 96) * 2 ^ 1074 ->
  let ez := Z.min (-46) e in
  let D := 7036874417766400 * 2 ^ (-46 - ez) - Zpos m * 2 ^ (e - ez) in
  D <> 0 ->
  -1074 <= Zdigits2 D + ez - 53 < 971 /\
  (Zdigits2 D + ez - 53 <= -46 \/
   Zdigits2 D + ez - 53 <= ez \/ (2 ^ (Zdigits2 D + ez - 53 - ez) | D)) /\
  (-46 <= e ->
   Zdigits2 D + ez - 53 <= ez \/ (2 ^ (Zdigits2 D + ez - 53 - ez) | D)).
Proof.
  intros Hb Hle ez D HD.
  destruct (canonical_facts m e Hb) as (He & _ & _).
  pose proof (mantissa_lt m e Hb) as Hm.
  assert (C53 : 2 ^ 53 = 9007199254740992) by reflexivity.
  assert (C52 : 2 ^ 52 = 4503599627370496) by reflexivity.
  destruct (Z_le_gt_dec e (-47)) as [Le|Ge].
  - (* r < 64: the difference lies between 36 and 100 *)
    assert (Ez : ez = e) by (subst ez; lia).
    subst D. rewrite Ez in *. rewrite Z.sub_diag in *.
    change (2 ^ 0) with 1 in *. rewrite Z.mul_1_r in *.
    set (D := 7036874417766400 * 2 ^ (-46 - e) - Zpos m) in *.
    assert (P2 : 2 ^ 1 <= 2 ^ (-46 - e)) by (apply Z.pow_le_mono_r; lia).
    change (2 ^ 1) with 2 in P2.
    assert (L : 2 ^ 52 <= D) by (subst D; lia).
    assert (U : D < 2 ^ (7 - e)).
    { replace (7 - e) with (53 + (-46 - e)) by lia.
      rewrite Z.pow_add_r by lia. subst D. nia. }
    pose proof (Zdigits2_ge D 52 ltac:(lia) L) as G1.
    pose proof (Zdigits2_le_of_lt D (7 - e) ltac:(lia) ltac:(lia) U) as G2.
    split; [lia |]. split; [left; lia | intros; lia].
  - (* 64 <= r: the difference is a multiple of 2^-46 *)
    assert (Ez : ez = -46) by (subst ez; lia).
    subst D. rewrite Ez in *. change (-46 - -46) with 0 in *.
    change (2 ^ 0) with 1 in *. rewrite Z.mul_1_r in *.
    replace (e - -46) with (e + 46) in * by lia.
    set (D := 7036874417766400 - Zpos m * 2 ^ (e + 46)) in *.
    assert (He3 : e <= 3).
    { destruct (Z_le_gt_dec e 3) as [G|G]; [exact G |].
      pose proof (mantissa_ge m e Hb ltac:(lia)) as Lm.
      assert (2 ^ (4 + 1074) <= 2 ^ (e + 1074)) by (apply Z.pow_le_mono_r; lia).
      assert (K : 2 ^ (4 + 1074) = 16 * 2 ^ 1074) by reflexivity.
      assert (P : 0 < 2 ^ 1074) by reflexivity.
      assert (2 ^ 55 + 96 < 2 ^ 52 * 16) by reflexivity.
      nia. }
    assert (P46 : 0 < 2 ^ (e + 46)) by (apply Z.pow_pos_nonneg; lia).
    assert (P49 : 2 ^ (e + 46) <= 2 ^ 49) by (apply Z.pow_le_mono_r; lia).
    assert (C49 : 2 ^ 49 = 562949953421312) by reflexivity.
    assert (A102 : Z.abs D < 2 ^ 102).
    { assert (2 ^ 102 = 9007199254740992 * 562949953421312) by reflexivity.
      subst D. nia. }
    pose proof (Zdigits2_le_abs D 102 ltac:(lia) A102) as G2.
    assert (G1 : 0 < Zdigits2 D).
    { rewrite <- Zdigits2_abs. apply Zdigits2_pos. lia. }
    split; [lia |].
    assert (X : Zdigits2 D + -46 - 53 <= -46 \/
                (2 ^ (Zdigits2 D + -46 - 53 - -46) | D)).
    { destruct (Z_le_gt_dec (Zdigits2 D + -46 - 53) (-46)) as [F|F]; [left; exact F |].
      right.
      assert (Dneg : D < 0).
      { destruct (Z_lt_le_dec D 0) as [N|N]; [exact N |]. exfalso.
        assert (Z.abs D < 2 ^ 53) by (subst D; lia).
        pose proof (Zdigits2_le_abs D 53 ltac:(lia) H). lia. }
      destruct (Z_le_gt_dec e 2) as [E2|E2].
      + (* both terms are multiples of 2^(e+46) *)
        assert (Dv : (2 ^ (e + 46) | D)).
        { exists (7036874417766400 / 2 ^ (e + 46) - Zpos m).
          assert (Hd : (2 ^ (e + 46) | 7036874417766400)).
          { apply (Z.divide_trans _ (2 ^ 48)); [apply pow2_divide; lia |].
            exists 25. reflexivity. }
          apply Z.divide_div_mul_exact with (c := 1) in Hd; [| lia].
          rewrite Z.mul_sub_distr_r.
          rewrite (Z.mul_comm (7036874417766400 / 2 ^ (e + 46))).
          rewrite <- Z.divide_div_mul_exact; [| lia | ].
          2:{ apply (Z.divide_trans _ (2 ^ 48)); [apply pow2_divide; lia |].
              exists 25. reflexivity. }
          rewrite (Z.mul_comm (2 ^ (e + 46))), Z.div_mul by lia.
          subst D. reflexivity. }
        assert (Ad : Z.abs D < 2 ^ (53 + (e + 46))).
        { rewrite Z.pow_add_r by lia. subst D. nia. }
        pose proof (Zdigits2_le_abs D (53 + (e + 46)) ltac:(lia) Ad) as G3.
        apply (Z.divide_trans _ (2 ^ (e + 46))); [apply pow2_divide; lia | exact Dv].
      + (* e = 3: the mantissa is at most 2^52 + 12 *)
        assert (E3 : e = 3) by lia. subst e.
        change (2 ^ (3 + 46)) with 562949953421312 in *.
        assert (Hm12 : Zpos m <= 2 ^ 52 + 12).
        { assert (K : 2 ^ (3 + 1074) = 8 * 2 ^ 1074) by reflexivity.
          assert (P : 0 < 2 ^ 1074) by reflexivity.
          assert (2 ^ 55 + 96 = (2 ^ 52 + 12) * 8) by reflexivity.
          nia. }
        assert (Ad : Z.abs D < 2 ^ 101).
        { assert (2 ^ 101 = 4503599627370496 * 562949953421312) by reflexivity.
          subst D. lia. }
        pose proof (Zdigits2_le_abs D 101 ltac:(lia) Ad) as G3.
        apply (Z.divide_trans _ (2 ^ 48)); [apply pow2_divide; lia |].
        exists (25 - Zpos m * 2). subst D.
        change (2 ^ 48) with 281474976710656. lia. }
    split; [destruct X; [left | right; right]; assumption |].
    intros _. exact X.
Qed.


Lemma eq_100_of_units (s : bool) (m : positive) (e : Z) :
  -1074 <= e ->
  cond_Zopp s (Zpos m) * 2 ^ (e + 1074) = 100 * 2 ^ 1074 ->
  PyNum.eq (PFloat (S754_finite s m e)) (PInt 100) = true.
Proof.
  intros He Hv. unfold PyNum.eq. cbn [compare].
  rewrite compare_Z_float_scaled by assumption.
  rewrite Hv, Z.compare_refl. reflexivity.
Qed.

(** The two segments of a positive float ratio up to [2^55 + 96]: their
    sum as Python computes it is 100, and their sum as numbers is within
    [2^-47] of 100, and exactly 100 from the ratio 64 on. *)
Lemma float_sum (m : positive) (e : Z) :
  bounded prec emax m e = true ->
  Zpos m * 2 ^ (e + 1074) <= (2 ^ 55 + 96) * 2 ^ 1074 ->
  exists us,
    units (PFloat (PyFloat.sub (of_Z 100) (S754_finite false m e))) = Some us /\
    PyNum.eq (PFloat (PyFloat.add (S754_finite false m e)
                        (PyFloat.sub (of_Z 100) (S754_finite false m e))))
             (PInt 100) = true /\
    2 * Z.abs (Zpos m * 2 ^ (e + 1074) + us - 100 * 2 ^ 1074) <= 2 ^ 1028 /\
    (-46 <= e -> Zpos m * 2 ^ (e + 1074) + us = 100 * 2 ^ 1074).
Proof.
  intros Hb Hle.
  destruct (canonical_facts m e Hb) as (He & _ & _).
  pose proof (difference_fits m e Hb Hle) as F. cbv zeta in F.
  change (of_Z 100) with (S754_finite false 7036874417766400 (-46)).
  rewrite sub_finite. cbn [cond_Zopp].
  set (ez := Z.min (-46) e) in *.
  set (D := 7036874417766400 * 2 ^ (-46 - ez) - Zpos m * 2 ^ (e - ez)) in *.
  assert (Hez : -1074 <= ez /\ ez <= -46 /\ ez <= e) by (subst ez; lia).
  assert (C100 : 100 * 2 ^ 1074 = 7036874417766400 * 2 ^ 1028) by reflexivity.
  assert (P1028 : 0 < 2 ^ 1028) by reflexivity.
  assert (I1 : D * 2 ^ (ez + 1074) = 100 * 2 ^ 1074 - Zpos m * 2 ^ (e + 1074)).
  { subst D. rewrite Z.mul_sub_distr_r, <- !Z.mul_assoc, <- !Z.pow_add_r by lia.
    replace (-46 - ez + (ez + 1074)) with 1028 by lia.
    replace (e - ez + (ez + 1074)) with (e + 1074) by lia.
    rewrite C100. reflexivity. }
  destruct (Z.eq_dec D 0) as [D0|D0].
  - (* the ratio is 100 itself *)
    rewrite D0 in *. cbn [binary_normalize].
    exists 0. split; [reflexivity |].
    assert (V : Zpos m * 2 ^ (e + 1074) = 100 * 2 ^ 1074) by lia.
    split; [| split].
    + unfold PyFloat.add. cbn [SFadd].
      apply eq_100_of_units; [exact He | exact V].
    + rewrite V, Z.add_0_r, Z.sub_diag. cbn [Z.abs]. lia.
    + intros _. lia.
  - destruct (F D0) as (Hfe & Herr & Hex).
    destruct (binary_normalize_error D ez D0 ltac:(lia) Hfe)
      as (ms & es & Hs & Hes & Hb1 & Hb2).
    rewrite Hs.
    set (S := Zpos ms * 2 ^ (es + 1074)) in *.
    set (A := Z.abs D * 2 ^ (ez + 1074)) in *.
    assert (Bd : 2 * Z.abs (S - A) <= 2 ^ 1028 /\ (-46 <= e -> S = A)).
    { split.
      - destruct Herr as [G | X].
        + assert (2 ^ (Zdigits2 D + ez - 53 + 1074) <= 2 ^ 1028)
            by (apply Z.pow_le_mono_r; lia).
          lia.
        + rewrite (Hb2 X), Z.sub_diag. cbn [Z.abs]. lia.
      - intros G. apply Hb2, Hex, G. }
    destruct Bd as [Bd1 Bd2].
    assert (I2 : cond_Zopp (D <? 0) A = 100 * 2 ^ 1074 - Zpos m * 2 ^ (e + 1074)).
    { subst A. rewrite <- cond_Zopp_mul, cond_Zopp_abs. exact I1. }
    exists (cond_Zopp (D <? 0) (Zpos ms) * 2 ^ (es + 1074)).
    split; [reflexivity |].
    rewrite cond_Zopp_mul. fold S.
    split; [| split].
    + rewrite add_finite. cbn [cond_Zopp].
      set (E := Z.min e es).
      assert (HE : -1074 <= E /\ E <= e /\ E <= es) by (subst E; lia).
      rewrite binary_normalize_100; [vm_compute; reflexivity | lia |].
      rewrite Z.mul_add_distr_r, cond_Zopp_mul, <- !Z.mul_assoc,
        <- !Z.pow_add_r by lia.
      replace (e - E + (E + 1074)) with (e + 1074) by lia.
      replace (es - E + (E + 1074)) with (es + 1074) by lia.
      fold S. destruct (D <? 0); cbn [cond_Zopp] in *; lia.
    + destruct (D <? 0); cbn [cond_Zopp] in *; lia.
    + intros G. specialize (Bd2 G).
      destruct (D <? 0); cbn [cond_Zopp] in *; lia.
Qed.


(** ** Above the bound *)

(** A finite result of a rounding has at least the exponent that the
    number of digits asks for. *)
Lemma binary_round_exp (s : bool) (m : positive) (e : Z) :
  match binary_round prec emax s m e with
  | S754_finite _ _ e' => Zpos (digits2_pos m) + e - 53 <= e'
  | _ => True
  end.
Proof.
  unfold binary_round.
  destruct (shl_align_spec m e (fexp prec emax (Zpos (digits2_pos m) + e)))
    as (mz & ez & Hs & Hle & Hd).
  rewrite Hs.
  destruct (binary_round_aux_shape s (Zpos mz) ez loc_Exact ltac:(lia))
    as (m1 & e1 & e2 & He1 & _ & He2 & Hr).
  rewrite Hr. cbn [Zdigits2] in He1. rewrite Hd, fexp_eq in He1.
  destruct (m1 / 2 ^ (e2 - e1)) as [|p|p]; try exact I.
  destruct (e2 <=? emax - prec); [lia | exact I].
Qed.

Lemma not_100_of_exp (s : bool) (m : positive) (e : Z) :
  3 <= e -> PyNum.eq (PFloat (S754_finite s m e)) (PInt 100) = false.
Proof.
  intros He. unfold PyNum.eq. cbn [compare].
  rewrite compare_Z_float_scaled by lia. cbn [option_map].
  replace (e + 1074) with ((e - 3) + 1077) by lia.
  rewrite Z.pow_add_r by lia.
  assert (P : 0 < 2 ^ (e - 3)) by (apply Z.pow_pos_nonneg; lia).
  assert (K : 2 ^ 1077 = 8 * 2 ^ 1074) by reflexivity.
  assert (Q : 0 < 2 ^ 1074) by reflexivity.
  rewrite K.
  destruct (Z.compare_spec (100 * 2 ^ 1074)
              (cond_Zopp s (Zpos m) * (2 ^ (e - 3) * (8 * 2 ^ 1074)))) as [C|C|C];
    try reflexivity.
  exfalso.
  assert (C' : 100 = 8 * (cond_Zopp s (Zpos m) * 2 ^ (e - 3))) by nia.
  lia.
Qed.

(** A multiple of 8 does not round to 100. *)
Lemma binary_normalize_not_100 (M E : Z) :
  3 <= E <= 971 ->
  PyNum.eq (PFloat (binary_normalize prec emax M E false)) (PInt 100) = false.
Proof.
  intros HE.
  assert (G : forall (sg : bool) (p : positive),
             PyNum.eq (PFloat (binary_round prec emax sg p E)) (PInt 100) = false).
  { intros sg p.
    destruct (Z_le_gt_dec (Zpos (digits2_pos p) + E - 53) E) as [L|L].
    - (* the value is kept: a multiple of 8 *)
      rewrite (binary_round_left sg p E (Zpos (digits2_pos p) + E - 53) eq_refl)
        by lia.
      set (fe := Zpos (digits2_pos p) + E - 53) in *.
      assert (Hp : 0 < 2 ^ (E - fe)) by (apply Z.pow_pos_nonneg; lia).
      unfold PyNum.eq. cbn [compare].
      rewrite compare_Z_float_scaled by lia. cbn [option_map].
      rewrite Z2Pos.id by lia.
      rewrite cond_Zopp_mul, <- Z.mul_assoc, <- Z.pow_add_r by lia.
      replace (E - fe + (fe + 1074)) with ((E - 3) + 1077) by lia.
      rewrite Z.pow_add_r by lia.
      assert (P : 0 < 2 ^ (E - 3)) by (apply Z.pow_pos_nonneg; lia).
      assert (K : 2 ^ 1077 = 8 * 2 ^ 1074) by reflexivity.
      assert (Q : 0 < 2 ^ 1074) by reflexivity.
      rewrite K.
      destruct (Z.compare_spec (100 * 2 ^ 1074)
                  (cond_Zopp sg (Zpos p * (2 ^ (E - 3) * (8 * 2 ^ 1074)))))
        as [C|C|C]; try reflexivity.
      exfalso.
      assert (C' : 100 = 8 * cond_Zopp sg (Zpos p * 2 ^ (E - 3))).
      { destruct sg; cbn [cond_Zopp] in *; nia. }
      destruct sg; cbn [cond_Zopp] in *; lia.
    - pose proof (binary_round_exp sg p E) as X.
      destruct (binary_round prec emax sg p E) as [z|z| |s' m' e'];
        try reflexivity.
      + destruct z; reflexivity.
      + apply not_100_of_exp. lia. }
  destruct M as [|p|p]; cbn [binary_normalize]; [reflexivity | apply G | apply G].
Qed.

(** Above [2^55 + 96] the two segments of a finite float ratio never
    sum to 100. *)
Lemma float_sum_above (m : positive) (e : Z) :
  bounded prec emax m e = true ->
  (2 ^ 55 + 96) * 2 ^ 1074 < Zpos m * 2 ^ (e + 1074) ->
  PyNum.eq (PFloat (PyFloat.add (S754_finite false m e)
                      (PyFloat.sub (of_Z 100) (S754_finite false m e))))
           (PInt 100) = false.
Proof.
  intros Hb Hgt.
  destruct (canonical_facts m e Hb) as (He & _ & _).
  pose proof (mantissa_lt m e Hb) as Hm.
  assert (C53 : 2 ^ 53 = 9007199254740992) by reflexivity.
  assert (Q : 0 < 2 ^ 1074) by reflexivity.
  assert (He3 : 3 <= e).
  { destruct (Z_le_gt_dec 3 e) as [G|G]; [exact G |]. exfalso.
    assert (2 ^ (e + 1074) <= 2 ^ (2 + 1074)) by (apply Z.pow_le_mono_r; lia).
    assert (K : 2 ^ (2 + 1074) = 4 * 2 ^ 1074) by reflexivity.
    assert (2 ^ 55 + 96 > 2 ^ 53 * 4) by reflexivity.
    assert (0 < 2 ^ (e + 1074)) by (apply Z.pow_pos_nonneg; lia).
    nia. }
  set (W := Zpos m * 2 ^ (e - 3)).
  assert (PW : 0 < 2 ^ (e - 3)) by (apply Z.pow_pos_nonneg; lia).
  assert (HW : 2 ^ 52 + 13 <= W).
  { assert (S : Zpos m * 2 ^ (e + 1074) = W * (8 * 2 ^ 1074)).
    { subst W. replace (e + 1074) with ((e - 3) + 1077) by lia.
      rewrite Z.pow_add_r by lia.
      assert (K : 2 ^ 1077 = 8 * 2 ^ 1074) by reflexivity.
      rewrite K. ring. }
    assert (2 ^ 55 + 96 = (2 ^ 52 + 12) * 8) by reflexivity.
    nia. }
  change (of_Z 100) with (S754_finite false 7036874417766400 (-46)).
  rewrite sub_finite. cbn [cond_Zopp].
  replace (Z.min (-46) e) with (-46) by lia.
  change (-46 - -46) with 0. change (2 ^ 0) with 1. rewrite Z.mul_1_r.
  replace (e - -46) with ((e - 3) + 49) by lia.
  rewrite Z.pow_add_r by lia. rewrite Z.mul_assoc. fold W.
  change (2 ^ 49) with 562949953421312.
  set (D := 7036874417766400 - W * 562949953421312).
  assert (HD : D <= - 2 ^ 101).
  { assert (2 ^ 101 = 4503599627370496 * 562949953421312) by reflexivity.
    assert (2 ^ 52 = 4503599627370496) by reflexivity.
    subst D. lia. }
  assert (P101 : 0 < 2 ^ 101) by reflexivity.
  destruct D as [|p|p] eqn:ED; try lia.
  cbn [binary_normalize].
  pose proof (binary_round_exp true p (-46)) as X.
  assert (Dg : 101 < Zpos (digits2_pos p)).
  { change (Zpos (digits2_pos p)) with (Zdigits2 (Zpos p)).
    apply Zdigits2_ge; lia. }
  destruct (binary_round prec emax true p (-46)) as [z|z| |s' ms es].
  - (* a zero difference: the sum is the ratio *)
    unfold PyFloat.add. cbn [SFadd]. apply not_100_of_exp, He3.
  - unfold PyFloat.add. cbn [SFadd]. destruct z; reflexivity.
  - reflexivity.
  - rewrite add_finite. apply binary_normalize_not_100.
    assert (e <= 971).
    { unfold bounded in Hb. apply andb_prop in Hb. destruct Hb as [_ Hb].
      apply Z.leb_le in Hb. exact Hb. }
    lia.
Qed.


(** ** The segments of a chart *)

Lemma make_donut_chart_or_zero (r : option num) (c : str) :
  make_donut_chart r c = make_donut_chart (Some (or_zero r)) c.
Proof. destruct r; reflexivity. Qed.

Lemma make_donut_chart_segments (r : option num) (c : str) (fig : Figure) :
  make_donut_chart r c = Ok fig ->
  segments fig = [or_zero r; complement (or_zero r)].
Proof.
  rewrite make_donut_chart_or_zero, make_donut_chart_some.
  destruct (format1 (or_zero r)) as [label|e]; cbn [bind]; [| discriminate].
  destruct (is_color c); [| discriminate].
  intros H. injection H as <-. reflexivity.
Qed.

Lemma to_float_in_range (x : num) :
  in_float_range x = true -> exists f, to_float x = Ok f.
Proof.
  destruct x as [z|f]; [| intros _; exists f; reflexivity].
  intros H. cbn [in_float_range] in H. apply Z.ltb_lt in H.
  pose proof (of_Z_finite z H) as Hf. cbn [to_float].
  destruct (of_Z z) as [s|s| |s m e]; try discriminate; eexists; reflexivity.
Qed.

Lemma int_sum (z : Z) :
  sums_to_100 [PInt z; complement (PInt z)] = true /\
  exact_total [PInt z; complement (PInt z)] = Some (100 * 2 ^ 1074).
Proof.
  split.
  - unfold sums_to_100, total. cbn [fold_left bind complement add PyNum.add].
    unfold PyNum.eq. cbn [compare].
    replace (0 + z + (100 - z)) with 100 by lia. reflexivity.
  - cbn [exact_total units complement]. f_equal. lia.
Qed.

Lemma sums_to_100_floats (a b : float) :
  sums_to_100 [PFloat a; PFloat b]
  = PyNum.eq (PFloat (PyFloat.add (PyFloat.add pos_zero a) b)) (PInt 100).
Proof. reflexivity. Qed.

(** What the bounds on a float ratio say of its mantissa and exponent. *)
Lemma float_in_bounds (f : float) (hi : Z) :
  valid (PFloat f) = true ->
  le (PInt 0) (PFloat f) = true -> le (PFloat f) (PInt hi) = true ->
  (exists s, f = S754_zero s) \/
  (exists m e,
      f = S754_finite false m e /\ bounded prec emax m e = true /\
      Zpos m * 2 ^ (e + 1074) <= hi * 2 ^ 1074).
Proof.
  intros Hv H0 Hh. destruct f as [s|s| |s m e].
  - left. exists s. reflexivity.
  - exfalso. unfold le in H0, Hh. cbn [compare compare_Z_float option_map] in *.
    destruct s; cbn [CompOpp] in *; discriminate.
  - discriminate.
  - right. cbn [valid valid_binary] in Hv.
    destruct (canonical_facts m e Hv) as (He & _).
    unfold le in H0, Hh. cbn [compare] in H0, Hh.
    rewrite compare_zero_finite in H0.
    rewrite compare_Z_float_scaled in Hh by assumption. cbn [option_map] in Hh.
    destruct s; [discriminate |]. cbn [cond_Zopp] in Hh.
    exists m, e. split; [reflexivity |]. split; [exact Hv |].
    destruct (Z.compare_spec (hi * 2 ^ 1074) (Zpos m * 2 ^ (e + 1074)));
      cbn [CompOpp] in Hh; try discriminate; lia.
Qed.

Lemma float_from_64 (m : positive) (e : Z) :
  bounded prec emax m e = true ->
  le (PInt 64) (PFloat (S754_finite false m e)) = true -> -46 <= e.
Proof.
  intros Hb H. destruct (canonical_facts m e Hb) as (He & _).
  pose proof (mantissa_lt m e Hb) as Hm.
  unfold le in H. cbn [compare] in H.
  rewrite compare_Z_float_scaled in H by assumption. cbn [cond_Zopp] in H.
  destruct (Z_le_gt_dec (-46) e) as [G|G]; [exact G |]. exfalso.
  assert (2 ^ (e + 1074) <= 2 ^ (-47 + 1074)) by (apply Z.pow_le_mono_r; lia).
  assert (P : 0 < 2 ^ (e + 1074)) by (apply Z.pow_pos_nonneg; lia).
  assert (K : 64 * 2 ^ 1074 = 2 ^ 53 * 2 ^ (-47 + 1074)) by reflexivity.
  destruct (Z.compare_spec (64 * 2 ^ 1074) (Zpos m * 2 ^ (e + 1074)));
    try discriminate; nia.
Qed.

(** The sum of the two segments of a float ratio from 0 to [2^55 + 96]. *)
Lemma float_segments_sum (f : float) :
  valid (PFloat f) = true ->
  le (PInt 0) (PFloat f) = true -> le (PFloat f) (PInt (2 ^ 55 + 96)) = true ->
  sums_to_100 [PFloat f; complement (PFloat f)] = true /\
  exists t,
    exact_total [PFloat f; complement (PFloat f)] = Some t /\
    2 * Z.abs (t - 100 * 2 ^ 1074) <= 2 ^ 1028 /\
    (le (PInt 64) (PFloat f) = true -> t = 100 * 2 ^ 1074).
Proof.
  intros Hv H0 Hh.
  destruct (float_in_bounds f _ Hv H0 Hh) as [[s ->] | (m & e & -> & Hb & Hle)].
  - split; [destruct s; vm_compute; reflexivity |].
    exists (100 * 2 ^ 1074). split; [destruct s; reflexivity |].
    split; [| reflexivity]. rewrite Z.sub_diag. cbn [Z.abs].
    assert (0 < 2 ^ 1028) by reflexivity. lia.
  - destruct (float_sum m e Hb Hle) as (us & Hu & Hs & Hn & Hx).
    cbn [complement]. rewrite sums_to_100_floats.
    replace (PyFloat.add pos_zero (S754_finite false m e))
      with (S754_finite false m e) by reflexivity.
    split; [exact Hs |].
    exists (Zpos m * 2 ^ (e + 1074) + us).
    split; [| split].
    + cbn [exact_total]. rewrite Hu. cbn [units cond_Zopp].
      rewrite Z.add_0_r. reflexivity.
    + exact Hn.
    + intros H64. apply Hx. exact (float_from_64 m e Hb H64).
Qed.

(** Above the bound the segments of a finite float never sum to 100. *)
Lemma float_segments_above (f : float) :
  valid (PFloat f) = true -> is_finite f = true ->
  lt (PInt (2 ^ 55 + 96)) (PFloat f) = true ->
  sums_to_100 [PFloat f; complement (PFloat f)] = false.
Proof.
  intros Hv Hf Hgt.
  destruct f as [s|s| |s m e]; try discriminate.
  cbn [valid valid_binary] in Hv.
  destruct (canonical_facts m e Hv) as (He & _).
  unfold lt in Hgt. cbn [compare] in Hgt.
  rewrite compare_Z_float_scaled in Hgt by assumption.
  assert (P : 0 < 2 ^ (e + 1074)) by (apply Z.pow_pos_nonneg; lia).
  assert (Q : 0 < 2 ^ 1074) by reflexivity.
  assert (B : 0 < 2 ^ 55 + 96) by reflexivity.
  destruct (Z.compare_spec ((2 ^ 55 + 96) * 2 ^ 1074)
              (cond_Zopp s (Zpos m) * 2 ^ (e + 1074))) as [C|C|C];
    try discriminate.
  destruct s; cbn [cond_Zopp] in C; [exfalso; nia |].
  cbn [complement]. rewrite sums_to_100_floats.
  replace (PyFloat.add pos_zero (S754_finite false m e))
    with (S754_finite false m e) by reflexivity.
  apply float_sum_above; assumption.
Qed.

(** C10 (as amended). Whenever [make_donut_chart] produces a chart, its
    segment list is [[r'; 100 - r']] for the substituted ratio [r'], the
    difference being the one Python computes, and it produces one for
    every ratio in the range of the floats and every colour plotly
    accepts.  For [None] and for every integer ratio the two values sum
    to exactly 100.  For every float ratio from 0 to [2^55 + 96], so also
    above 100, their sum as Python computes it equals 100; their sum as
    numbers, without the rounding of the addition, is within [2^-47] of
    100, and is exactly 100 from the ratio 64 on.  For every finite float
    ratio above [2^55 + 96] the sum differs from 100. *)
Theorem segments_sum :
  (forall (r : option num) (c : str) (fig : Figure),
      make_donut_chart r c = Ok fig ->
      segments fig = [or_zero r; complement (or_zero r)]) /\
  (forall (r : option num) (c : str),
      in_float_range (or_zero r) = true -> is_color c = true ->
      exists fig, make_donut_chart r c = Ok fig) /\
  (forall (c : str) (fig : Figure),
      make_donut_chart None c = Ok fig ->
      sums_to_100 (segments fig) = true /\
      exact_total (segments fig) = Some (100 * 2 ^ 1074)) /\
  (forall (z : Z) (c : str) (fig : Figure),
      make_donut_chart (Some (PInt z)) c = Ok fig ->
      sums_to_100 (segments fig) = true /\
      exact_total (segments fig) = Some (100 * 2 ^ 1074)) /\
  (forall (f : float) (c : str) (fig : Figure),
      valid (PFloat f) = true ->
      le (PInt 0) (PFloat f) = true ->
      le (PFloat f) (PInt (2 ^ 55 + 96)) = true ->
      make_donut_chart (Some (PFloat f)) c = Ok fig ->
      sums_to_100 (segments fig) = true /\
      exists t,
        exact_total (segments fig) = Some t /\
        2 * Z.abs (t - 100 * 2 ^ 1074) <= 2 ^ 1028 /\
        (le (PInt 64) (PFloat f) = true -> t = 100 * 2 ^ 1074)) /\
  (forall (f : float) (c : str) (fig : Figure),
      valid (PFloat f) = true -> is_finite f = true ->
      lt (PInt (2 ^ 55 + 96)) (PFloat f) = true ->
      make_donut_chart (Some (PFloat f)) c = Ok fig ->
      sums_to_100 (segments fig) = false).
Proof.
  split; [exact make_donut_chart_segments |].
  split; [| split; [| split; [| split]]].
  - intros r c Hr Hc. rewrite make_donut_chart_or_zero.
    destruct (to_float_in_range _ Hr) as [f Hf].
    eexists. exact (make_donut_chart_value _ c f Hf Hc).
  - intros c fig H. rewrite (make_donut_chart_segments None c fig H).
    exact (int_sum 0).
  - intros z c fig H. rewrite (make_donut_chart_segments _ c fig H).
    exact (int_sum z).
  - intros f c fig Hv H0 Hh H. rewrite (make_donut_chart_segments _ c fig H).
    exact (float_segments_sum f Hv H0 Hh).
  - intros f c fig Hv Hf Hgt H. rewrite (make_donut_chart_segments _ c fig H).
    exact (float_segments_above f Hv Hf Hgt).
Qed.

Lemma segments_sum_witness :
  valid (PFloat (lit 1500 10)) = true /\
  le (PInt 0) (PFloat (lit 1500 10)) = true /\
  le (PFloat (lit 1500 10)) (PInt (2 ^ 55 + 96)) = true /\
  make_donut_chart (Some (PFloat (lit 1500 10))) (u "#e74c3c")
  = Ok (ring (PFloat (lit 1500 10)) (PFloat (nearest true 500 10))
             (u "150.0") (u "#e74c3c")) /\
  sums_to_100 (segments (ring (PFloat (lit 1500 10)) (PFloat (nearest true 500 10))
                              (u "150.0") (u "#e74c3c"))) = true /\
  exists t,
    exact_total (segments (ring (PFloat (lit 1500 10))
                                (PFloat (nearest true 500 10))
                                (u "150.0") (u "#e74c3c"))) = Some t /\
    2 * Z.abs (t - 100 * 2 ^ 1074) <= 2 ^ 1028 /\
    (le (PInt 64) (PFloat (lit 1500 10)) = true -> t = 100 * 2 ^ 1074).
Proof.
  assert (Hv : valid (PFloat (lit 1500 10)) = true) by (vm_compute; reflexivity).
  assert (H0 : le (PInt 0) (PFloat (lit 1500 10)) = true)
    by (vm_compute; reflexivity).
  assert (Hh : le (PFloat (lit 1500 10)) (PInt (2 ^ 55 + 96)) = true)
    by (vm_compute; reflexivity).
  assert (H : make_donut_chart (Some (PFloat (lit 1500 10))) (u "#e74c3c")
              = Ok (ring (PFloat (lit 1500 10)) (PFloat (nearest true 500 10))
                         (u "150.0") (u "#e74c3c")))
    by (vm_compute; reflexivity).
  split; [exact Hv |]. split; [exact H0 |]. split; [exact Hh |].
  split; [exact H |].
  exact (proj1 (proj2 (proj2 (proj2 (proj2 segments_sum))))
           (lit 1500 10) (u "#e74c3c") _ Hv H0 Hh H).
Defined.

(** C10 as stated fails.  A deposit of [10^15] against a price of 1 gives
    the ratio [1e17]; the second segment is the rounded difference
    [-99999999999999904.0], and the two sum to 96.0.  A negative ratio can
    fail as well: for [-28.537456976449604] the sum is above 100.  And
    where the sum Python computes is 100 the two values need not add up to
    100 as numbers: for the ratio 0.1 they do not. *)
Lemma segments_sum_fails :
  calc_jeonse_ratio (PInt (10 ^ 15)) (PInt 1)
  = Ok (Some (PFloat (lit 100000000000000000 1))) /\
  make_donut_chart (Some (PFloat (lit 100000000000000000 1))) (u "#e74c3c")
  = Ok (ring (PFloat (lit 100000000000000000 1))
             (PFloat (nearest true 99999999999999904 1))
             (u "100000000000000000.0") (u "#e74c3c")) /\
  total [PFloat (lit 100000000000000000 1);
         PFloat (nearest true 99999999999999904 1)]
  = Ok (PFloat (lit 96 1)) /\
  sums_to_100
    (segments (ring (PFloat (lit 100000000000000000 1))
                    (PFloat (nearest true 99999999999999904 1))
                    (u "100000000000000000.0") (u "#e74c3c"))) = false /\
  (exists fig,
      make_donut_chart
        (Some (PFloat (nearest true 28537456976449604 1000000000000000)))
        (u "#2ecc71") = Ok fig /\
      sums_to_100 (segments fig) = false) /\
  (exists fig,
      make_donut_chart (Some (PFloat (lit 1 10))) (u "#2ecc71") = Ok fig /\
      sums_to_100 (segments fig) = true /\
      exact_total (segments fig) <> Some (100 * 2 ^ 1074)).
Proof.
  split; [vm_compute; reflexivity |]. split; [vm_compute; reflexivity |].
  split; [vm_compute; reflexivity |]. split; [vm_compute; reflexivity |].
  split.
  - eexists. split; [vm_compute; reflexivity |]. vm_compute. reflexivity.
  - eexists. split; [vm_compute; reflexivity |].
    split; [vm_compute; reflexivity |].
    vm_compute. discriminate.
Qed.

End Segments.
